(** * sgx_webauthn_authenticator: the untrusted host application

    A shallow embedding of [App/App.cpp] (enclave lifecycle, OCALL
    capabilities, hex decoding, console input, [main]) and of the generated
    marshaling layer [App/Enclave_u.c] (parameter blocks, OCALL table, ECALL
    proxies), followed by the properties the specification states about them.

    Conventions of the embedding:
    - [char] and [uint8_t] cells are [ascii] (eight bits, no junk values);
      a buffer is the list of its cells, a C string is a buffer read up to
      its first NUL;
    - [int32_t], [uint32_t], [size_t] and [sgx_status_t] values are [Z], with
      the wrap-around of each conversion written out where the code converts;
    - the console, the files and the enclave handle are threaded explicitly
      through a [world];
    - an access outside a buffer is a [Fault], never a silent default, also
      when it is a library function that is told to store more than the
      buffer holds;
    - uninitialised storage (automatic variables, [malloc] results) is an
      explicit argument holding its indeterminate initial contents;
    - the SGX runtime ([sgx_create_enclave], [sgx_ecall]) and the proxy
      [webauthn_get_signature], which are not part of these two files, are
      the fields of a [platform] record. *)

From Stdlib Require Import Ascii String DecimalString.
From Stdlib Require Import ZArith List Bool Lia.
Import ListNotations.
Open Scope list_scope.
Open Scope Z_scope.

(** ** Faults and the error monad *)

Inductive fault : Type :=
| OutOfBounds (index : Z)   (* a cell outside the buffer was accessed *)
| Unterminated.             (* a string function ran off an unterminated buffer *)

Inductive result (A : Type) : Type :=
| Ok (a : A)
| Fault (f : fault).

Arguments Ok {A} a.
Arguments Fault {A} f.

Definition bind {A B : Type} (r : result A) (k : A -> result B) : result B :=
  match r with
  | Ok a => k a
  | Fault f => Fault f
  end.

Notation "x <- r ;; k" := (bind r (fun x => k))
  (at level 61, r at next level, right associativity).

(** ** The C library, as far as the program uses it *)

Module Libc.

Definition NUL : ascii := zero.
Definition newline : ascii := "010"%char.

(** A string literal as the list of its characters (without terminator). *)
Definition str (s : string) : list ascii := list_ascii_of_string s.

Definition two_32 : Z := 4294967296.

(** Conversion to [uint32_t]. *)
Definition to_uint32 (z : Z) : Z := z mod two_32.

(** Conversion to [int] / [int32_t] (two's complement). *)
Definition to_int32 (z : Z) : Z := (z + 2147483648) mod two_32 - 2147483648.

(** [new] laid over the first cells of a buffer that has room for it; the
    cells behind it keep their contents. *)
Definition overlay (new old : list ascii) : list ascii :=
  new ++ skipn (length new) old.

(** A library function storing [new] from the start of [buf].  Nothing
    tells the function how many cells the buffer has: when [new] is longer,
    the cell just behind the buffer is written. *)
Definition write_cells (new buf : list ascii) : result (list ascii) :=
  if (length new <=? length buf)%nat then Ok (overlay new buf)
  else Fault (OutOfBounds (Z.of_nat (length buf))).

(** [buf[i]], bounds checked. *)
Definition load (buf : list ascii) (i : Z) : result ascii :=
  if (0 <=? i) && (i <? Z.of_nat (length buf))
  then Ok (nth (Z.to_nat i) buf NUL)
  else Fault (OutOfBounds i).

(** [buf[i] = c], bounds checked. *)
Definition store (buf : list ascii) (i : Z) (c : ascii) : result (list ascii) :=
  if (0 <=? i) && (i <? Z.of_nat (length buf))
  then Ok (firstn (Z.to_nat i) buf ++ c :: skipn (S (Z.to_nat i)) buf)
  else Fault (OutOfBounds i).

(** The characters of the C string held in [buf], if it is terminated. *)
Fixpoint c_str (buf : list ascii) : option (list ascii) :=
  match buf with
  | [] => None
  | c :: rest =>
      if Ascii.eqb c NUL then Some []
      else match c_str rest with
           | Some s => Some (c :: s)
           | None => None
           end
  end.

(** [strlen]: the number of characters before the first NUL. *)
Definition strlen (buf : list ascii) : result Z :=
  match c_str buf with
  | Some s => Ok (Z.of_nat (length s))
  | None => Fault Unterminated
  end.

(** Reads at most [room] characters of the stream, stopping behind a
    newline: the characters read and the rest of the stream. *)
Fixpoint read_line (room : nat) (stream : list ascii) : list ascii * list ascii :=
  match room, stream with
  | S k, c :: rest =>
      if Ascii.eqb c newline then ([c], rest)
      else let (l, r) := read_line k rest in (c :: l, r)
  | _, _ => ([], stream)
  end.

(** [fgets(str, n, stream)]: whether the returned pointer is non-null, the
    buffer and the stream afterwards.  At end of file with nothing read the
    buffer is left unchanged and NULL is returned; with [n = 1] only the
    terminator is stored; [n <= 0] reads nothing.  The characters read and
    the terminator are stored whether or not the buffer has [n] cells. *)
Definition fgets (buf : list ascii) (n : Z) (stream : list ascii)
  : result (bool * list ascii * list ascii) :=
  if n <=? 0 then Ok (false, buf, stream)
  else if n =? 1 then
    buf1 <- write_cells [NUL] buf ;;
    Ok (true, buf1, stream)
  else
    let (line, rest) := read_line (Z.to_nat (n - 1)) stream in
    match line with
    | [] => Ok (false, buf, stream)
    | _ =>
        buf1 <- write_cells (line ++ [NUL]) buf ;;
        Ok (true, buf1, rest)
    end.

(** [getchar()]: drops one character of the stream, if there is one. *)
Definition getchar (stream : list ascii) : list ascii := tl stream.

(** *** Hexadecimal conversions of [scanf] and [printf] *)

Definition isspace (c : ascii) : bool :=
  let n := N_of_ascii c in
  (N.eqb n 32 || (N.leb 9 n && N.leb n 13))%bool.

Definition hex_val (c : ascii) : option Z :=
  let n := Z.of_N (N_of_ascii c) in
  if (48 <=? n) && (n <=? 57) then Some (n - 48)          (* 0-9 *)
  else if (97 <=? n) && (n <=? 102) then Some (n - 87)    (* a-f *)
  else if (65 <=? n) && (n <=? 70) then Some (n - 55)     (* A-F *)
  else None.

Definition byte_of_Z (z : Z) : ascii := ascii_of_N (Z.to_N (z mod 256)).
Definition Z_of_byte (b : ascii) : Z := Z.of_N (N_of_ascii b).

Fixpoint skip_space (s : list ascii) : list ascii :=
  match s with
  | c :: rest => if isspace c then skip_space rest else s
  | [] => []
  end.

(** At most two hexadecimal digits at the head of [s], as a number. *)
Definition scan_hex_digits2 (s : list ascii) : option Z :=
  match s with
  | [] => None
  | c :: t =>
      match hex_val c with
      | None => None
      | Some v1 =>
          match t with
          | d :: _ =>
              match hex_val d with
              | Some v2 => Some (16 * v1 + v2)
              | None => Some v1
              end
          | [] => Some v1
          end
      end
  end.

(** [sscanf(s, "%2hhx", p)] on the string [s]: the byte stored through [p],
    or [None] when nothing is stored (end of string or no match).  White
    space is skipped, then an input item of at most two characters is
    taken, an optionally signed hexadecimal number with an optional [0x];
    the value is converted to [unsigned char].  An item that is only a sign
    is not a number and stores nothing.  An item that is only [0x] is read
    by the C library as the number 0: the digit counts, the [x] is taken
    for the prefix, and the field is full before any further digit. *)
Definition sscanf_2hhx (s : list ascii) : option ascii :=
  match skip_space s with
  | [] => None
  | c :: t =>
      if Ascii.eqb c "+"%char then
        match t with
        | d :: _ => option_map byte_of_Z (hex_val d)
        | [] => None
        end
      else if Ascii.eqb c "-"%char then
        match t with
        | d :: _ => option_map (fun v => byte_of_Z (- v)) (hex_val d)
        | [] => None
        end
      else if Ascii.eqb c "0"%char then
        match t with
        | x :: _ =>
            if Ascii.eqb x "x"%char || Ascii.eqb x "X"%char then Some (byte_of_Z 0)
            else option_map byte_of_Z (scan_hex_digits2 (c :: t))
        | [] => Some (byte_of_Z 0)
        end
      else option_map byte_of_Z (scan_hex_digits2 (c :: t))
  end.

Definition hex_digit (upper : bool) (v : Z) : ascii :=
  if v <? 10 then byte_of_Z (48 + v)
  else byte_of_Z ((if upper then 55 else 87) + v).

(** The [width] least significant hexadecimal digits of [v], most
    significant first. *)
Fixpoint hex_fixed (upper : bool) (width : nat) (v : Z) : list ascii :=
  match width with
  | O => []
  | S k => hex_fixed upper k (v / 16) ++ [hex_digit upper (v mod 16)]
  end.

Fixpoint strip_zeros (s : list ascii) : list ascii :=
  match s with
  | c :: (_ :: _) as rest => if Ascii.eqb c "0"%char then strip_zeros rest else s
  | _ => s
  end.

(** [printf("%02x", b)] for a [uint8_t]. *)
Definition printf_02x (b : ascii) : list ascii :=
  hex_fixed false 2 (Z_of_byte b).

(** [printf("%08x", v)] for a [uint32_t]. *)
Definition printf_08x (v : Z) : list ascii :=
  hex_fixed false 8 (to_uint32 v).

(** [printf("%X", v)] for a 32-bit value: upper case, no padding. *)
Definition printf_X (v : Z) : list ascii :=
  strip_zeros (hex_fixed true 8 (to_uint32 v)).

(** [printf("%d", v)] for an [int]. *)
Definition printf_d (v : Z) : list ascii :=
  str (NilZero.string_of_int (Z.to_int (to_int32 v))).

End Libc.

Import Libc.


(** ** The SGX SDK, as far as the program uses it *)

Module Sgx.

(** [sgx_status_t] is an enumeration of 32-bit codes; [SGX_SUCCESS] is 0. *)
Definition SGX_SUCCESS : Z := 0.

(** The error names [App.cpp] mentions.  Their numeric values are declared
    in the SDK's [sgx_error.h]; the program only compares and prints them,
    so the values are a field of the [platform]. *)
Inductive sgx_error_name : Type :=
| SGX_ERROR_UNEXPECTED
| SGX_ERROR_INVALID_PARAMETER
| SGX_ERROR_OUT_OF_MEMORY
| SGX_ERROR_ENCLAVE_LOST
| SGX_ERROR_INVALID_ENCLAVE
| SGX_ERROR_INVALID_ENCLAVE_ID
| SGX_ERROR_INVALID_SIGNATURE
| SGX_ERROR_OUT_OF_EPC
| SGX_ERROR_NO_DEVICE
| SGX_ERROR_MEMORY_MAP_CONFLICT
| SGX_ERROR_INVALID_METADATA
| SGX_ERROR_DEVICE_BUSY
| SGX_ERROR_INVALID_VERSION
| SGX_ERROR_INVALID_ATTRIBUTE
| SGX_ERROR_ENCLAVE_FILE_ACCESS.

(** Modelled from the spec: the size constants of [sgx_tcrypto.h], which is
    not among the sources.  The specification gives each public-key
    coordinate 64 hexadecimal characters at two per byte, and each
    signature coordinate 8 limbs of 32 bits. *)
Definition SGX_ECP256_KEY_SIZE : nat := 32.
Definition SGX_NISTP_ECP256_KEY_SIZE : nat := 8.

(** A fixed-size array is the function from its indices to its cells; only
    the indices below the size are ever used. *)
Record sgx_ec256_public_t : Type := {
  gx : nat -> ascii;   (* uint8_t gx[SGX_ECP256_KEY_SIZE] *)
  gy : nat -> ascii    (* uint8_t gy[SGX_ECP256_KEY_SIZE] *)
}.

Record sgx_ec256_signature_t : Type := {
  x : nat -> Z;        (* uint32_t x[SGX_NISTP_ECP256_KEY_SIZE] *)
  y : nat -> Z         (* uint32_t y[SGX_NISTP_ECP256_KEY_SIZE] *)
}.

End Sgx.

Import Sgx.

(** ** The world outside the program *)

Definition path : Type := list ascii.

Definition path_eqb (p q : path) : bool :=
  if list_eq_dec ascii_dec p q then true else false.

Record file : Type := {
  f_content : option (list ascii);  (* [None]: there is no such file *)
  f_readable : bool;                (* it may be opened for reading *)
  f_writable : bool;                (* it may be created or truncated for writing *)
  f_room : nat;                     (* bytes the file takes before a write comes up short *)
  f_buffered : bool                 (* a stream to it holds what is written until it is closed *)
}.

Record world : Type := {
  w_stdin : list ascii;             (* what is left to read on the console *)
  w_stdout : list ascii;            (* everything printed so far *)
  w_fs : path -> file;
  w_home : option path;             (* [pw_dir] of the entry [getpwuid(getuid())]
                                       returns, possibly NULL *)
  global_eid : Z                    (* [sgx_enclave_id_t global_eid] *)
}.

Definition set_stdin (s : list ascii) (w : world) : world :=
  {| w_stdin := s; w_stdout := w_stdout w; w_fs := w_fs w;
     w_home := w_home w; global_eid := global_eid w |}.

Definition set_fs (fs : path -> file) (w : world) : world :=
  {| w_stdin := w_stdin w; w_stdout := w_stdout w; w_fs := fs;
     w_home := w_home w; global_eid := global_eid w |}.

Definition set_eid (eid : Z) (w : world) : world :=
  {| w_stdin := w_stdin w; w_stdout := w_stdout w; w_fs := w_fs w;
     w_home := w_home w; global_eid := eid |}.

(** [printf] of an already formatted text. *)
Definition printf (s : list ascii) (w : world) : world :=
  {| w_stdin := w_stdin w; w_stdout := w_stdout w ++ s; w_fs := w_fs w;
     w_home := w_home w; global_eid := global_eid w |}.

(** An open stream: one opened for reading delivers the file's bytes, one
    opened for writing remembers its file. *)
Inductive FILE : Type :=
| Reading (content : list ascii)
| Writing (p : path).

Definition put_content (p : path) (data : list ascii) (w : world) : world :=
  set_fs (fun q =>
            if path_eqb q p
            then {| f_content := Some data; f_readable := f_readable (w_fs w q);
                    f_writable := f_writable (w_fs w q); f_room := f_room (w_fs w q);
                    f_buffered := f_buffered (w_fs w q) |}
            else w_fs w q) w.

(** [fopen(p, "rb")] and [ifstream(p, ios::in | ios::binary)]. *)
Definition open_read (p : path) (w : world) : option FILE :=
  match f_content (w_fs w p) with
  | Some c => if f_readable (w_fs w p) then Some (Reading c) else None
  | None => None
  end.

(** [fopen(p, "wb")], [freopen(p, "wb", _)] and
    [ofstream(p, ios::out | ios::binary)]: creates or truncates. *)
Definition open_write (p : path) (w : world) : option FILE * world :=
  if f_writable (w_fs w p) then (Some (Writing p), put_content p [] w)
  else (None, w).

(** [fread(buf, 1, size, fp)] and [ifstream::read]: the count read and the
    buffer.  A stream opened for writing delivers nothing. *)
Definition fread (buf : list ascii) (size : nat) (fp : FILE) : nat * list ascii :=
  match fp with
  | Reading c => (Nat.min size (List.length c), overlay (firstn size c) buf)
  | Writing _ => (O, buf)
  end.

(** [fwrite(data, 1, size, fp)] and [ofstream::write]: the count the call
    reports, and the world once the stream is closed.  The program closes
    every stream right after its one write and never looks at the result of
    closing, so the file is shown as the close leaves it: with the first
    [f_room] bytes when the file takes no more.  The count is another
    matter.  A buffered stream takes all the bytes into its buffer and
    reports them all as written; that some did not reach the file shows
    only when the buffer is flushed, at the close.  A stream that writes
    through reports the bytes the file took. *)
Definition fwrite (data : list ascii) (size : nat) (fp : FILE) (w : world) : nat * world :=
  match fp with
  | Reading _ => (O, w)
  | Writing p =>
      let k := Nat.min size (f_room (w_fs w p)) in
      (if f_buffered (w_fs w p) then size else k, put_content p (firstn k data) w)
  end.

(** ** App.cpp: console input and the OCALL capabilities *)

Definition ENCLAVE_DATA_FILE : path := str "enclave_data.seal".

(** [fgets_nonewline]: an [fgets] whose result is not inspected, then the
    trim.  [str_len] is the [uint32_t] holding [strlen(str) - 1]. *)
Definition fgets_nonewline (buf : list ascii) (n : Z) (stream : list ascii)
  : result (list ascii * list ascii) :=
  r <- fgets buf (to_int32 n) stream ;;
  let '(_, buf1, stream1) := r in
  len <- strlen buf1 ;;
  let str_len := to_uint32 (len - 1) in
  c <- load buf1 str_len ;;
  if Ascii.eqb c newline then
    buf2 <- store buf1 str_len NUL ;;
    Ok (buf2, stream1)
  else Ok (buf1, stream1).

(** [untrusted_print_string]: [printf("%s", str)]. *)
Definition untrusted_print_string (s : list ascii) (w : world) : result world :=
  match c_str s with
  | Some text => Ok (printf text w)
  | None => Fault Unterminated
  end.

(** [untrusted_get_user_input]: the buffer afterwards and the world. *)
Definition untrusted_get_user_input (ret_str : list ascii) (n : Z) (w : world)
  : result (list ascii * world) :=
  r <- fgets_nonewline ret_str n (w_stdin w) ;;
  Ok (fst r, set_stdin (snd r) w).

(** [untrusted_save_enclave_data]: the return code and the world.  Writing
    more bytes than the caller's buffer holds reads outside it. *)
Definition untrusted_save_enclave_data (sealed_data : list ascii) (sealed_size : Z)
    (w : world) : result (Z * world) :=
  match open_write ENCLAVE_DATA_FILE w with
  | (None, w1) => Ok (1, w1)
  | (Some file, w1) =>
      if Z.of_nat (List.length sealed_data) <? sealed_size
      then Fault (OutOfBounds (Z.of_nat (List.length sealed_data)))
      else Ok (0, snd (fwrite sealed_data (Z.to_nat sealed_size) file w1))
  end.

(** [untrusted_load_enclave_data]: the return code, the buffer and the world.
    The number of bytes [read] delivers is never looked at. *)
Definition untrusted_load_enclave_data (sealed_data : list ascii) (sealed_size : Z)
    (w : world) : result (Z * list ascii * world) :=
  match open_read ENCLAVE_DATA_FILE w with
  | None => Ok (1, sealed_data, w)
  | Some file =>
      let (got, buf) := fread sealed_data (Z.to_nat sealed_size) file in
      if (List.length sealed_data <? got)%nat
      then Fault (OutOfBounds (Z.of_nat (List.length sealed_data)))
      else Ok (0, buf, w)
  end.

(** ** Enclave_u.c: parameter blocks, OCALL bridges and table, ECALL proxies

    A pointer field of a block is modelled by what it points to: a buffer
    for [char*] and [uint8_t*], the structure for the pointers to result
    structures (the proxies hand them on without looking at them). *)

Module ms_get_public_key_t.
Record t : Type := {
  ms_retval : Z;
  ms_ret_pk : sgx_ec256_public_t
}.
End ms_get_public_key_t.

Module ms_sign_data_t.
Record t : Type := {
  ms_retval : Z;
  ms_data : list ascii;
  ms_data_size : Z;
  ms_ret_signature : sgx_ec256_signature_t
}.
End ms_sign_data_t.

Module ms_untrusted_print_string_t.
Record t : Type := {
  ms_str : list ascii
}.
End ms_untrusted_print_string_t.

Module ms_untrusted_save_enclave_data_t.
Record t : Type := {
  ms_retval : Z;
  ms_sealed_data : list ascii;
  ms_sealed_size : Z
}.
End ms_untrusted_save_enclave_data_t.

Module ms_untrusted_load_enclave_data_t.
Record t : Type := {
  ms_retval : Z;
  ms_sealed_data : list ascii;
  ms_sealed_size : Z
}.
End ms_untrusted_load_enclave_data_t.

Definition Enclave_untrusted_print_string (ms : ms_untrusted_print_string_t.t)
    (w : world) : result (Z * ms_untrusted_print_string_t.t * world) :=
  w1 <- untrusted_print_string (ms_untrusted_print_string_t.ms_str ms) w ;;
  Ok (SGX_SUCCESS, ms, w1).

Definition Enclave_untrusted_save_enclave_data (ms : ms_untrusted_save_enclave_data_t.t)
    (w : world) : result (Z * ms_untrusted_save_enclave_data_t.t * world) :=
  r <- untrusted_save_enclave_data
         (ms_untrusted_save_enclave_data_t.ms_sealed_data ms)
         (ms_untrusted_save_enclave_data_t.ms_sealed_size ms) w ;;
  Ok (SGX_SUCCESS,
      {| ms_untrusted_save_enclave_data_t.ms_retval := fst r;
         ms_untrusted_save_enclave_data_t.ms_sealed_data :=
           ms_untrusted_save_enclave_data_t.ms_sealed_data ms;
         ms_untrusted_save_enclave_data_t.ms_sealed_size :=
           ms_untrusted_save_enclave_data_t.ms_sealed_size ms |},
      snd r).

Definition Enclave_untrusted_load_enclave_data (ms : ms_untrusted_load_enclave_data_t.t)
    (w : world) : result (Z * ms_untrusted_load_enclave_data_t.t * world) :=
  r <- untrusted_load_enclave_data
         (ms_untrusted_load_enclave_data_t.ms_sealed_data ms)
         (ms_untrusted_load_enclave_data_t.ms_sealed_size ms) w ;;
  Ok (SGX_SUCCESS,
      {| ms_untrusted_load_enclave_data_t.ms_retval := fst (fst r);
         ms_untrusted_load_enclave_data_t.ms_sealed_data := snd (fst r);
         ms_untrusted_load_enclave_data_t.ms_sealed_size :=
           ms_untrusted_load_enclave_data_t.ms_sealed_size ms |},
      snd r).

(** The entries of the OCALL table are pointers to the bridges. *)
Inductive bridge_ptr : Type :=
| Ptr_Enclave_untrusted_print_string
| Ptr_Enclave_untrusted_save_enclave_data
| Ptr_Enclave_untrusted_load_enclave_data.

Definition bridge_block (p : bridge_ptr) : Type :=
  match p with
  | Ptr_Enclave_untrusted_print_string => ms_untrusted_print_string_t.t
  | Ptr_Enclave_untrusted_save_enclave_data => ms_untrusted_save_enclave_data_t.t
  | Ptr_Enclave_untrusted_load_enclave_data => ms_untrusted_load_enclave_data_t.t
  end.

(** Calling through a table entry: the bridge it points to, on the block
    layout that bridge casts [pms] to. *)
Definition call_bridge (p : bridge_ptr)
  : bridge_block p -> world -> result (Z * bridge_block p * world) :=
  match p with
  | Ptr_Enclave_untrusted_print_string => Enclave_untrusted_print_string
  | Ptr_Enclave_untrusted_save_enclave_data => Enclave_untrusted_save_enclave_data
  | Ptr_Enclave_untrusted_load_enclave_data => Enclave_untrusted_load_enclave_data
  end.

Record ocall_table_t : Type := {
  nr_ocall : Z;
  table : list bridge_ptr
}.

Definition ocall_table_Enclave : ocall_table_t :=
  {| nr_ocall := 3;
     table := [ Ptr_Enclave_untrusted_print_string;
                Ptr_Enclave_untrusted_save_enclave_data;
                Ptr_Enclave_untrusted_load_enclave_data ] |}.

(** The host functions of [App.cpp] an enclave may want to reach, under the
    names the specification gives the capabilities. *)
Inductive capability : Type :=
| Cap_print_string        (* untrusted_print_string *)
| Cap_read_line           (* untrusted_get_user_input *)
| Cap_save_sealed_state   (* untrusted_save_enclave_data *)
| Cap_load_sealed_state.  (* untrusted_load_enclave_data *)

(** Which host function a bridge calls. *)
Definition bridge_calls (p : bridge_ptr) : capability :=
  match p with
  | Ptr_Enclave_untrusted_print_string => Cap_print_string
  | Ptr_Enclave_untrusted_save_enclave_data => Cap_save_sealed_state
  | Ptr_Enclave_untrusted_load_enclave_data => Cap_load_sealed_state
  end.

(** The runtime's dispatch of an OCALL: the index is checked against
    [nr_ocall], then [table[index]] is called. *)
Definition ocall_dispatch (t : ocall_table_t) (index : Z) : option bridge_ptr :=
  if (0 <=? index) && (index <? nr_ocall t)
  then nth_error (table t) (Z.to_nat index)
  else None.

(** The block layout of the ECALL at an index: the runtime hands the
    proxy's block to the trusted entry point and back. *)
Definition block_layout (is_0 is_1 : bool) : Type :=
  if is_0 then ms_get_public_key_t.t
  else if is_1 then ms_sign_data_t.t
  else unit.

Definition ecall_block (index : Z) : Type :=
  block_layout (index =? 0) (index =? 1).

(** ** What the program is built against

    The constants of [App.h] and of the SDK headers, and the functions of
    the SGX runtime.  [webauthn_get_signature] is the proxy [main] calls for
    signing; [Enclave_u.c] as it stands does not define it. *)
Record platform : Type := {
  TOKEN_FILENAME : path;
  ENCLAVE_FILENAME : path;
  SGX_DEBUG_FLAG : Z;
  MAX_PATH : Z;                               (* FILENAME_MAX *)
  sizeof_sgx_launch_token_t : nat;
  sgx_status_value : sgx_error_name -> Z;
  (** file name, debug flag, [*token], [*updated], the world: the status,
      [*token], [*updated] and [*eid] afterwards *)
  sgx_create_enclave :
    path -> Z -> list ascii -> Z -> world -> Z * list ascii * Z * Z;
  (** enclave id, index, OCALL table, block, the world: the status, the
      block and the world afterwards *)
  sgx_ecall :
    Z -> forall index : Z, ocall_table_t -> ecall_block index -> world ->
    Z * ecall_block index * world;
  (** enclave id, [*retval], data, size, client data, size, [*signature],
      the world: the status, [*retval], [*signature] and the world
      afterwards *)
  webauthn_get_signature :
    Z -> Z -> list ascii -> Z -> list ascii -> Z -> sgx_ec256_signature_t -> world ->
    Z * Z * sgx_ec256_signature_t * world;
  sgx_destroy_enclave : Z -> world -> world
}.

(** [get_public_key]: the returned status, [*retval] ([None] for a null
    [retval], [Some] of the cell's contents otherwise), [*ret_pk] and the
    world.  [ms0] is what the uninitialised
    [ms.ms_retval] holds. *)
Definition get_public_key (P : platform) (eid : Z) (retval : option Z)
    (ret_pk : sgx_ec256_public_t) (ms0 : Z) (w : world)
  : Z * option Z * sgx_ec256_public_t * world :=
  let ms := {| ms_get_public_key_t.ms_retval := ms0;
               ms_get_public_key_t.ms_ret_pk := ret_pk |} in
  let '(status, ms1, w1) := sgx_ecall P eid 0 ocall_table_Enclave ms w in
  let retval1 :=
    match retval with
    | Some old =>
        if status =? SGX_SUCCESS
        then Some (ms_get_public_key_t.ms_retval ms1)
        else Some old
    | None => None
    end in
  (status, retval1, ms_get_public_key_t.ms_ret_pk ms1, w1).

(** [sign_data]: the returned status, [*retval], [*ret_signature] and the
    world. *)
Definition sign_data (P : platform) (eid : Z) (retval : option Z)
    (data : list ascii) (data_size : Z)
    (ret_signature : sgx_ec256_signature_t) (ms0 : Z) (w : world)
  : Z * option Z * sgx_ec256_signature_t * world :=
  let ms := {| ms_sign_data_t.ms_retval := ms0;
               ms_sign_data_t.ms_data := data;
               ms_sign_data_t.ms_data_size := data_size;
               ms_sign_data_t.ms_ret_signature := ret_signature |} in
  let '(status, ms1, w1) := sgx_ecall P eid 1 ocall_table_Enclave ms w in
  let retval1 :=
    match retval with
    | Some old =>
        if status =? SGX_SUCCESS
        then Some (ms_sign_data_t.ms_retval ms1)
        else Some old
    | None => None
    end in
  (status, retval1, ms_sign_data_t.ms_ret_signature ms1, w1).

(** ** App.cpp: error reporting *)

Definition dquote : ascii := "034"%char.

(** A text followed by a newline. *)
Definition line (s : list ascii) : list ascii := s ++ [newline].

Record sgx_errlist_t : Type := {
  err : Z;
  msg : list ascii;
  sug : option (list ascii)   (* [None] for NULL *)
}.

Definition sgx_errlist (P : platform) : list sgx_errlist_t :=
  let code := sgx_status_value P in
  [ {| err := code SGX_ERROR_UNEXPECTED;
       msg := str "Unexpected error occurred."; sug := None |};
    {| err := code SGX_ERROR_INVALID_PARAMETER;
       msg := str "Invalid parameter."; sug := None |};
    {| err := code SGX_ERROR_OUT_OF_MEMORY;
       msg := str "Out of memory."; sug := None |};
    {| err := code SGX_ERROR_ENCLAVE_LOST;
       msg := str "Power transition occurred.";
       sug := Some (str "Please refer to the sample " ++ [dquote]
                    ++ str "PowerTransition" ++ [dquote] ++ str " for details.") |};
    {| err := code SGX_ERROR_INVALID_ENCLAVE;
       msg := str "Invalid enclave image."; sug := None |};
    {| err := code SGX_ERROR_INVALID_ENCLAVE_ID;
       msg := str "Invalid enclave identification."; sug := None |};
    {| err := code SGX_ERROR_INVALID_SIGNATURE;
       msg := str "Invalid enclave signature."; sug := None |};
    {| err := code SGX_ERROR_OUT_OF_EPC;
       msg := str "Out of EPC memory."; sug := None |};
    {| err := code SGX_ERROR_NO_DEVICE;
       msg := str "Invalid SGX device.";
       sug := Some (str "Please make sure SGX module is enabled in the BIOS, and install SGX driver afterwards.") |};
    {| err := code SGX_ERROR_MEMORY_MAP_CONFLICT;
       msg := str "Memory map conflicted."; sug := None |};
    {| err := code SGX_ERROR_INVALID_METADATA;
       msg := str "Invalid enclave metadata."; sug := None |};
    {| err := code SGX_ERROR_DEVICE_BUSY;
       msg := str "SGX device was busy."; sug := None |};
    {| err := code SGX_ERROR_INVALID_VERSION;
       msg := str "Enclave version was invalid."; sug := None |};
    {| err := code SGX_ERROR_INVALID_ATTRIBUTE;
       msg := str "Enclave was not authorized."; sug := None |};
    {| err := code SGX_ERROR_ENCLAVE_FILE_ACCESS;
       msg := str "Can't open enclave file."; sug := None |} ].

(** What the body of the loop prints for the entry that matches. *)
Definition report_entry (e : sgx_errlist_t) (w : world) : world :=
  let w1 := match sug e with
            | Some s => printf (line (str "Info: " ++ s)) w
            | None => w
            end in
  printf (line (str "Error: " ++ msg e)) w1.

(** The [for] loop of [print_error_message] over the entries from [idx] on:
    the value of [idx] when the loop is left, and the world. *)
Fixpoint errlist_loop (ret : Z) (entries : list sgx_errlist_t) (idx : nat) (w : world)
  : nat * world :=
  match entries with
  | [] => (idx, w)
  | e :: rest =>
      if ret =? err e then (idx, report_entry e w)   (* break *)
      else errlist_loop ret rest (S idx) w
  end.

Definition unknown_code_message (ret : Z) : list ascii :=
  line (str "Error code is 0x" ++ printf_X ret ++ str ". Please refer to the "
        ++ [dquote] ++ str "Intel SGX SDK Developer Reference" ++ [dquote]
        ++ str " for more details.").

Definition print_error_message (P : platform) (ret : Z) (w : world) : world :=
  let ttl := List.length (sgx_errlist P) in
  let (idx, w1) := errlist_loop ret (sgx_errlist P) O w in
  if Nat.eqb idx ttl then printf (unknown_code_message ret) w1 else w1.

(** ** App.cpp: enclave initialisation *)

(** The path composed at the head of [initialize_enclave].  [sizeof] of the
    file name literal counts its terminator.  The function reads the field
    [pw_dir] of what [getpwuid(getuid())] returns without looking whether
    an entry was returned at all; the embedding starts behind that line,
    from the field [w_home] of an entry that exists. *)
Definition token_path (P : platform) (w : world) : path :=
  let sizeof_name := Z.of_nat (List.length (TOKEN_FILENAME P)) + 1 in
  match w_home w with
  | Some home_dir =>
      if Z.of_nat (List.length home_dir) + 1 + sizeof_name + 1 <=? MAX_PATH P
      then home_dir ++ str "/" ++ TOKEN_FILENAME P
      else TOKEN_FILENAME P
  | None => TOKEN_FILENAME P
  end.

Definition warn_open (p : path) : list ascii :=
  line (str "Warning: Failed to create/open the launch token file "
        ++ [dquote] ++ p ++ [dquote] ++ str ".").

Definition warn_invalid (p : path) : list ascii :=
  line (str "Warning: Invalid launch token read from "
        ++ [dquote] ++ p ++ [dquote] ++ str ".").

Definition warn_save (p : path) : list ascii :=
  line (str "Warning: Failed to save launch token to "
        ++ [dquote] ++ p ++ [dquote] ++ str ".").

Definition zero_token (P : platform) : list ascii :=
  repeat NUL (sizeof_sgx_launch_token_t P).

(** The two [fopen] attempts: the stream (or NULL) and the world. *)
Definition open_token_file (P : platform) (w : world) : option FILE * world :=
  match open_read (token_path P w) w with
  | Some fp => (Some fp, w)
  | None =>
      match open_write (token_path P w) w with
      | (Some fp, w1) => (Some fp, w1)
      | (None, w1) => (None, printf (warn_open (token_path P w)) w1)
      end
  end.

(** Step 1 of [initialize_enclave], up to the call of [sgx_create_enclave]:
    the stream, the token handed to the call, and the world. *)
Definition load_launch_token (P : platform) (w : world)
  : option FILE * list ascii * world :=
  let size := sizeof_sgx_launch_token_t P in
  let token := zero_token P in                      (* token = {0} *)
  let (fp, w1) := open_token_file P w in
  match fp with
  | Some f =>
      let (read_num, token1) := fread token size f in
      if negb (Nat.eqb read_num O) && negb (Nat.eqb read_num size)
      then (fp, repeat NUL size, printf (warn_invalid (token_path P w)) w1)
      else (fp, token1, w1)
  | None => (fp, token, w1)
  end.

(** [initialize_enclave]: the return value and the world. *)
Definition initialize_enclave (P : platform) (w : world) : Z * world :=
  let size := sizeof_sgx_launch_token_t P in
  let '(fp, token, w1) := load_launch_token P w in
  let '(ret, token1, updated, eid) :=
    sgx_create_enclave P (ENCLAVE_FILENAME P) (SGX_DEBUG_FLAG P) token 0 w1 in
  let w2 := set_eid eid w1 in
  if negb (ret =? SGX_SUCCESS) then (-1, print_error_message P ret w2)
  else
    match fp with
    | None => (0, w2)
    | Some _ =>
        if updated =? 0 then (0, w2)
        else
          match open_write (token_path P w) w2 with       (* freopen *)
          | (None, w3) => (0, w3)
          | (Some f, w3) =>
              let (write_num, w4) := fwrite token1 size f w3 in
              if negb (Nat.eqb write_num size)
              then (0, printf (warn_save (token_path P w)) w4)
              else (0, w4)
          end
    end.

(** ** App.cpp: hex decoding *)

(** [malloc(n)]: a block of [n] cells with indeterminate contents [fresh]. *)
Definition malloc (fresh : nat -> ascii) (n : nat) : list ascii :=
  map fresh (seq 0 n).

(** The decoding loop of [hex2buf] over the cells of the block still to be
    visited; [pos] is the string from the current position on.  A cell whose
    [sscanf] stores nothing keeps its contents. *)
Fixpoint hex2buf_loop (pos : list ascii) (cells : list ascii) : list ascii :=
  match cells with
  | [] => []
  | cell :: rest =>
      match sscanf_2hhx pos with
      | Some b => b
      | None => cell
      end :: hex2buf_loop (skipn 2 pos) rest
  end.

(** [hex2buf]: the returned size and the block assigned to [*ret], [None]
    when nothing is allocated and [*ret] is not assigned.  [data_to_sign] is
    [None] for a null pointer. *)
Definition hex2buf (data_to_sign : option (list ascii)) (fresh : nat -> ascii)
  : result (Z * option (list ascii)) :=
  match data_to_sign with
  | None => Ok (0, None)
  | Some buf =>
      match c_str buf with
      | None => Fault Unterminated                       (* strlen *)
      | Some text =>
          let nchars_to_sign := to_uint32 (Z.of_nat (List.length text)) in
          if negb (nchars_to_sign mod 2 =? 0) then Ok (0, None)
          else
            let ret_size := nchars_to_sign / 2 in
            let block := malloc fresh (Z.to_nat ret_size) in
            Ok (ret_size, Some (hex2buf_loop text block))
      end
  end.

(** ** App.cpp: the entry point *)

(** What the uninitialised objects of [main] and of the proxies it calls
    hold, and what [malloc] hands out. *)
Record indeterminate : Type := {
  u_status : Z;
  u_pk : sgx_ec256_public_t;
  u_ms_retval : Z;
  u_client_data_json : nat -> ascii;
  u_data_to_sign : nat -> ascii;
  u_signature : sgx_ec256_signature_t;
  u_heap : nat -> ascii
}.

(** [for (i = size - 1; i >= 0; i--) printf(fmt, arr[i]);] *)
Fixpoint print_reversed {A : Type} (fmt : A -> list ascii) (arr : nat -> A)
    (size : nat) : list ascii :=
  match size with
  | O => []
  | S i => fmt (arr i) ++ print_reversed fmt arr i
  end.

Definition client_data_json_size : Z := 1024.
Definition data_to_sign_size : Z := 256.

(** Everything [main] prints between the two calls into the enclave, and
    the two reads: the buffers [client_data_json] and [data_to_sign] and the
    world. *)
Definition read_inputs (u : indeterminate) (w : world)
  : result (list ascii * list ascii * world) :=
  let client_data_json :=
    map (u_client_data_json u) (seq 0 (Z.to_nat client_data_json_size)) in
  let w := printf (line (str "Enter client JSON data:")) w in
  r1 <- fgets_nonewline client_data_json client_data_json_size (w_stdin w) ;;
  let w := set_stdin (snd r1) w in
  let w := printf [newline] w in
  let data_to_sign :=
    map (u_data_to_sign u) (seq 0 (Z.to_nat data_to_sign_size)) in
  let w := printf (line (str "Enter hex data to sign:")) w in
  r2 <- fgets_nonewline data_to_sign data_to_sign_size (w_stdin w) ;;
  let w := set_stdin (snd r2) w in
  let w := printf [newline] w in
  Ok (fst r1, fst r2, w).

Definition print_public_key (pk : sgx_ec256_public_t) (w : world) : world :=
  let w := printf (line (str "Public Key:")) w in
  let w := printf (str "gx: ") w in
  let w := printf (print_reversed printf_02x (gx pk) SGX_ECP256_KEY_SIZE) w in
  let w := printf [newline] w in
  let w := printf (str "gy: ") w in
  let w := printf (print_reversed printf_02x (gy pk) SGX_ECP256_KEY_SIZE) w in
  let w := printf [newline] w in
  printf [newline; newline] w.

Definition print_signature (signature : sgx_ec256_signature_t) (w : world) : world :=
  let w := printf (str "Resulting signature: ") w in
  let w := printf (print_reversed printf_08x (x signature) SGX_NISTP_ECP256_KEY_SIZE) w in
  let w := printf (str ",") w in
  let w := printf (print_reversed printf_08x (y signature) SGX_NISTP_ECP256_KEY_SIZE) w in
  printf [newline] w.

(** [main]: the exit code and the world, or the fault that stops it. *)
Definition main (P : platform) (u : indeterminate) (w : world) : result (Z * world) :=
  let (r, w) := initialize_enclave P w in
  if r <? 0 then
    let w := printf (line (str "Failed to initialize enclave!")) w in
    let w := printf (line (str "Enter a character before exit ...")) w in
    Ok (-1, set_stdin (getchar (w_stdin w)) w)
  else
    let '(_, retval, pk, w) :=
      get_public_key P (global_eid w) (Some (u_status u)) (u_pk u) (u_ms_retval u) w in
    let status := match retval with Some v => v | None => u_status u end in
    if negb (status =? 0) then
      Ok (-1, printf (line (str "App Error: " ++ printf_d status ++ str "!")) w)
    else
      let w := print_public_key pk w in
      inputs <- read_inputs u w ;;
      let '(client_data_json, data_to_sign, w) := inputs in
      decoded <- hex2buf (Some data_to_sign) (u_heap u) ;;
      let (nbytes_to_sign, ret) := decoded in
      if nbytes_to_sign =? 0 then
        Ok (-1, printf (line (str "Error receiving data to sign!")) w)
      else
        (* [hex2buf] assigns [bytes_to_sign] whenever it returns a size
           other than 0 *)
        let bytes_to_sign := match ret with Some b => b | None => [] end in
        let '(_, status, signature, w) :=
          webauthn_get_signature P (global_eid w) status
            bytes_to_sign nbytes_to_sign
            client_data_json client_data_json_size (u_signature u) w in
        if negb (status =? 0) then
          Ok (-1, printf (line (str "Signature Error: " ++ printf_d status ++ str "!")) w)
        else
          let w := print_signature signature w in
          Ok (0, sgx_destroy_enclave P (global_eid w) w).

(** * Vocabulary of the properties *)

(** A line of text: no NUL and no newline in it. *)
Definition text_line (l : list ascii) : bool :=
  forallb (fun c => negb (Ascii.eqb c NUL) && negb (Ascii.eqb c newline)) l.

(** A table serves a capability when some index dispatches to a bridge
    that calls it. *)
Definition serves (t : ocall_table_t) (c : capability) : Prop :=
  exists index p, ocall_dispatch t index = Some p /\ bridge_calls p = c.

(** The components of what a proxy returns. *)
Definition status_of {A B C : Type} (r : Z * A * B * C) : Z := fst (fst (fst r)).
Definition retval_of {A B C : Type} (r : A * option Z * B * C) : option Z := snd (fst (fst r)).
Definition output_of {A B C D : Type} (r : A * B * C * D) : C := snd (fst r).
Definition world_of {A B C : Type} (r : A * B * C * world) : world := snd r.

(** ** Example platforms

    A runtime whose every ECALL answers with the status [status], leaving
    [retval] in the return-value field of the block, and touches nothing
    else. *)
Definition const_ecall (status retval : Z) (pk : sgx_ec256_public_t)
    (eid : Z) (index : Z) (t : ocall_table_t)
  : ecall_block index -> world -> Z * ecall_block index * world :=
  match index =? 0 as b
    return block_layout b (index =? 1) -> world ->
           Z * block_layout b (index =? 1) * world
  with
  | true => fun _ w =>
      (status, {| ms_get_public_key_t.ms_retval := retval;
                  ms_get_public_key_t.ms_ret_pk := pk |}, w)
  | false =>
      match index =? 1 as b
        return block_layout false b -> world -> Z * block_layout false b * world
      with
      | true => fun ms w =>
          (status, {| ms_sign_data_t.ms_retval := retval;
                      ms_sign_data_t.ms_data := ms_sign_data_t.ms_data ms;
                      ms_sign_data_t.ms_data_size := ms_sign_data_t.ms_data_size ms;
                      ms_sign_data_t.ms_ret_signature :=
                        ms_sign_data_t.ms_ret_signature ms |}, w)
      | false => fun ms w => (status, ms, w)
      end
  end.

Definition zero_pk : sgx_ec256_public_t :=
  {| gx := fun _ => NUL; gy := fun _ => NUL |}.

Definition zero_signature : sgx_ec256_signature_t :=
  {| x := fun _ => 0; y := fun _ => 0 |}.

(** The key and the signature of the example enclave: cell [i] holds [i],
    respectively a limb that shows its index in its top digit. *)
Definition example_pk : sgx_ec256_public_t :=
  {| gx := fun i => byte_of_Z (Z.of_nat i);
     gy := fun i => byte_of_Z (255 - Z.of_nat i) |}.

Definition example_signature : sgx_ec256_signature_t :=
  {| x := fun i => Z.of_nat i * 268435456 + 1;
     y := fun i => Z.of_nat i * 268435456 + 2 |}.

(** The values [sgx_error.h] gives the error names in the SDK. *)
Definition sdk_status_value (e : sgx_error_name) : Z :=
  match e with
  | SGX_ERROR_UNEXPECTED => 1
  | SGX_ERROR_INVALID_PARAMETER => 2
  | SGX_ERROR_OUT_OF_MEMORY => 3
  | SGX_ERROR_ENCLAVE_LOST => 4
  | SGX_ERROR_INVALID_ENCLAVE => 8193
  | SGX_ERROR_INVALID_ENCLAVE_ID => 8194
  | SGX_ERROR_INVALID_SIGNATURE => 8195
  | SGX_ERROR_OUT_OF_EPC => 8197
  | SGX_ERROR_NO_DEVICE => 8198
  | SGX_ERROR_MEMORY_MAP_CONFLICT => 8199
  | SGX_ERROR_INVALID_METADATA => 8201
  | SGX_ERROR_DEVICE_BUSY => 8204
  | SGX_ERROR_INVALID_VERSION => 8205
  | SGX_ERROR_INVALID_ATTRIBUTE => 12290
  | SGX_ERROR_ENCLAVE_FILE_ACCESS => 8207
  end.

(** A platform on which enclave creation answers [create_status] and every
    call into the enclave answers [call_status] with return value [retval],
    the key [example_pk] and the signature [example_signature]. *)
Definition example_platform (create_status call_status retval : Z) : platform :=
  {| TOKEN_FILENAME := str "enclave.token";
     ENCLAVE_FILENAME := str "enclave.signed.so";
     SGX_DEBUG_FLAG := 1;
     MAX_PATH := 4096;
     sizeof_sgx_launch_token_t := 1024;
     sgx_status_value := sdk_status_value;
     sgx_create_enclave := fun _ _ token updated w => (create_status, token, updated, 2);
     sgx_ecall := const_ecall call_status retval example_pk;
     webauthn_get_signature := fun _ status _ _ _ _ _ w =>
       (call_status, if call_status =? SGX_SUCCESS then retval else status,
        example_signature, w);
     sgx_destroy_enclave := fun _ w => w |}.

(** A file system without any file, in which files cannot be created. *)
Definition no_file : file :=
  {| f_content := None; f_readable := false; f_writable := false; f_room := O;
     f_buffered := true |}.

Definition empty_world (stdin : list ascii) : world :=
  {| w_stdin := stdin; w_stdout := []; w_fs := fun _ => no_file;
     w_home := Some (str "/root"); global_eid := 0 |}.

Definition example_indeterminate : indeterminate :=
  {| u_status := 3735928559;
     u_pk := zero_pk;
     u_ms_retval := 3735928559;
     u_client_data_json := fun _ => "U"%char;
     u_data_to_sign := fun _ => "U"%char;
     u_signature := zero_signature;
     u_heap := fun _ => "U"%char |}.

(** A world whose only file is [f] at path [p]. *)
Definition world_with_file (p : path) (f : file) (stdin : list ascii) : world :=
  {| w_stdin := stdin; w_stdout := [];
     w_fs := fun q => if path_eqb q p then f else no_file;
     w_home := Some (str "/root"); global_eid := 0 |}.

Definition plain_file (content : list ascii) : file :=
  {| f_content := Some content; f_readable := true; f_writable := true;
     f_room := 4096; f_buffered := true |}.

(** The components of what [load_launch_token] returns. *)
Definition token_of (r : option FILE * list ascii * world) : list ascii := snd (fst r).

(** The first entry of the table for a status, as the loop finds it. *)
Definition lookup_error (P : platform) (ret : Z) : option sgx_errlist_t :=
  find (fun e => ret =? err e) (sgx_errlist P).

(** ** Hexadecimal text *)

(** The number that a text of hexadecimal digits denotes, most significant
    digit first, continuing from [acc]. *)
Fixpoint hex_number_from (acc : Z) (s : list ascii) : option Z :=
  match s with
  | [] => Some acc
  | c :: rest =>
      match hex_val c with
      | Some v => hex_number_from (16 * acc + v) rest
      | None => None
      end
  end.

Definition hex_number (s : list ascii) : option Z :=
  match s with
  | [] => None
  | _ => hex_number_from 0 s
  end.

Definition is_upper_hex_digit (c : ascii) : bool :=
  existsb (Ascii.eqb c) (str "0123456789ABCDEF").

(** [digits] writes the number [v] in upper-case hexadecimal with no more
    digits than it takes. *)
Definition upper_hex_numeral (digits : list ascii) (v : Z) : Prop :=
  hex_number digits = Some v
  /\ forallb is_upper_hex_digit digits = true
  /\ (digits = ["0"%char] \/ hd "0"%char digits <> "0"%char).

Definition is_hex_digit (c : ascii) : bool :=
  match hex_val c with
  | Some _ => true
  | None => false
  end.

Definition is_lower_hex_digit (c : ascii) : bool :=
  let n := Z.of_N (N_of_ascii c) in
  ((48 <=? n) && (n <=? 57)) || ((97 <=? n) && (n <=? 102)).

(** Re-encoding: every byte as the two characters [printf("%02x")] gives
    it. *)
Definition hex_encode (bytes : list ascii) : list ascii :=
  flat_map printf_02x bytes.

(** ** The run of [main] *)

(** The platform with another signing proxy. *)
Definition with_signer (P : platform)
    (f : Z -> Z -> list ascii -> Z -> list ascii -> Z -> sgx_ec256_signature_t ->
         world -> Z * Z * sgx_ec256_signature_t * world) : platform :=
  {| TOKEN_FILENAME := TOKEN_FILENAME P;
     ENCLAVE_FILENAME := ENCLAVE_FILENAME P;
     SGX_DEBUG_FLAG := SGX_DEBUG_FLAG P;
     MAX_PATH := MAX_PATH P;
     sizeof_sgx_launch_token_t := sizeof_sgx_launch_token_t P;
     sgx_status_value := sgx_status_value P;
     sgx_create_enclave := sgx_create_enclave P;
     sgx_ecall := sgx_ecall P;
     webauthn_get_signature := f;
     sgx_destroy_enclave := sgx_destroy_enclave P |}.

Definition ends_with (s suffix : list ascii) : Prop :=
  exists pre, s = pre ++ suffix.

(** The output ends with one of the error reports [main] makes before it
    reaches the signing call. *)
Definition error_printed (out : list ascii) : Prop :=
  ends_with out (line (str "Error receiving data to sign!"))
  \/ ends_with out (line (str "Failed to initialize enclave!")
                    ++ line (str "Enter a character before exit ..."))
  \/ exists status,
       ends_with out (line (str "App Error: " ++ printf_d status ++ str "!")).

(** Key retrieval does not read the console. *)
Definition key_retrieval_keeps_stdin (P : platform) : Prop :=
  forall eid ms w,
    w_stdin (snd (sgx_ecall P eid 0 ocall_table_Enclave ms w)) = w_stdin w.

(** The two lines of the specification's scenario. *)
Definition scenario_json : list ascii :=
  str "{" ++ [dquote] ++ str "origin" ++ [dquote] ++ str ":"
  ++ [dquote] ++ str "example" ++ [dquote] ++ str "}".

Definition scenario_stdin : list ascii :=
  scenario_json ++ newline :: str "0102030a" ++ [newline].

(** The cells of an array from the last to the first, each formatted. *)
Definition big_endian_hex {A : Type} (fmt : A -> list ascii) (arr : nat -> A)
    (size : nat) : list ascii :=
  flat_map fmt (rev (map arr (seq 0 size))).

Definition public_key_text (pk : sgx_ec256_public_t) : list ascii :=
  line (str "Public Key:")
  ++ str "gx: " ++ big_endian_hex printf_02x (gx pk) SGX_ECP256_KEY_SIZE ++ [newline]
  ++ str "gy: " ++ big_endian_hex printf_02x (gy pk) SGX_ECP256_KEY_SIZE ++ [newline]
  ++ [newline; newline].

Definition prompts_text : list ascii :=
  line (str "Enter client JSON data:") ++ [newline]
  ++ line (str "Enter hex data to sign:") ++ [newline].

Definition signature_text (signature : sgx_ec256_signature_t) : list ascii :=
  str "Resulting signature: "
  ++ big_endian_hex printf_08x (x signature) SGX_NISTP_ECP256_KEY_SIZE
  ++ str ","
  ++ big_endian_hex printf_08x (y signature) SGX_NISTP_ECP256_KEY_SIZE
  ++ [newline].

(** A field of [n] lower-case hexadecimal characters. *)
Definition hex_field (n : nat) (s : list ascii) : Prop :=
  List.length s = n /\ forallb is_lower_hex_digit s = true.

(** The output shows a key with two fields of 64 characters and then a
    signature with two fields of [sig_chars] characters and a comma between
    them. *)
Definition scenario_prints (sig_chars : nat) (out : list ascii) : Prop :=
  exists pre gxh gyh mid sxh syh,
    out = pre
          ++ line (str "Public Key:")
          ++ str "gx: " ++ gxh ++ [newline]
          ++ str "gy: " ++ gyh ++ [newline]
          ++ mid
          ++ str "Resulting signature: " ++ sxh ++ str "," ++ syh ++ [newline]
    /\ hex_field 64 gxh /\ hex_field 64 gyh
    /\ hex_field sig_chars sxh /\ hex_field sig_chars syh.

(** An enclave that works and keeps off the console: creation succeeds,
    key retrieval succeeds with return value 0 and the key [pk], signing
    succeeds with return value 0 and the signature [signer] computes from
    the data and the client data; the calls leave the console as it is. *)
Definition functioning_enclave (P : platform) (pk : sgx_ec256_public_t)
    (signer : list ascii -> Z -> list ascii -> Z -> sgx_ec256_signature_t) : Prop :=
  (forall name dbg token updated w,
     fst (fst (fst (sgx_create_enclave P name dbg token updated w))) = SGX_SUCCESS)
  /\ (forall eid ms w,
        let r := sgx_ecall P eid 0 ocall_table_Enclave ms w in
        fst (fst r) = SGX_SUCCESS
        /\ ms_get_public_key_t.ms_retval (snd (fst r)) = 0
        /\ ms_get_public_key_t.ms_ret_pk (snd (fst r)) = pk
        /\ w_stdin (snd r) = w_stdin w
        /\ w_stdout (snd r) = w_stdout w)
  /\ (forall eid status data size client client_size signature w,
        let r := webauthn_get_signature P eid status data size client client_size
                   signature w in
        snd (fst (fst r)) = 0
        /\ snd (fst r) = signer data size client client_size
        /\ w_stdout (snd r) = w_stdout w)
  /\ (forall eid w, w_stdout (sgx_destroy_enclave P eid w) = w_stdout w).

(** ** Further vocabulary *)

(** No NUL among the characters. *)
Definition nul_free (l : list ascii) : bool :=
  forallb (fun c => negb (Ascii.eqb c NUL)) l.

(** The buffer as [fgets] leaves it for [fgets_nonewline]; a call that
    stops with a fault leaves no buffer to go on with, the one given stands
    in for it. *)
Definition after_fgets (buf : list ascii) (n : Z) (stream : list ascii) : list ascii :=
  match fgets buf (to_int32 n) stream with
  | Ok r => snd (fst r)
  | Fault _ => buf
  end.

(** The lower-case form of a hexadecimal digit. *)
Definition to_lower_hex (c : ascii) : ascii :=
  let n := Z.of_N (N_of_ascii c) in
  if (65 <=? n) && (n <=? 70) then byte_of_Z (n + 32) else c.

(** A character with which no hexadecimal number can begin: not a digit,
    not white space, not a sign. *)
Definition is_junk (c : ascii) : bool :=
  negb (is_hex_digit c) && negb (isspace c)
  && negb (Ascii.eqb c "+"%char) && negb (Ascii.eqb c "-"%char).

(** What [sgx_create_enclave] answers when [initialize_enclave] calls it
    in the world [w]: the status, the token, the flag and the handle. *)
Definition creation_answer (P : platform) (w : world) : Z * list ascii * Z * Z :=
  sgx_create_enclave P (ENCLAVE_FILENAME P) (SGX_DEBUG_FLAG P)
    (token_of (load_launch_token P w)) 0 (snd (load_launch_token P w)).

(** Two files with the same permissions, room and buffering. *)
Definition same_flags (f g : file) : Prop :=
  f_readable f = f_readable g /\ f_writable f = f_writable g /\ f_room f = f_room g
  /\ f_buffered f = f_buffered g.

(** The example platform, except that creation answers success with a
    token of 1024 bytes [k] and reports it updated. *)
Definition token_updating_platform : platform :=
  {| TOKEN_FILENAME := str "enclave.token";
     ENCLAVE_FILENAME := str "enclave.signed.so";
     SGX_DEBUG_FLAG := 1;
     MAX_PATH := 4096;
     sizeof_sgx_launch_token_t := 1024;
     sgx_status_value := sdk_status_value;
     sgx_create_enclave := fun _ _ _ _ _ => (0, repeat "k"%char 1024, 1, 2);
     sgx_ecall := const_ecall 0 0 example_pk;
     webauthn_get_signature := fun _ status _ _ _ _ _ w => (0, 0, example_signature, w);
     sgx_destroy_enclave := fun _ w => w |}.

(** The platform with another [sgx_destroy_enclave]. *)
Definition with_destroy (P : platform) (d : Z -> world -> world) : platform :=
  {| TOKEN_FILENAME := TOKEN_FILENAME P;
     ENCLAVE_FILENAME := ENCLAVE_FILENAME P;
     SGX_DEBUG_FLAG := SGX_DEBUG_FLAG P;
     MAX_PATH := MAX_PATH P;
     sizeof_sgx_launch_token_t := sizeof_sgx_launch_token_t P;
     sgx_status_value := sgx_status_value P;
     sgx_create_enclave := sgx_create_enclave P;
     sgx_ecall := sgx_ecall P;
     webauthn_get_signature := webauthn_get_signature P;
     sgx_destroy_enclave := d |}.

(** The platform with another [sgx_ecall]. *)
Definition with_ecall (P : platform)
    (e : Z -> forall index : Z, ocall_table_t -> ecall_block index -> world ->
         Z * ecall_block index * world) : platform :=
  {| TOKEN_FILENAME := TOKEN_FILENAME P;
     ENCLAVE_FILENAME := ENCLAVE_FILENAME P;
     SGX_DEBUG_FLAG := SGX_DEBUG_FLAG P;
     MAX_PATH := MAX_PATH P;
     sizeof_sgx_launch_token_t := sizeof_sgx_launch_token_t P;
     sgx_status_value := sgx_status_value P;
     sgx_create_enclave := sgx_create_enclave P;
     sgx_ecall := e;
     webauthn_get_signature := webauthn_get_signature P;
     sgx_destroy_enclave := sgx_destroy_enclave P |}.

(** The call of [get_public_key] that [main] makes after initialisation. *)
Definition key_retrieval (P : platform) (u : indeterminate) (w : world)
  : Z * option Z * sgx_ec256_public_t * world :=
  get_public_key P (global_eid (snd (initialize_enclave P w)))
    (Some (u_status u)) (u_pk u) (u_ms_retval u) (snd (initialize_enclave P w)).

(** * Properties *)

(** ** Strings and buffers *)

Lemma text_line_cons c l :
  text_line (c :: l) = true ->
  Ascii.eqb c NUL = false /\ Ascii.eqb c newline = false /\ text_line l = true.
Proof.
  unfold text_line; simpl; intros H.
  apply andb_true_iff in H as [H1 H2].
  apply andb_true_iff in H1 as [Ha Hb].
  apply negb_true_iff in Ha, Hb. auto.
Qed.

Lemma c_str_text l rest :
  text_line l = true -> c_str (l ++ NUL :: rest) = Some l.
Proof.
  induction l as [|c l IH]; intros H; simpl.
  - reflexivity.
  - apply text_line_cons in H as (Hc & _ & Hl).
    rewrite Hc, (IH Hl). reflexivity.
Qed.

Lemma c_str_text_newline l rest :
  text_line l = true -> c_str (l ++ newline :: NUL :: rest) = Some (l ++ [newline]).
Proof.
  induction l as [|c l IH]; intros H; simpl.
  - reflexivity.
  - apply text_line_cons in H as (Hc & _ & Hl).
    rewrite Hc, (IH Hl). reflexivity.
Qed.

Lemma read_line_text l rest room :
  text_line l = true -> (List.length l < room)%nat ->
  read_line room (l ++ newline :: rest) = (l ++ [newline], rest).
Proof.
  revert room; induction l as [|c l IH]; intros room H Hlen;
    (destruct room; [simpl in Hlen; lia|]).
  - reflexivity.
  - apply text_line_cons in H as (_ & Hc & Hl).
    cbn [app read_line List.length] in *.
    rewrite Hc, (IH room Hl) by lia. reflexivity.
Qed.

Lemma load_middle l c rest :
  load (l ++ c :: rest) (Z.of_nat (List.length l)) = Ok c.
Proof.
  unfold load. rewrite length_app; simpl List.length.
  replace ((0 <=? Z.of_nat (List.length l)) &&
           (Z.of_nat (List.length l) <? Z.of_nat (List.length l + S (List.length rest))))
    with true by (symmetry; apply andb_true_iff; split; [apply Z.leb_le | apply Z.ltb_lt]; lia).
  rewrite Nat2Z.id, app_nth2, Nat.sub_diag by lia. reflexivity.
Qed.

Lemma store_middle l c rest d :
  store (l ++ c :: rest) (Z.of_nat (List.length l)) d = Ok (l ++ d :: rest).
Proof.
  unfold store. rewrite length_app; simpl List.length.
  replace ((0 <=? Z.of_nat (List.length l)) &&
           (Z.of_nat (List.length l) <? Z.of_nat (List.length l + S (List.length rest))))
    with true by (symmetry; apply andb_true_iff; split; [apply Z.leb_le | apply Z.ltb_lt]; lia).
  rewrite Nat2Z.id.
  rewrite firstn_app, Nat.sub_diag, firstn_all, firstn_O, app_nil_r.
  replace (S (List.length l)) with (List.length (l ++ [c])) by (rewrite length_app; simpl; lia).
  replace (l ++ c :: rest) with ((l ++ [c]) ++ rest) by (rewrite <- app_assoc; reflexivity).
  rewrite skipn_app, skipn_all, Nat.sub_diag. reflexivity.
Qed.

Lemma write_cells_fits new buf :
  (List.length new <= List.length buf)%nat ->
  write_cells new buf = Ok (overlay new buf).
Proof.
  intros H. unfold write_cells.
  destruct (Nat.leb_spec (List.length new) (List.length buf)); [reflexivity | lia].
Qed.

(** A line that fits the buffer is stored without its newline; the cell
    behind the terminator is cleared as well, the rest of the buffer keeps
    what it held. *)
Lemma fgets_nonewline_line buf n l rest :
  text_line l = true ->
  Z.of_nat (List.length l) + 2 <= n -> n <= 2147483647 ->
  n <= Z.of_nat (List.length buf) ->
  fgets_nonewline buf n (l ++ newline :: rest)
  = Ok (l ++ NUL :: NUL :: skipn (List.length l + 2) buf, rest).
Proof.
  intros Hl Hn Hmax Hroom. unfold fgets_nonewline, fgets.
  assert (Hint : to_int32 n = n).
  { unfold to_int32, two_32. rewrite Z.mod_small; lia. }
  rewrite Hint.
  destruct (n <=? 0) eqn:E0; [apply Z.leb_le in E0; lia|].
  destruct (n =? 1) eqn:E1; [apply Z.eqb_eq in E1; lia|].
  rewrite read_line_text by (auto; lia).
  destruct (l ++ [newline]) eqn:El; [destruct l; discriminate|]. rewrite <- El.
  rewrite write_cells_fits by (rewrite !length_app; cbn [List.length]; lia).
  cbn [bind].
  assert (Hbuf : overlay ((l ++ [newline]) ++ [NUL]) buf
                 = l ++ newline :: NUL :: skipn (List.length l + 2) buf).
  { unfold overlay. rewrite <- !app_assoc. simpl. do 3 f_equal.
    rewrite !length_app. simpl. f_equal. }
  rewrite Hbuf. unfold strlen. rewrite c_str_text_newline by assumption.
  cbn [bind]. rewrite length_app. simpl List.length.
  replace (to_uint32 (Z.of_nat (List.length l + 1) - 1)) with (Z.of_nat (List.length l)).
  2:{ unfold to_uint32, two_32. rewrite Z.mod_small; lia. }
  rewrite load_middle. cbn [bind]. rewrite Ascii.eqb_refl.
  rewrite store_middle. reflexivity.
Qed.

Lemma text_line_app l1 l2 :
  text_line (l1 ++ l2) = true <-> text_line l1 = true /\ text_line l2 = true.
Proof. unfold text_line. rewrite forallb_app. apply andb_true_iff. Qed.

Lemma text_line_firstn k l : text_line l = true -> text_line (firstn k l) = true.
Proof.
  intros H. rewrite <- (firstn_skipn k l) in H.
  apply text_line_app in H. tauto.
Qed.

Lemma read_line_long l tail : forall room,
  text_line l = true -> (room <= List.length l)%nat ->
  read_line room (l ++ tail) = (firstn room l, skipn room l ++ tail).
Proof.
  induction l as [|c l IH]; intros room H Hlen.
  - cbn [List.length] in Hlen. assert (room = O) by lia. subst room. reflexivity.
  - destruct room as [|room]; [reflexivity|].
    apply text_line_cons in H as (_ & Hc & Hl).
    cbn [app read_line firstn skipn List.length] in *.
    rewrite Hc, (IH room Hl) by lia. reflexivity.
Qed.

(** A line too long for the buffer: as much as fits is stored, nothing is
    trimmed, the rest stays on the stream. *)
Lemma fgets_nonewline_long buf n l tail :
  text_line l = true ->
  2 <= n <= 2147483647 -> n - 1 <= Z.of_nat (List.length l) ->
  n <= Z.of_nat (List.length buf) ->
  fgets_nonewline buf n (l ++ tail)
  = Ok (firstn (Z.to_nat (n - 1)) l ++ NUL :: skipn (Z.to_nat n) buf,
        skipn (Z.to_nat (n - 1)) l ++ tail).
Proof.
  intros Hl Hn Hlen Hroom. unfold fgets_nonewline, fgets.
  assert (Hint : to_int32 n = n).
  { unfold to_int32, two_32. rewrite Z.mod_small; lia. }
  rewrite Hint.
  destruct (n <=? 0) eqn:E0; [apply Z.leb_le in E0; lia|].
  destruct (n =? 1) eqn:E1; [apply Z.eqb_eq in E1; lia|].
  rewrite read_line_long by (auto; lia).
  set (k := Z.to_nat (n - 1)).
  assert (Hk : List.length (firstn k l) = k) by (apply firstn_length_le; lia).
  assert (Hne : firstn k l <> []).
  { intros Hnil. rewrite Hnil in Hk. cbn in Hk. lia. }
  destruct (exists_last Hne) as (front & c & Hsplit).
  assert (Htext : text_line (firstn k l) = true) by (apply text_line_firstn; exact Hl).
  destruct (firstn k l) as [|c0 l0] eqn:Ef; [contradiction Hne; reflexivity|].
  rewrite <- Ef in *. clear Ef c0 l0.
  rewrite write_cells_fits by (rewrite length_app, Hk; cbn [List.length]; lia).
  cbn [bind].
  assert (Hbuf : overlay (firstn k l ++ [NUL]) buf
                 = firstn k l ++ NUL :: skipn (Z.to_nat n) buf).
  { unfold overlay. rewrite <- app_assoc. cbn [app]. do 2 f_equal.
    rewrite length_app, Hk. cbn [List.length]. f_equal. lia. }
  rewrite Hbuf. unfold strlen. rewrite c_str_text by exact Htext.
  cbn [bind]. rewrite Hk.
  rewrite Hsplit in Hk, Htext |- *. rewrite length_app in Hk. cbn [List.length] in Hk.
  replace (to_uint32 (Z.of_nat k - 1)) with (Z.of_nat (List.length front)).
  2:{ unfold to_uint32, two_32. rewrite Z.mod_small; lia. }
  rewrite <- app_assoc. cbn [app]. rewrite load_middle. cbn [bind].
  apply text_line_app in Htext as [_ Hc].
  apply text_line_cons in Hc as (_ & Hc & _). rewrite Hc. reflexivity.
Qed.

(** Whatever the length of the line: the string left in the buffer is the
    line, cut to what the buffer holds. *)
Lemma fgets_nonewline_text buf n l rest :
  text_line l = true -> 2 <= n <= 2147483647 ->
  n <= Z.of_nat (List.length buf) ->
  exists buf1 rest1,
    fgets_nonewline buf n (l ++ newline :: rest) = Ok (buf1, rest1)
    /\ c_str buf1 = Some (firstn (Z.to_nat (n - 1)) l).
Proof.
  intros Hl Hn Hroom.
  destruct (Z_le_gt_dec (Z.of_nat (List.length l) + 2) n) as [Hfit | Hlong].
  - eexists _, _. split; [apply fgets_nonewline_line; [assumption | lia | lia | lia]|].
    rewrite firstn_all2 by lia. apply c_str_text. exact Hl.
  - eexists _, _. split; [apply fgets_nonewline_long; [assumption | lia | lia | lia]|].
    apply c_str_text. apply text_line_firstn. exact Hl.
Qed.

(** The scenario of the specification: the line hello, read into any
    buffer of 1024 cells, leaves the string hello in the buffer. *)
Lemma fgets_nonewline_hello (init : nat -> ascii) rest :
  exists buf,
    fgets_nonewline (map init (seq 0 1024)) 1024 (str "hello" ++ newline :: rest)
    = Ok (buf, rest)
    /\ c_str buf = Some (str "hello")
    /\ List.length buf = 1024%nat.
Proof.
  eexists. split.
  - apply fgets_nonewline_line; [reflexivity | simpl; lia | lia |].
    rewrite length_map, length_seq. lia.
  - split; [reflexivity|].
    rewrite length_app. cbn [List.length].
    rewrite length_skipn, length_map, length_seq. reflexivity.
Qed.

(** C1.  The trim check of [fgets_nonewline] underflows when the string in
    the buffer is empty.  At an immediate end of file [fgets] leaves a
    zero-filled buffer as it is, with a buffer of one byte it stores the
    empty string, and a line that begins with a NUL byte reads as the empty
    string: each time [strlen(str) - 1] wraps to 4294967295 and the cell at
    that index, outside the buffer, is read. *)
Theorem fgets_nonewline_empty_underflows :
  fgets_nonewline (repeat NUL 1024) 1024 [] = Fault (OutOfBounds 4294967295)
  /\ fgets_nonewline [NUL] 1 (str "hello" ++ [newline]) = Fault (OutOfBounds 4294967295)
  /\ fgets_nonewline (repeat "x"%char 1024) 1024 [NUL; newline]
     = Fault (OutOfBounds 4294967295).
Proof. repeat split; vm_compute; reflexivity. Qed.

(** ** The OCALL table *)

(** C2, as the specification words it, fails: no index of the table reaches
    the read-line capability [untrusted_get_user_input]; the table has three
    entries, and index 3 dispatches to nothing. *)
Lemma ocall_table_lacks_read_line :
  ~ serves ocall_table_Enclave Cap_read_line
  /\ nr_ocall ocall_table_Enclave = 3
  /\ List.length (table ocall_table_Enclave) = 3%nat
  /\ ocall_dispatch ocall_table_Enclave 3 = None.
Proof.
  split; [|repeat split].
  intros (index & p & _ & Hp). destruct p; discriminate Hp.
Qed.

Lemma ocall_dispatch_in_range index :
  0 <= index < 3 <-> exists p, ocall_dispatch ocall_table_Enclave index = Some p.
Proof.
  unfold ocall_dispatch. cbn [nr_ocall table ocall_table_Enclave]. split.
  - intros H.
    assert (E : index = 0 \/ index = 1 \/ index = 2) by lia.
    destruct E as [-> | [-> | ->]]; eexists; reflexivity.
  - intros [p Hp].
    destruct ((0 <=? index) && (index <? 3)) eqn:E; [|discriminate].
    apply andb_true_iff in E as [E1 E2].
    apply Z.leb_le in E1. apply Z.ltb_lt in E2. lia.
Qed.

(** C2, amended.  The OCALL table holds exactly three bridges at fixed
    indices: 0 prints a string, 1 saves the sealed state, 2 loads it.  An
    index dispatches, and then to exactly one bridge, precisely when it is
    0, 1 or 2; no two indices share a bridge; the capabilities served are
    all but read-line. *)
Theorem ocall_table_three_capabilities :
  ocall_dispatch ocall_table_Enclave 0 = Some Ptr_Enclave_untrusted_print_string
  /\ ocall_dispatch ocall_table_Enclave 1 = Some Ptr_Enclave_untrusted_save_enclave_data
  /\ ocall_dispatch ocall_table_Enclave 2 = Some Ptr_Enclave_untrusted_load_enclave_data
  /\ (forall index,
        0 <= index < nr_ocall ocall_table_Enclave
        <-> exists p, ocall_dispatch ocall_table_Enclave index = Some p)
  /\ (forall i j p,
        ocall_dispatch ocall_table_Enclave i = Some p ->
        ocall_dispatch ocall_table_Enclave j = Some p -> i = j)
  /\ (forall c, serves ocall_table_Enclave c <-> c <> Cap_read_line).
Proof.
  split; [reflexivity|]. split; [reflexivity|]. split; [reflexivity|].
  split; [exact ocall_dispatch_in_range|]. split.
  - intros i j p Hi Hj.
    assert (Ri : 0 <= i < 3) by (apply ocall_dispatch_in_range; eauto).
    assert (Rj : 0 <= j < 3) by (apply ocall_dispatch_in_range; eauto).
    assert (Ei : i = 0 \/ i = 1 \/ i = 2) by lia.
    assert (Ej : j = 0 \/ j = 1 \/ j = 2) by lia.
    destruct Ei as [-> | [-> | ->]], Ej as [-> | [-> | ->]];
      try reflexivity; vm_compute in Hi, Hj; congruence.
  - intros c; split.
    + intros (index & p & _ & Hp) ->. destruct p; discriminate Hp.
    + intros Hc. destruct c.
      * exists 0, Ptr_Enclave_untrusted_print_string. split; reflexivity.
      * contradiction Hc; reflexivity.
      * exists 1, Ptr_Enclave_untrusted_save_enclave_data. split; reflexivity.
      * exists 2, Ptr_Enclave_untrusted_load_enclave_data. split; reflexivity.
Qed.

(** Each bridge calls the host function [bridge_calls] names and answers
    [SGX_SUCCESS], whatever that function returns. *)
Lemma bridges_call_the_capabilities w :
  (forall ms, call_bridge Ptr_Enclave_untrusted_print_string ms w
     = (w1 <- untrusted_print_string (ms_untrusted_print_string_t.ms_str ms) w ;;
        Ok (SGX_SUCCESS, ms, w1)))
  /\ (forall ms st ms1 w1,
        call_bridge Ptr_Enclave_untrusted_save_enclave_data ms w = Ok (st, ms1, w1) ->
        st = SGX_SUCCESS /\
        untrusted_save_enclave_data
          (ms_untrusted_save_enclave_data_t.ms_sealed_data ms)
          (ms_untrusted_save_enclave_data_t.ms_sealed_size ms) w
        = Ok (ms_untrusted_save_enclave_data_t.ms_retval ms1, w1))
  /\ (forall ms st ms1 w1,
        call_bridge Ptr_Enclave_untrusted_load_enclave_data ms w = Ok (st, ms1, w1) ->
        st = SGX_SUCCESS /\
        untrusted_load_enclave_data
          (ms_untrusted_load_enclave_data_t.ms_sealed_data ms)
          (ms_untrusted_load_enclave_data_t.ms_sealed_size ms) w
        = Ok (ms_untrusted_load_enclave_data_t.ms_retval ms1,
              ms_untrusted_load_enclave_data_t.ms_sealed_data ms1, w1)).
Proof.
  split; [reflexivity|]. split.
  - intros ms st ms1 w1. cbn [call_bridge]. unfold Enclave_untrusted_save_enclave_data.
    destruct (untrusted_save_enclave_data _ _ w) as [[r w2]|f]; cbn [bind]; [|discriminate].
    intros H; inversion H; subst. split; reflexivity.
  - intros ms st ms1 w1. cbn [call_bridge]. unfold Enclave_untrusted_load_enclave_data.
    destruct (untrusted_load_enclave_data _ _ w) as [[[r b] w2]|f]; cbn [bind]; [|discriminate].
    intros H; inversion H; subst. split; reflexivity.
Qed.

(** ** The ECALL proxies *)

(** C6.  [get_public_key] enters the enclave at index 0 and [sign_data] at
    index 1, each with the block built from its arguments and with the OCALL
    table; the status of [sgx_ecall] is returned as it is, the world and the
    result structure are those the call leaves, and on [SGX_SUCCESS] the
    return-value field of the block is what the caller's [retval] cell
    holds afterwards. *)
Theorem ecall_proxies_marshal (P : platform) (eid : Z) (retval : option Z)
    (ret_pk : sgx_ec256_public_t) (data : list ascii) (data_size : Z)
    (ret_signature : sgx_ec256_signature_t) (ms0 : Z) (w : world) :
  (let r := sgx_ecall P eid 0 ocall_table_Enclave
              {| ms_get_public_key_t.ms_retval := ms0;
                 ms_get_public_key_t.ms_ret_pk := ret_pk |} w in
   let c := get_public_key P eid retval ret_pk ms0 w in
   status_of c = fst (fst r)
   /\ world_of c = snd r
   /\ output_of c = ms_get_public_key_t.ms_ret_pk (snd (fst r))
   /\ (fst (fst r) = SGX_SUCCESS -> forall old, retval = Some old ->
       retval_of c = Some (ms_get_public_key_t.ms_retval (snd (fst r)))))
  /\
  (let r := sgx_ecall P eid 1 ocall_table_Enclave
              {| ms_sign_data_t.ms_retval := ms0;
                 ms_sign_data_t.ms_data := data;
                 ms_sign_data_t.ms_data_size := data_size;
                 ms_sign_data_t.ms_ret_signature := ret_signature |} w in
   let c := sign_data P eid retval data data_size ret_signature ms0 w in
   status_of c = fst (fst r)
   /\ world_of c = snd r
   /\ output_of c = ms_sign_data_t.ms_ret_signature (snd (fst r))
   /\ (fst (fst r) = SGX_SUCCESS -> forall old, retval = Some old ->
       retval_of c = Some (ms_sign_data_t.ms_retval (snd (fst r))))).
Proof.
  split; cbv zeta; unfold get_public_key, sign_data.
  - destruct (sgx_ecall P eid 0 _ _ w) as [[st ms1] w1].
    cbn. repeat split. intros -> old ->. reflexivity.
  - destruct (sgx_ecall P eid 1 _ _ w) as [[st ms1] w1].
    cbn. repeat split. intros -> old ->. reflexivity.
Qed.

(** The proxies use the runtime at their own index only: two platforms
    whose [sgx_ecall] agree there give the same call. *)
Lemma ecall_proxies_use_their_index (P Q : platform) :
  (forall eid t ms w, sgx_ecall P eid 0 t ms w = sgx_ecall Q eid 0 t ms w) ->
  (forall eid t ms w, sgx_ecall P eid 1 t ms w = sgx_ecall Q eid 1 t ms w) ->
  (forall eid retval ret_pk ms0 w,
     get_public_key P eid retval ret_pk ms0 w = get_public_key Q eid retval ret_pk ms0 w)
  /\ (forall eid retval data size sig ms0 w,
        sign_data P eid retval data size sig ms0 w
        = sign_data Q eid retval data size sig ms0 w).
Proof.
  intros H0 H1. split; intros; unfold get_public_key, sign_data.
  - rewrite H0. reflexivity.
  - rewrite H1. reflexivity.
Qed.

(** C10.  When [sgx_ecall] does not answer [SGX_SUCCESS], the caller's
    [retval] cell holds after the call what it held before (and a null
    [retval] stays null), for [get_public_key] and for [sign_data]. *)
Theorem ecall_failure_keeps_retval (P : platform) (eid : Z) (retval : option Z)
    (ret_pk : sgx_ec256_public_t) (data : list ascii) (data_size : Z)
    (ret_signature : sgx_ec256_signature_t) (ms0 : Z) (w : world) :
  (fst (fst (sgx_ecall P eid 0 ocall_table_Enclave
               {| ms_get_public_key_t.ms_retval := ms0;
                  ms_get_public_key_t.ms_ret_pk := ret_pk |} w)) <> SGX_SUCCESS ->
   retval_of (get_public_key P eid retval ret_pk ms0 w) = retval)
  /\
  (fst (fst (sgx_ecall P eid 1 ocall_table_Enclave
               {| ms_sign_data_t.ms_retval := ms0;
                  ms_sign_data_t.ms_data := data;
                  ms_sign_data_t.ms_data_size := data_size;
                  ms_sign_data_t.ms_ret_signature := ret_signature |} w))
   <> SGX_SUCCESS ->
   retval_of (sign_data P eid retval data data_size ret_signature ms0 w) = retval).
Proof.
  split; unfold get_public_key, sign_data.
  - destruct (sgx_ecall P eid 0 _ _ w) as [[st ms1] w1]. cbn.
    intros Hst. apply Z.eqb_neq in Hst. rewrite Hst. destruct retval; reflexivity.
  - destruct (sgx_ecall P eid 1 _ _ w) as [[st ms1] w1]. cbn.
    intros Hst. apply Z.eqb_neq in Hst. rewrite Hst. destruct retval; reflexivity.
Qed.

(** On the platform whose calls answer 1 with 0 in the block, a cell
    holding 42 still holds 42. *)
Lemma ecall_failure_keeps_retval_witness :
  retval_of (get_public_key (example_platform 0 1 0) 2 (Some 42) zero_pk 7
               (empty_world [])) = Some 42
  /\ retval_of (sign_data (example_platform 0 1 0) 2 (Some 42) [] 0 zero_signature 7
                  (empty_world [])) = Some 42.
Proof.
  split.
  - apply (proj1 (ecall_failure_keeps_retval (example_platform 0 1 0) 2 (Some 42)
                    zero_pk [] 0 zero_signature 7 (empty_world []))).
    vm_compute. discriminate.
  - apply (proj2 (ecall_failure_keeps_retval (example_platform 0 1 0) 2 (Some 42)
                    zero_pk [] 0 zero_signature 7 (empty_world []))).
    vm_compute. discriminate.
Defined.

(** On the platform whose calls succeed with 0 in the block, a cell holding
    42 holds 0 afterwards. *)
Lemma ecall_proxies_marshal_witness :
  retval_of (get_public_key (example_platform 0 0 0) 2 (Some 42) zero_pk 7
               (empty_world [])) = Some 0
  /\ retval_of (sign_data (example_platform 0 0 0) 2 (Some 42) [] 0 zero_signature 7
                  (empty_world [])) = Some 0.
Proof.
  pose proof (ecall_proxies_marshal (example_platform 0 0 0) 2 (Some 42)
                zero_pk [] 0 zero_signature 7 (empty_world [])) as [Hk Hs].
  cbv zeta in Hk, Hs.
  destruct Hk as (_ & _ & _ & Hk). destruct Hs as (_ & _ & _ & Hs).
  split.
  - exact (Hk eq_refl 42 eq_refl).
  - exact (Hs eq_refl 42 eq_refl).
Defined.

(** ** Error reporting *)

Lemma errlist_loop_find ret entries idx w :
  match find (fun e => ret =? err e) entries with
  | Some e =>
      exists k, (k < List.length entries)%nat /\
                errlist_loop ret entries idx w = ((idx + k)%nat, report_entry e w)
  | None => errlist_loop ret entries idx w = ((idx + List.length entries)%nat, w)
  end.
Proof.
  revert idx; induction entries as [|e rest IH]; intros idx; cbn [find errlist_loop List.length].
  - rewrite Nat.add_0_r. reflexivity.
  - destruct (ret =? err e).
    + exists O. split; [lia|]. rewrite Nat.add_0_r. reflexivity.
    + specialize (IH (S idx)).
      destruct (find (fun e0 => ret =? err e0) rest) as [e'|].
      * destruct IH as (k & Hk & ->). exists (S k). split; [lia|].
        f_equal. lia.
      * rewrite IH. f_equal. lia.
Qed.

Lemma find_some_iff_listed ret entries :
  (exists e, In e entries /\ err e = ret)
  <-> find (fun e => ret =? err e) entries <> None.
Proof.
  split.
  - intros (e & Hin & He) Hnone.
    apply (find_none _ _ Hnone) in Hin. cbv beta in Hin.
    rewrite He, Z.eqb_refl in Hin. discriminate.
  - destruct (find _ entries) as [e|] eqn:E; [|congruence].
    intros _. apply find_some in E as [Hin He].
    apply Z.eqb_eq in He. eauto.
Qed.

(** [print_error_message] touches nothing but the output. *)
Lemma print_error_message_frame (P : platform) (ret : Z) (w : world) :
  let w1 := print_error_message P ret w in
  w_stdin w1 = w_stdin w /\ w_fs w1 = w_fs w /\ w_home w1 = w_home w
  /\ global_eid w1 = global_eid w.
Proof.
  cbv zeta. unfold print_error_message.
  pose proof (errlist_loop_find ret (sgx_errlist P) O w) as H.
  destruct (find (fun e => ret =? err e) (sgx_errlist P)) as [e|].
  - destruct H as (k & Hk & ->). cbn [Nat.add].
    replace (Nat.eqb k (List.length (sgx_errlist P))) with false
      by (symmetry; apply Nat.eqb_neq; lia).
    unfold report_entry. destruct (sug e); repeat split.
  - rewrite H. cbn [Nat.add]. rewrite Nat.eqb_refl. repeat split.
Qed.

(** What [printf("%X")] writes denotes the number printed. *)
Lemma hex_number_from_app acc s c d :
  hex_val c = Some d ->
  hex_number_from acc (s ++ [c])
  = option_map (fun a => 16 * a + d) (hex_number_from acc s).
Proof.
  intros Hc. revert acc; induction s as [|c0 s IH]; intros acc; cbn [app hex_number_from].
  - rewrite Hc. reflexivity.
  - destruct (hex_val c0); [apply IH | reflexivity].
Qed.

Lemma hex_digit_upper d :
  0 <= d < 16 ->
  hex_val (hex_digit true d) = Some d /\ is_upper_hex_digit (hex_digit true d) = true.
Proof.
  intros H.
  assert (E : d = 0 \/ d = 1 \/ d = 2 \/ d = 3 \/ d = 4 \/ d = 5 \/ d = 6 \/ d = 7
              \/ d = 8 \/ d = 9 \/ d = 10 \/ d = 11 \/ d = 12 \/ d = 13 \/ d = 14
              \/ d = 15) by lia.
  repeat (destruct E as [-> | E]; [split; reflexivity|]).
  subst d. split; reflexivity.
Qed.

Lemma hex_fixed_number width : forall v acc,
  hex_number_from acc (hex_fixed true width v)
  = Some (acc * 16 ^ Z.of_nat width + v mod 16 ^ Z.of_nat width).
Proof.
  induction width as [|k IH]; intros v acc.
  - cbn [hex_fixed hex_number_from]. change (16 ^ Z.of_nat 0) with 1.
    rewrite Z.mod_1_r. f_equal. lia.
  - cbn [hex_fixed].
    destruct (hex_digit_upper (v mod 16)) as [Hd _];
      [apply Z.mod_pos_bound; lia|].
    rewrite (hex_number_from_app _ _ _ _ Hd), IH. cbn [option_map]. f_equal.
    rewrite Nat2Z.inj_succ, Z.pow_succ_r by lia.
    rewrite (Z.rem_mul_r v 16 (16 ^ Z.of_nat k)) by lia. lia.
Qed.

Lemma hex_fixed_upper width : forall v,
  forallb is_upper_hex_digit (hex_fixed true width v) = true.
Proof.
  induction width as [|k IH]; intros v; [reflexivity|].
  cbn [hex_fixed]. rewrite forallb_app, IH. cbn [forallb].
  destruct (hex_digit_upper (v mod 16)) as [_ Hu];
    [apply Z.mod_pos_bound; lia|].
  rewrite Hu. reflexivity.
Qed.

Lemma length_hex_fixed upper width : forall v,
  List.length (hex_fixed upper width v) = width.
Proof.
  induction width as [|k IH]; intros v; [reflexivity|].
  cbn [hex_fixed]. rewrite length_app, IH. cbn [List.length]. lia.
Qed.

Lemma strip_zeros_cons c c1 s :
  strip_zeros (c :: c1 :: s)
  = if Ascii.eqb c "0"%char then strip_zeros (c1 :: s) else c :: c1 :: s.
Proof. reflexivity. Qed.

Lemma strip_zeros_numeral s :
  s <> [] ->
  strip_zeros s <> []
  /\ hex_number_from 0 (strip_zeros s) = hex_number_from 0 s
  /\ (forallb is_upper_hex_digit s = true ->
      forallb is_upper_hex_digit (strip_zeros s) = true)
  /\ (hex_number_from 0 s <> None ->
      strip_zeros s = ["0"%char] \/ hd "0"%char (strip_zeros s) <> "0"%char).
Proof.
  induction s as [|c s IH]; intros Hne; [contradiction Hne; reflexivity|].
  destruct s as [|c1 s].
  - cbn [strip_zeros]. split; [discriminate|]. split; [reflexivity|].
    split; [auto|]. intros _.
    destruct (Ascii.eqb c "0"%char) eqn:E.
    + apply Ascii.eqb_eq in E. subst c. left. reflexivity.
    + apply Ascii.eqb_neq in E. right. exact E.
  - rewrite strip_zeros_cons. destruct (Ascii.eqb c "0"%char) eqn:E.
    + apply Ascii.eqb_eq in E. subst c.
      destruct IH as (H1 & H2 & H3 & H4); [discriminate|].
      split; [exact H1|]. split; [rewrite H2; reflexivity|]. split.
      * intros Hu. cbn [forallb] in Hu. apply andb_true_iff in Hu as [_ Hu].
        apply H3. exact Hu.
      * intros Hv. apply H4. exact Hv.
    + apply Ascii.eqb_neq in E.
      split; [discriminate|]. split; [reflexivity|]. split; [auto|].
      intros _. right. exact E.
Qed.

Lemma printf_X_numeral v : upper_hex_numeral (printf_X v) (v mod 4294967296).
Proof.
  unfold upper_hex_numeral, printf_X, to_uint32, two_32.
  set (u := v mod 4294967296).
  assert (Hu : 0 <= u < 4294967296) by (apply Z.mod_pos_bound; lia).
  assert (Hne : hex_fixed true 8 u <> []).
  { intros E. apply (f_equal (@List.length ascii)) in E.
    rewrite length_hex_fixed in E. discriminate E. }
  assert (Hv : hex_number_from 0 (hex_fixed true 8 u) = Some u).
  { rewrite hex_fixed_number. change (16 ^ Z.of_nat 8) with 4294967296.
    rewrite Z.mod_small by exact Hu. reflexivity. }
  destruct (strip_zeros_numeral (hex_fixed true 8 u) Hne) as (H1 & H2 & H3 & H4).
  split; [|split].
  - unfold hex_number.
    destruct (strip_zeros (hex_fixed true 8 u)) as [|c s] eqn:Es;
      [contradiction H1; reflexivity|].
    rewrite H2. exact Hv.
  - apply H3. apply hex_fixed_upper.
  - apply H4. rewrite Hv. discriminate.
Qed.

(** C7.  [print_error_message] returns for every status and changes
    nothing but the output, to which it appends: for a status listed in
    [sgx_errlist], the suggestion of its entry (when it has one) and then its
    message; for any other status, one line that gives the status as a
    32-bit number in upper-case hexadecimal behind the characters 0x, and
    points to the Intel SGX SDK Developer Reference. *)
Theorem print_error_message_reports (P : platform) (ret : Z) (w : world) :
  let w1 := print_error_message P ret w in
  (w_stdin w1 = w_stdin w /\ w_fs w1 = w_fs w /\ w_home w1 = w_home w
   /\ global_eid w1 = global_eid w)
  /\ ((exists e, In e (sgx_errlist P) /\ err e = ret) <-> lookup_error P ret <> None)
  /\ match lookup_error P ret with
     | Some e =>
         w_stdout w1
         = w_stdout w
           ++ match sug e with
              | Some s => line (str "Info: " ++ s)
              | None => []
              end
           ++ line (str "Error: " ++ msg e)
     | None =>
         exists digits,
           upper_hex_numeral digits (ret mod 4294967296)
           /\ w_stdout w1
              = w_stdout w
                ++ str "Error code is 0x" ++ digits
                ++ str ". Please refer to the " ++ ["034"%char]
                ++ str "Intel SGX SDK Developer Reference" ++ ["034"%char]
                ++ str " for more details." ++ [newline]
     end.
Proof.
  cbv zeta. unfold print_error_message, lookup_error.
  pose proof (errlist_loop_find ret (sgx_errlist P) O w) as H.
  pose proof (find_some_iff_listed ret (sgx_errlist P)) as Hin.
  destruct (find (fun e => ret =? err e) (sgx_errlist P)) as [e|].
  - destruct H as (k & Hk & ->). cbn [Nat.add].
    replace (Nat.eqb k (List.length (sgx_errlist P))) with false
      by (symmetry; apply Nat.eqb_neq; lia).
    split; [|split; [exact Hin|]].
    + pose proof (print_error_message_frame P ret w) as Hf. cbv zeta in Hf.
      unfold print_error_message in Hf.
      destruct (errlist_loop ret (sgx_errlist P) 0 w) as [i w2] eqn:El.
      unfold report_entry. destruct (sug e); repeat split.
    + unfold report_entry. destruct (sug e); cbn.
      * rewrite <- app_assoc. reflexivity.
      * reflexivity.
  - rewrite H. cbn [Nat.add]. rewrite Nat.eqb_refl.
    split; [repeat split|]. split; [exact Hin|].
    exists (printf_X ret). split; [apply printf_X_numeral|].
    cbn [printf w_stdout]. unfold unknown_code_message, line, dquote.
    rewrite <- !app_assoc. reflexivity.
Qed.

(** When the SDK gives the listed names different values, every entry of
    the table is the one found for its own status. *)
Lemma listed_status_finds_own_entry (entries : list sgx_errlist_t) (e : sgx_errlist_t) :
  NoDup (map err entries) -> In e entries ->
  find (fun e0 => err e =? err e0) entries = Some e.
Proof.
  induction entries as [|e1 rest IH]; intros Hnd Hin; [contradiction Hin|].
  cbn [map] in Hnd. inversion Hnd as [|? ? Hnotin Hrest]; subst.
  cbn [find]. destruct Hin as [-> | Hin].
  - rewrite Z.eqb_refl. reflexivity.
  - destruct (err e =? err e1) eqn:E.
    + apply Z.eqb_eq in E. contradiction Hnotin. rewrite <- E.
      apply in_map. exact Hin.
    + apply IH; assumption.
Qed.

Example sdk_values_differ :
  NoDup (map err (sgx_errlist (example_platform 0 0 0))).
Proof.
  cbn [map sgx_errlist err example_platform sgx_status_value sdk_status_value].
  repeat (apply NoDup_cons; [cbn [In]; intuition discriminate|]).
  apply NoDup_nil.
Qed.

(** With the values of the SDK: a listed status with a suggestion, one
    without, and a status that is not listed. *)
Example print_error_message_examples :
  let P := example_platform 0 0 0 in
  w_stdout (print_error_message P 8198 (empty_world []))
  = line (str "Info: Please make sure SGX module is enabled in the BIOS, and install SGX driver afterwards.")
    ++ line (str "Error: Invalid SGX device.")
  /\ w_stdout (print_error_message P 2 (empty_world []))
     = line (str "Error: Invalid parameter.")
  /\ w_stdout (print_error_message P 8196 (empty_world []))
     = line (str "Error code is 0x2004. Please refer to the " ++ [dquote]
             ++ str "Intel SGX SDK Developer Reference" ++ [dquote]
             ++ str " for more details.").
Proof. repeat split; vm_compute; reflexivity. Qed.

(** ** Sealed-state persistence *)

(** C8.  With a buffer that holds the requested number of bytes,
    [untrusted_save_enclave_data] returns 1 when the file cannot be opened
    for writing and 0 otherwise, [untrusted_load_enclave_data] returns 1
    when it cannot be opened for reading and 0 otherwise; a file shorter
    than the request still gives 0, with only the bytes it has stored into
    the buffer. *)
Theorem sealed_state_return_codes (sealed_data : list ascii) (sealed_size : Z)
    (w : world) :
  sealed_size <= Z.of_nat (List.length sealed_data) ->
  (exists r w1,
     untrusted_save_enclave_data sealed_data sealed_size w = Ok (r, w1)
     /\ (r = 0 \/ r = 1)
     /\ (r <> 0 <-> fst (open_write ENCLAVE_DATA_FILE w) = None))
  /\
  (exists r buf w1,
     untrusted_load_enclave_data sealed_data sealed_size w = Ok (r, buf, w1)
     /\ (r = 0 \/ r = 1)
     /\ (r <> 0 <-> open_read ENCLAVE_DATA_FILE w = None)
     /\ (forall c, open_read ENCLAVE_DATA_FILE w = Some (Reading c) ->
         r = 0 /\ buf = overlay (firstn (Z.to_nat sealed_size) c) sealed_data)).
Proof.
  intros Hsize. split.
  - unfold untrusted_save_enclave_data.
    destruct (open_write ENCLAVE_DATA_FILE w) as [[fp|] w1] eqn:E.
    + replace (Z.of_nat (List.length sealed_data) <? sealed_size) with false
        by (symmetry; apply Z.ltb_ge; lia).
      eexists _, _. split; [reflexivity|]. cbn. split; [auto|].
      split; [congruence | discriminate].
    + eexists _, _. split; [reflexivity|]. cbn. split; [auto|].
      split; [reflexivity | discriminate].
  - unfold untrusted_load_enclave_data.
    destruct (open_read ENCLAVE_DATA_FILE w) as [fp|] eqn:E.
    + assert (Hfp : exists c, fp = Reading c).
      { unfold open_read in E.
        destruct (f_content (w_fs w ENCLAVE_DATA_FILE)); [|discriminate].
        destruct (f_readable (w_fs w ENCLAVE_DATA_FILE)); [|discriminate].
        inversion E. eauto. }
      destruct Hfp as [c ->]. cbn [fread].
      replace (List.length sealed_data
               <? Nat.min (Z.to_nat sealed_size) (List.length c))%nat
        with false by (symmetry; apply Nat.ltb_ge; lia).
      eexists _, _, _. split; [reflexivity|]. split; [auto|].
      split; [split; [congruence | discriminate]|].
      intros c' Hc'. inversion Hc'. subst. split; reflexivity.
    + eexists _, _, _. split; [reflexivity|]. split; [auto|].
      split; [split; [reflexivity | discriminate]|]. discriminate.
Qed.

(** A file of two bytes and a request for four: both functions return 0,
    and the load leaves the last two cells of the buffer as they were. *)
Lemma sealed_state_return_codes_witness :
  let w := world_with_file ENCLAVE_DATA_FILE (plain_file (str "ab")) [] in
  (exists r w1,
     untrusted_save_enclave_data (str "wxyz") 4 w = Ok (r, w1)
     /\ (r = 0 \/ r = 1)
     /\ (r <> 0 <-> fst (open_write ENCLAVE_DATA_FILE w) = None))
  /\
  (exists r buf w1,
     untrusted_load_enclave_data (str "wxyz") 4 w = Ok (r, buf, w1)
     /\ (r = 0 \/ r = 1)
     /\ (r <> 0 <-> open_read ENCLAVE_DATA_FILE w = None)
     /\ (forall c, open_read ENCLAVE_DATA_FILE w = Some (Reading c) ->
         r = 0 /\ buf = overlay (firstn (Z.to_nat 4) c) (str "wxyz"))).
Proof.
  cbv zeta.
  apply (sealed_state_return_codes (str "wxyz") 4
           (world_with_file ENCLAVE_DATA_FILE (plain_file (str "ab")) [])).
  vm_compute. discriminate.
Defined.

Example sealed_state_short_read :
  let w := world_with_file ENCLAVE_DATA_FILE (plain_file (str "ab")) [] in
  untrusted_load_enclave_data (str "wxyz") 4 w = Ok (0, str "abyz", w)
  /\ untrusted_load_enclave_data (str "wxyz") 4 (empty_world [])
     = Ok (1, str "wxyz", empty_world [])
  /\ (exists w1, untrusted_save_enclave_data (str "wxyz") 3 w = Ok (0, w1)
                 /\ f_content (w_fs w1 ENCLAVE_DATA_FILE) = Some (str "wxy"))
  /\ untrusted_save_enclave_data (str "wxyz") 3 (empty_world [])
     = Ok (1, empty_world []).
Proof.
  cbv zeta. split; [reflexivity|]. split; [reflexivity|].
  split; [|reflexivity]. eexists. split; reflexivity.
Qed.

(** ** The launch token *)

Lemma open_read_reading p w fp :
  open_read p w = Some fp -> exists c, fp = Reading c /\ f_content (w_fs w p) = Some c.
Proof.
  unfold open_read. destruct (f_content (w_fs w p)) as [c|]; [|discriminate].
  destruct (f_readable (w_fs w p)); [|discriminate].
  intros H; inversion H. eauto.
Qed.

Lemma overlay_nil buf : overlay [] buf = buf.
Proof. reflexivity. Qed.

(** C5, as the specification words it, fails on a token file that exists
    and is empty: it holds fewer bytes than the token, the token handed on
    is all zero, and nothing is printed, whereas a file of one byte has the
    warning printed. *)
Lemma empty_token_file_no_warning :
  let P := example_platform 0 0 0 in
  let p := str "/root/enclave.token" in
  let w := world_with_file p (plain_file []) [] in
  let w' := world_with_file p (plain_file (str "x")) [] in
  token_path P w = p
  /\ f_content (w_fs w p) = Some [] /\ f_readable (w_fs w p) = true
  /\ (List.length (@nil ascii) < sizeof_sgx_launch_token_t P)%nat
  /\ token_of (load_launch_token P w) = repeat zero 1024
  /\ w_stdout (snd (load_launch_token P w)) = []
  /\ w_stdout (snd (load_launch_token P w'))
     = str "Warning: Invalid launch token read from " ++ ["034"%char]
         ++ str "/root/enclave.token" ++ ["034"%char] ++ str "." ++ [newline].
Proof. cbv zeta. repeat split; vm_compute; lia. Qed.

Lemma open_read_none p w :
  f_content (w_fs w p) = None \/ f_readable (w_fs w p) = false ->
  open_read p w = None.
Proof.
  unfold open_read. intros [H | H]; rewrite H; [reflexivity|].
  destruct (f_content (w_fs w p)); reflexivity.
Qed.

Lemma open_read_some p w c :
  f_content (w_fs w p) = Some c -> f_readable (w_fs w p) = true ->
  open_read p w = Some (Reading c).
Proof. unfold open_read. intros -> ->. reflexivity. Qed.

(** C5, amended.  The path of the token file is composed from the home
    directory of the password entry.  The token [initialize_enclave] hands
    to [sgx_create_enclave] always has the size of a token, and it is all
    zero when the file is absent, when it cannot be read, and when it holds
    fewer bytes than a token.  The warning about an invalid token is
    printed when the file is read and holds at least one byte and fewer
    than a token; for an empty file nothing is printed.  A file that is
    absent or cannot be read is created if that is possible, silently, and
    otherwise costs the warning that the file could not be opened.  (A file
    that holds enough bytes yields its leading bytes.) *)
Theorem launch_token_zero_unless_complete (P : platform) (w : world) :
  let size := sizeof_sgx_launch_token_t P in
  let p := token_path P w in
  let r := load_launch_token P w in
  let quoted_path := ["034"%char] ++ p ++ ["034"%char] ++ str "." ++ [newline] in
  List.length (token_of r) = size
  /\ (f_content (w_fs w p) = None \/ f_readable (w_fs w p) = false ->
      token_of r = repeat zero size
      /\ w_stdout (snd r)
         = w_stdout w
           ++ (if f_writable (w_fs w p) then []
               else str "Warning: Failed to create/open the launch token file "
                      ++ quoted_path))
  /\ (forall c,
        f_content (w_fs w p) = Some c -> f_readable (w_fs w p) = true ->
        ((List.length c < size)%nat ->
         token_of r = repeat zero size
         /\ (c <> [] ->
             w_stdout (snd r)
             = w_stdout w ++ str "Warning: Invalid launch token read from "
                 ++ quoted_path)
         /\ (c = [] -> w_stdout (snd r) = w_stdout w))
        /\ ((size <= List.length c)%nat ->
            token_of r = firstn size c /\ w_stdout (snd r) = w_stdout w)).
Proof.
  cbv zeta. unfold load_launch_token, token_of.
  assert (Hz : List.length (zero_token P) = sizeof_sgx_launch_token_t P)
    by apply repeat_length.
  split; [|split].
  - unfold open_token_file.
    destruct (open_read (token_path P w) w) as [fp|] eqn:Er.
    + apply open_read_reading in Er as (c & -> & _). cbn [fread].
      destruct (negb _ && negb _); cbn [fst snd]; [apply repeat_length|].
      unfold overlay. rewrite length_app, length_skipn, length_firstn, Hz. lia.
    + unfold open_write. destruct (f_writable (w_fs w (token_path P w))).
      * cbn [fread]. rewrite Nat.eqb_refl. cbn [negb andb fst snd]. exact Hz.
      * cbn [fst snd]. exact Hz.
  - intros Hno. unfold open_token_file.
    rewrite (open_read_none _ _ Hno). unfold open_write.
    destruct (f_writable (w_fs w (token_path P w))).
    + cbn [fread]. rewrite Nat.eqb_refl. cbn [negb andb fst snd].
      split; [reflexivity|].
      cbn [put_content set_fs w_stdout]. rewrite app_nil_r. reflexivity.
    + cbn [fst snd printf w_stdout]. split; [reflexivity|].
      unfold warn_open, line, dquote. rewrite <- !app_assoc. reflexivity.
  - intros c Hc Hr. unfold open_token_file.
    rewrite (open_read_some _ _ _ Hc Hr). cbn [fread].
    destruct (negb (Nat.eqb (Nat.min (sizeof_sgx_launch_token_t P) (List.length c)) 0)
              && negb (Nat.eqb (Nat.min (sizeof_sgx_launch_token_t P) (List.length c))
                               (sizeof_sgx_launch_token_t P))) eqn:E; cbn [fst snd].
    + apply andb_true_iff in E as [E1 E2].
      apply negb_true_iff in E1, E2. apply Nat.eqb_neq in E1, E2.
      split.
      * intros Hlt. split; [reflexivity|]. split.
        -- intros _. cbn [printf w_stdout].
           unfold warn_invalid, line, dquote. rewrite <- !app_assoc. reflexivity.
        -- intros ->. cbn in E1. lia.
      * intros Hge. lia.
    + apply andb_false_iff in E.
      split.
      * intros Hlt.
        assert (Hnil : c = []).
        { destruct E as [E|E]; apply negb_false_iff, Nat.eqb_eq in E; [|lia].
          destruct c; [reflexivity|]. cbn [List.length] in *. lia. }
        subst c. rewrite firstn_nil, overlay_nil.
        split; [reflexivity|]. split; [congruence | reflexivity].
      * intros Hge. split; [|reflexivity].
        unfold overlay. rewrite length_firstn, Nat.min_l by lia.
        rewrite skipn_all2 by lia. apply app_nil_r.
Qed.

(** [initialize_enclave] calls [sgx_create_enclave] with that token: two
    platforms that differ only in what creation answers for other tokens
    behave alike. *)
Lemma initialize_enclave_uses_loaded_token (P : platform) (w : world) :
  let r := load_launch_token P w in
  let c := sgx_create_enclave P (ENCLAVE_FILENAME P) (SGX_DEBUG_FLAG P)
             (token_of r) 0 (snd r) in
  fst (fst (fst c)) <> SGX_SUCCESS ->
  initialize_enclave P w
  = (-1, print_error_message P (fst (fst (fst c))) (set_eid (snd c) (snd r))).
Proof.
  cbv zeta. unfold initialize_enclave, token_of.
  destruct (load_launch_token P w) as [[fp token] w1]. cbn [fst snd].
  destruct (sgx_create_enclave P _ _ token 0 w1) as [[[ret token1] updated] eid].
  cbn [fst snd]. intros H. apply Z.eqb_neq in H. rewrite H. reflexivity.
Qed.

(** Three token files of the example platform: one byte, none at all, and
    a complete token. *)
Example launch_token_examples :
  let P := example_platform 0 0 0 in
  let p := str "/root/enclave.token" in
  (let w := world_with_file p (plain_file (str "x")) [] in
   token_of (load_launch_token P w) = repeat zero 1024
   /\ w_stdout (snd (load_launch_token P w))
      = str "Warning: Invalid launch token read from " ++ ["034"%char]
          ++ str "/root/enclave.token" ++ ["034"%char] ++ str "." ++ [newline])
  /\ (let w := empty_world [] in
      token_of (load_launch_token P w) = repeat zero 1024
      /\ w_stdout (snd (load_launch_token P w))
         = str "Warning: Failed to create/open the launch token file "
             ++ ["034"%char] ++ str "/root/enclave.token" ++ ["034"%char]
             ++ str "." ++ [newline])
  /\ (let w := world_with_file p (plain_file (repeat "k"%char 1024)) [] in
      token_of (load_launch_token P w) = repeat "k"%char 1024
      /\ w_stdout (snd (load_launch_token P w)) = []).
Proof. cbv zeta. repeat split; vm_compute; reflexivity. Qed.

(** ** Hex decoding *)

Lemma lower_hex_digit_cases c :
  is_lower_hex_digit c = true -> In c (str "0123456789abcdef").
Proof.
  destruct c as [[] [] [] [] [] [] [] []]; intros H;
    solve [discriminate H | vm_compute; tauto].
Qed.

(** Two lower-case digits are scanned as one byte, whatever follows them,
    and printing the byte gives the two digits back. *)
Lemma scan_print_pair c1 c2 rest :
  is_lower_hex_digit c1 = true -> is_lower_hex_digit c2 = true ->
  exists b, sscanf_2hhx (c1 :: c2 :: rest) = Some b /\ printf_02x b = [c1; c2].
Proof.
  intros H1 H2.
  apply lower_hex_digit_cases in H1. apply lower_hex_digit_cases in H2.
  cbn [str list_ascii_of_string In] in H1, H2.
  repeat (destruct H1 as [<- | H1]; [| ]);
    try contradiction;
    (repeat (destruct H2 as [<- | H2]; [| ]); try contradiction;
     eexists; split; reflexivity).
Qed.

Lemma forallb_cons2 (f : ascii -> bool) c1 c2 l :
  forallb f (c1 :: c2 :: l) = true -> f c1 = true /\ f c2 = true /\ forallb f l = true.
Proof.
  cbn [forallb]. intros H.
  apply andb_true_iff in H as [H1 H]. apply andb_true_iff in H as [H2 H]. auto.
Qed.

(** The loop over a block of [k] cells and a text of [2 * k] lower-case
    digits: re-encoding what it leaves in the block gives the text. *)
Lemma hex2buf_loop_roundtrip cells : forall text,
  List.length text = (2 * List.length cells)%nat ->
  forallb is_lower_hex_digit text = true ->
  hex_encode (hex2buf_loop text cells) = text.
Proof.
  induction cells as [|cell cells IH]; intros text Hlen Hhex.
  - destruct text; [reflexivity | discriminate Hlen].
  - destruct text as [|c1 [|c2 text]]; cbn [List.length] in Hlen; try lia.
    apply forallb_cons2 in Hhex as (H1 & H2 & Hrest).
    destruct (scan_print_pair c1 c2 text H1 H2) as (b & Hscan & Hprint).
    cbn [hex2buf_loop]. rewrite Hscan.
    unfold hex_encode in *. cbn [flat_map skipn].
    rewrite Hprint, IH by (auto; lia). reflexivity.
Qed.

Lemma length_malloc fresh n : List.length (malloc fresh n) = n.
Proof. unfold malloc. rewrite length_map. apply length_seq. Qed.

Lemma length_hex2buf_loop cells : forall pos,
  List.length (hex2buf_loop pos cells) = List.length cells.
Proof.
  induction cells as [|c cells IH]; intros pos; cbn [hex2buf_loop List.length];
    [reflexivity | rewrite IH; reflexivity].
Qed.

(** C3, as the specification words it, fails on upper-case digits: the
    string AB is a hex string of even length, it decodes to the one byte
    0xab, and that byte re-encodes as ab. *)
Lemma hex2buf_upper_case_not_reproduced :
  let text := str "AB" in
  forallb is_hex_digit text = true
  /\ Nat.even (List.length text) = true
  /\ hex2buf (Some (text ++ [NUL])) (fun _ => NUL) = Ok (1, Some [byte_of_Z 171])
  /\ hex_encode [byte_of_Z 171] = str "ab"
  /\ hex_encode [byte_of_Z 171] <> text.
Proof.
  cbv zeta. split; [reflexivity|]. split; [reflexivity|]. split; [reflexivity|].
  split; [reflexivity|]. vm_compute. discriminate.
Qed.

(** C3, amended.  For every string of lower-case hex digits of even length
    below 2^32, [hex2buf] allocates half as many bytes as the string has
    characters, and re-encoding the bytes with two lower-case digits each
    gives the string back. *)
Theorem hex2buf_roundtrip_lower_case (buf text : list ascii) (fresh : nat -> ascii) :
  c_str buf = Some text ->
  forallb is_lower_hex_digit text = true ->
  Nat.even (List.length text) = true ->
  Z.of_nat (List.length text) < two_32 ->
  exists bytes,
    hex2buf (Some buf) fresh = Ok (Z.of_nat (List.length text) / 2, Some bytes)
    /\ Z.of_nat (List.length bytes) = Z.of_nat (List.length text) / 2
    /\ hex_encode bytes = text.
Proof.
  intros Hstr Hhex Heven Hlen.
  apply Nat.even_spec in Heven as [k Hk].
  assert (Hdiv : Z.of_nat (List.length text) / 2 = Z.of_nat k).
  { rewrite Hk, Nat2Z.inj_mul, Z.mul_comm. apply Z.div_mul. discriminate. }
  unfold hex2buf. rewrite Hstr.
  assert (Hu : to_uint32 (Z.of_nat (List.length text)) = Z.of_nat (List.length text)).
  { unfold to_uint32. apply Z.mod_small. lia. }
  rewrite Hu.
  replace (Z.of_nat (List.length text) mod 2 =? 0) with true.
  2:{ symmetry. apply Z.eqb_eq. rewrite Hk, Nat2Z.inj_mul, Z.mul_comm.
      apply Z.mod_mul. discriminate. }
  cbn [negb]. rewrite Hdiv, Nat2Z.id.
  eexists. split; [reflexivity|]. split.
  - rewrite length_hex2buf_loop, length_malloc. reflexivity.
  - apply hex2buf_loop_roundtrip; [rewrite length_malloc; exact Hk | exact Hhex].
Qed.

(** The input of the specification's scenario. *)
Lemma hex2buf_roundtrip_lower_case_witness :
  exists bytes,
    hex2buf (Some (str "0102030a" ++ [NUL])) (fun _ => "U"%char)
    = Ok (Z.of_nat (List.length (str "0102030a")) / 2, Some bytes)
    /\ Z.of_nat (List.length bytes) = Z.of_nat (List.length (str "0102030a")) / 2
    /\ hex_encode bytes = str "0102030a".
Proof.
  apply (hex2buf_roundtrip_lower_case (str "0102030a" ++ [NUL]) (str "0102030a")
           (fun _ => "U"%char)).
  - reflexivity.
  - reflexivity.
  - reflexivity.
  - vm_compute. reflexivity.
Defined.

Example hex2buf_examples :
  hex2buf (Some (str "0102030a" ++ [NUL])) (fun _ => "U"%char)
  = Ok (4, Some [byte_of_Z 1; byte_of_Z 2; byte_of_Z 3; byte_of_Z 10])
  /\ hex2buf (Some (str "zz" ++ [NUL])) (fun _ => "U"%char) = Ok (1, Some ["U"%char])
  /\ hex2buf (Some [NUL]) (fun _ => "U"%char) = Ok (0, Some [])
  /\ hex2buf (Some (str "abc" ++ [NUL])) (fun _ => "U"%char) = Ok (0, None)
  /\ hex2buf None (fun _ => "U"%char) = Ok (0, None).
Proof. repeat split. Qed.

Lemma text_line_repeat c n :
  Ascii.eqb c NUL = false -> Ascii.eqb c newline = false ->
  text_line (repeat c n) = true.
Proof.
  intros H0 H1. unfold text_line.
  induction n as [|n IH]; cbn [repeat forallb]; [reflexivity|].
  rewrite H0, H1, IH. reflexivity.
Qed.

Lemma forallb_repeat (f : ascii -> bool) c n :
  f c = true -> forallb f (repeat c n) = true.
Proof.
  intros H. induction n as [|n IH]; cbn [repeat forallb]; [reflexivity|].
  rewrite H, IH. reflexivity.
Qed.

(** The length is kept in a [uint32_t]: of a string of 2^32 + 2 characters
    only the first two are decoded. *)
Lemma hex2buf_counts_modulo_two_32 (n : nat) (fresh : nat -> ascii) :
  Z.of_nat n = 4294967298 ->
  hex2buf (Some (repeat "0"%char n ++ [NUL])) fresh = Ok (1, Some [byte_of_Z 0]).
Proof.
  intros Hn. unfold hex2buf.
  rewrite c_str_text by (apply text_line_repeat; reflexivity).
  rewrite repeat_length, Hn.
  change (to_uint32 4294967298) with 2.
  change (negb (2 mod 2 =? 0)) with false. cbv iota.
  change (Z.to_nat (2 / 2)) with 1%nat.
  destruct n as [|[|m]]; [discriminate Hn | discriminate Hn |].
  reflexivity.
Qed.

(** The bound on the length in the amended C3 is needed: a string of
    2^32 + 2 zero digits is decoded to one byte, which does not re-encode
    to it. *)
Lemma hex2buf_long_string_not_reproduced :
  let text := repeat "0"%char (Z.to_nat 4294967298) in
  forallb is_lower_hex_digit text = true
  /\ Nat.even (List.length text) = true
  /\ hex2buf (Some (text ++ [NUL])) (fun _ => NUL) = Ok (1, Some [byte_of_Z 0])
  /\ hex_encode [byte_of_Z 0] <> text.
Proof.
  cbv zeta. split; [apply forallb_repeat; reflexivity|]. split.
  - rewrite repeat_length. apply Nat.even_spec.
    exists (Z.to_nat 2147483649).
    change 4294967298 with (2 * 2147483649).
    rewrite Z2Nat.inj_mul by lia. reflexivity.
  - split.
    + apply hex2buf_counts_modulo_two_32. apply Z2Nat.id. lia.
    + intros H. apply (f_equal (@List.length ascii)) in H.
      rewrite repeat_length in H. apply (f_equal Z.of_nat) in H.
      rewrite Z2Nat.id in H by lia. discriminate H.
Qed.

(** ** The run of [main] *)

Lemma print_error_message_stdin (P : platform) (ret : Z) (w : world) :
  w_stdin (print_error_message P ret w) = w_stdin w.
Proof. apply print_error_message_frame. Qed.

Lemma open_write_stdin p w : w_stdin (snd (open_write p w)) = w_stdin w.
Proof. unfold open_write. destruct (f_writable (w_fs w p)); reflexivity. Qed.

Lemma fwrite_stdin data size fp w : w_stdin (snd (fwrite data size fp w)) = w_stdin w.
Proof. destruct fp; reflexivity. Qed.

Lemma load_launch_token_stdin (P : platform) (w : world) :
  w_stdin (snd (load_launch_token P w)) = w_stdin w.
Proof.
  unfold load_launch_token, open_token_file.
  destruct (open_read (token_path P w) w) as [fp|].
  - destruct (fread _ _ fp) as [read_num token1].
    destruct (negb _ && negb _); reflexivity.
  - pose proof (open_write_stdin (token_path P w) w) as Hw.
    destruct (open_write (token_path P w) w) as [[fp|] w1]; cbn [snd] in Hw.
    + destruct (fread _ _ fp) as [read_num token1].
      destruct (negb _ && negb _); cbn; exact Hw.
    + cbn. exact Hw.
Qed.

Lemma initialize_enclave_stdin (P : platform) (w : world) :
  w_stdin (snd (initialize_enclave P w)) = w_stdin w.
Proof.
  unfold initialize_enclave.
  pose proof (load_launch_token_stdin P w) as Hl.
  destruct (load_launch_token P w) as [[fp token] w1]. cbn [snd] in Hl.
  destruct (sgx_create_enclave P _ _ token 0 w1) as [[[ret token1] updated] eid].
  destruct (negb (ret =? SGX_SUCCESS)).
  { cbn [snd]. rewrite print_error_message_stdin. exact Hl. }
  destruct fp as [fp|]; [|exact Hl].
  destruct (updated =? 0); [exact Hl|].
  pose proof (open_write_stdin (token_path P w) (set_eid eid w1)) as Hw.
  destruct (open_write (token_path P w) (set_eid eid w1)) as [[f|] w3];
    cbn [snd set_eid w_stdin] in Hw.
  - pose proof (fwrite_stdin token1 (sizeof_sgx_launch_token_t P) f w3) as Hf.
    destruct (fwrite token1 _ f w3) as [write_num w4]. cbn [snd] in Hf.
    destruct (negb _); cbn [snd printf w_stdin]; congruence.
  - cbn [snd]. congruence.
Qed.

Lemma get_public_key_world (P : platform) eid retval ret_pk ms0 w :
  world_of (get_public_key P eid retval ret_pk ms0 w)
  = snd (sgx_ecall P eid 0 ocall_table_Enclave
           {| ms_get_public_key_t.ms_retval := ms0;
              ms_get_public_key_t.ms_ret_pk := ret_pk |} w).
Proof.
  unfold get_public_key.
  destruct (sgx_ecall P eid 0 _ _ w) as [[st ms1] w1]. reflexivity.
Qed.

Lemma print_public_key_stdin pk w : w_stdin (print_public_key pk w) = w_stdin w.
Proof. reflexivity. Qed.

Lemma client_data_json_room (u : indeterminate) :
  client_data_json_size
  <= Z.of_nat (List.length (map (u_client_data_json u)
                              (seq 0 (Z.to_nat client_data_json_size)))).
Proof. rewrite length_map, length_seq. unfold client_data_json_size. lia. Qed.

Lemma data_to_sign_room (u : indeterminate) :
  data_to_sign_size
  <= Z.of_nat (List.length (map (u_data_to_sign u)
                              (seq 0 (Z.to_nat data_to_sign_size)))).
Proof. rewrite length_map, length_seq. unfold data_to_sign_size. lia. Qed.

(** Two lines that fit their buffers are read into them. *)
Lemma read_inputs_lines (u : indeterminate) (w : world) (l1 l2 rest : list ascii) :
  text_line l1 = true -> (List.length l1 <= 1022)%nat ->
  text_line l2 = true -> (List.length l2 <= 254)%nat ->
  w_stdin w = l1 ++ newline :: l2 ++ newline :: rest ->
  read_inputs u w
  = Ok (l1 ++ NUL :: NUL
           :: skipn (List.length l1 + 2)
                (map (u_client_data_json u) (seq 0 (Z.to_nat client_data_json_size))),
        l2 ++ NUL :: NUL
           :: skipn (List.length l2 + 2)
                (map (u_data_to_sign u) (seq 0 (Z.to_nat data_to_sign_size))),
        printf [newline]
          (set_stdin rest
             (printf (line (str "Enter hex data to sign:"))
                (printf [newline]
                   (set_stdin (l2 ++ newline :: rest)
                      (printf (line (str "Enter client JSON data:")) w)))))).
Proof.
  intros H1 L1 H2 L2 Hin. unfold read_inputs.
  cbn [w_stdin printf]. rewrite Hin.
  rewrite fgets_nonewline_line
    by (try assumption; try apply client_data_json_room;
        unfold client_data_json_size; lia).
  cbn [bind fst snd w_stdin set_stdin printf].
  rewrite fgets_nonewline_line
    by (try assumption; try apply data_to_sign_room;
        unfold data_to_sign_size; lia).
  reflexivity.
Qed.

(** The JSON line fits its buffer, the hex line has any length: the string
    left in [data_to_sign] is the hex line cut to 255 characters. *)
Lemma read_inputs_hex_line (u : indeterminate) (w : world) (l1 l2 rest : list ascii) :
  text_line l1 = true -> (List.length l1 <= 1022)%nat ->
  text_line l2 = true ->
  w_stdin w = l1 ++ newline :: l2 ++ newline :: rest ->
  exists b1 b2 w1,
    read_inputs u w = Ok (b1, b2, w1)
    /\ c_str b2 = Some (firstn 255 l2).
Proof.
  intros H1 L1 H2 Hin. unfold read_inputs.
  cbn [w_stdin printf]. rewrite Hin.
  rewrite fgets_nonewline_line
    by (try assumption; try apply client_data_json_room;
        unfold client_data_json_size; lia).
  cbn [bind fst snd w_stdin set_stdin printf].
  destruct (fgets_nonewline_text
              (map (u_data_to_sign u) (seq 0 (Z.to_nat data_to_sign_size)))
              data_to_sign_size l2 rest H2) as (b2 & r2 & Hf & Hs);
    [unfold data_to_sign_size; lia | apply data_to_sign_room |].
  rewrite Hf. cbn [bind fst snd].
  eexists _, _, _. split; [reflexivity|]. exact Hs.
Qed.

Lemma odd_length_firstn_255 (l : list ascii) :
  Nat.odd (List.length l) = true -> Nat.odd (List.length (firstn 255 l)) = true.
Proof.
  intros H. rewrite length_firstn.
  destruct (Nat.le_gt_cases (List.length l) 255) as [Hle | Hgt].
  - rewrite Nat.min_r by exact Hle. exact H.
  - rewrite Nat.min_l by lia. apply Nat.odd_spec. exists 127%nat. reflexivity.
Qed.

Lemma odd_length_mod (text : list ascii) :
  Nat.odd (List.length text) = true ->
  to_uint32 (Z.of_nat (List.length text)) mod 2 = 1.
Proof.
  intros H. apply Nat.odd_spec in H as [k Hk]. rewrite Hk.
  unfold to_uint32, two_32.
  rewrite Z.mod_mod_divide by (exists 2147483648; reflexivity).
  rewrite Nat2Z.inj_add, Nat2Z.inj_mul, Z.add_comm.
  change (Z.of_nat 1) with 1. change (Z.of_nat 2) with 2.
  rewrite (Z.mul_comm 2), Z_mod_plus_full. reflexivity.
Qed.

(** [hex2buf] on a string of odd length: 0, and nothing allocated. *)
Lemma hex2buf_odd (buf text : list ascii) (fresh : nat -> ascii) :
  c_str buf = Some text -> Nat.odd (List.length text) = true ->
  hex2buf (Some buf) fresh = Ok (0, None).
Proof.
  intros Hstr Hodd. unfold hex2buf. rewrite Hstr, (odd_length_mod text Hodd).
  reflexivity.
Qed.

Lemma ends_with_printf (s : list ascii) (w : world) :
  ends_with (w_stdout (printf s w)) s.
Proof. exists (w_stdout w). reflexivity. Qed.

(** With an odd number of characters on the second line, [main] leaves
    with -1 before the signing call; a platform [Q] that initialises and
    retrieves the key as [P] does takes the same run. *)
Lemma main_odd_core (P Q : platform) (u : indeterminate) (w : world)
    (l1 text rest : list ascii) :
  initialize_enclave Q w = initialize_enclave P w ->
  (forall eid rv pk ms0 w0,
     get_public_key Q eid rv pk ms0 w0 = get_public_key P eid rv pk ms0 w0) ->
  text_line l1 = true -> (List.length l1 <= 1022)%nat ->
  text_line text = true ->
  Nat.odd (List.length text) = true ->
  key_retrieval_keeps_stdin P ->
  w_stdin w = l1 ++ newline :: text ++ newline :: rest ->
  main Q u w = main P u w
  /\ exists w1, main P u w = Ok (-1, w1) /\ error_printed (w_stdout w1).
Proof.
  intros HQi HQg H1 L1 H2 Hodd Hkeep Hin.
  unfold main. rewrite HQi.
  pose proof (initialize_enclave_stdin P w) as Hi.
  destruct (initialize_enclave P w) as [r w0]. cbn [snd] in Hi.
  destruct (r <? 0).
  { split; [reflexivity|]. eexists. split; [reflexivity|].
    right; left. exists (w_stdout w0).
    cbn [w_stdout set_stdin printf]. rewrite <- app_assoc. reflexivity. }
  rewrite HQg.
  pose proof (get_public_key_world P (global_eid w0) (Some (u_status u)) (u_pk u)
                (u_ms_retval u) w0) as Hg.
  destruct (get_public_key P (global_eid w0) (Some (u_status u)) (u_pk u)
              (u_ms_retval u) w0) as [[[st rv] pk] w1].
  unfold world_of in Hg. cbn [snd] in Hg.
  assert (Hw1 : w_stdin w1 = l1 ++ newline :: text ++ newline :: rest).
  { rewrite Hg, Hkeep, Hi. exact Hin. }
  destruct (negb (_ =? 0)).
  { split; [reflexivity|]. eexists. split; [reflexivity|].
    right; right. eexists. apply ends_with_printf. }
  destruct (read_inputs_hex_line u (print_public_key pk w1) l1 text rest
              H1 L1 H2 Hw1) as (b1 & b2 & w2 & Hr & Hs).
  rewrite Hr. cbn [bind].
  rewrite (hex2buf_odd b2 (firstn 255 text))
    by (try assumption; apply odd_length_firstn_255; assumption).
  cbn [bind]. change (0 =? 0) with true. cbv iota.
  split; [reflexivity|]. eexists. split; [reflexivity|].
  left. apply ends_with_printf.
Qed.

(** C4.  [hex2buf] answers a string of odd length with 0 and allocates
    nothing.  When a JSON line that fits its buffer and a hex line of odd
    length are typed (lines of text, without NUL), and key retrieval does
    not read the console, [main] returns -1, its output ends with an error
    report, and the run is the same whatever the signing proxy is: it is
    not called. *)
Theorem odd_length_hex_rejected (P : platform) (u : indeterminate) (w : world)
    (buf text : list ascii) (fresh : nat -> ascii) (l1 rest : list ascii) :
  c_str buf = Some text ->
  Nat.odd (List.length text) = true ->
  hex2buf (Some buf) fresh = Ok (0, None)
  /\ (text_line l1 = true -> (List.length l1 <= 1022)%nat ->
      text_line text = true ->
      key_retrieval_keeps_stdin P ->
      w_stdin w = l1 ++ newline :: text ++ newline :: rest ->
      exists w1,
        main P u w = Ok (-1, w1)
        /\ error_printed (w_stdout w1)
        /\ forall f, main (with_signer P f) u w = Ok (-1, w1)).
Proof.
  intros Hstr Hodd. split; [exact (hex2buf_odd buf text fresh Hstr Hodd)|].
  intros H1 L1 H2 Hkeep Hin.
  destruct (main_odd_core P P u w l1 text rest eq_refl (fun _ _ _ _ _ => eq_refl)
              H1 L1 H2 Hodd Hkeep Hin) as (_ & w1 & Hm & He).
  exists w1. split; [exact Hm|]. split; [exact He|].
  intros f.
  destruct (main_odd_core P (with_signer P f) u w l1 text rest eq_refl
              (fun _ _ _ _ _ => eq_refl) H1 L1 H2 Hodd Hkeep Hin) as (Hq & _).
  rewrite Hq. exact Hm.
Qed.

(** The scenario of the specification with the hex line abc, on the
    example platform. *)
Lemma odd_length_hex_rejected_witness :
  let P := example_platform 0 0 0 in
  let w := empty_world (scenario_json ++ newline :: str "abc" ++ [newline]) in
  hex2buf (Some (str "abc" ++ [NUL])) (fun _ => NUL) = Ok (0, None)
  /\ exists w1,
       main P example_indeterminate w = Ok (-1, w1)
       /\ error_printed (w_stdout w1)
       /\ forall f, main (with_signer P f) example_indeterminate w = Ok (-1, w1).
Proof.
  cbv zeta.
  destruct (odd_length_hex_rejected (example_platform 0 0 0) example_indeterminate
              (empty_world (scenario_json ++ newline :: str "abc" ++ [newline]))
              (str "abc" ++ [NUL]) (str "abc") (fun _ => NUL) scenario_json []
              eq_refl eq_refl) as [Hh Hm].
  split; [exact Hh|].
  apply Hm.
  - reflexivity.
  - vm_compute. lia.
  - reflexivity.
  - intros eid ms w. reflexivity.
  - reflexivity.
Defined.

Example main_abc_output :
  exists w1,
    main (example_platform 0 0 0) example_indeterminate
      (empty_world (scenario_json ++ newline :: str "abc" ++ [newline]))
    = Ok (-1, w1)
    /\ w_stdin w1 = []
    /\ w_stdout w1
       = warn_open (str "/root/enclave.token")
         ++ public_key_text example_pk ++ prompts_text
         ++ line (str "Error receiving data to sign!").
Proof. eexists. split; [vm_compute; reflexivity|]. split; vm_compute; reflexivity. Qed.

(** ** The output of a successful run *)

(** The printing loop of [main] emits the cells from the last to the
    first. *)
Lemma print_reversed_big_endian {A : Type} (fmt : A -> list ascii) (arr : nat -> A)
    (size : nat) :
  print_reversed fmt arr size = big_endian_hex fmt arr size.
Proof.
  unfold big_endian_hex. induction size as [|n IH]; [reflexivity|].
  rewrite seq_S, map_app, rev_app_distr. cbn [print_reversed Nat.add map rev app flat_map].
  rewrite IH. reflexivity.
Qed.

Lemma hex_field_app m n s t :
  hex_field m s -> hex_field n t -> hex_field (m + n) (s ++ t).
Proof.
  intros [Ls Hs] [Lt Ht]. split.
  - rewrite length_app. congruence.
  - rewrite forallb_app, Hs, Ht. reflexivity.
Qed.

Lemma hex_field_flat_map {A : Type} (fmt : A -> list ascii) (k : nat) (l : list A) :
  (forall a, hex_field k (fmt a)) ->
  hex_field (k * List.length l) (flat_map fmt l).
Proof.
  intros Hfmt. induction l as [|a l IH]; cbn [flat_map List.length].
  - rewrite Nat.mul_0_r. split; reflexivity.
  - replace (k * S (List.length l))%nat with (k + k * List.length l)%nat by lia.
    apply hex_field_app; auto.
Qed.

Lemma big_endian_hex_field {A : Type} (fmt : A -> list ascii) (arr : nat -> A)
    (k size : nat) :
  (forall a, hex_field k (fmt a)) ->
  hex_field (k * size) (big_endian_hex fmt arr size).
Proof.
  intros Hfmt. unfold big_endian_hex.
  replace size with (List.length (rev (map arr (seq 0 size)))) at 1
    by (rewrite length_rev, length_map; apply length_seq).
  apply hex_field_flat_map. exact Hfmt.
Qed.

Lemma printf_02x_field b : hex_field 2 (printf_02x b).
Proof. destruct b as [[] [] [] [] [] [] [] []]; split; reflexivity. Qed.

Lemma hex_digit_lower d :
  0 <= d < 16 -> is_lower_hex_digit (hex_digit false d) = true.
Proof.
  intros H.
  assert (E : d = 0 \/ d = 1 \/ d = 2 \/ d = 3 \/ d = 4 \/ d = 5 \/ d = 6 \/ d = 7
              \/ d = 8 \/ d = 9 \/ d = 10 \/ d = 11 \/ d = 12 \/ d = 13 \/ d = 14
              \/ d = 15) by lia.
  repeat (destruct E as [-> | E]; [reflexivity|]). subst d. reflexivity.
Qed.

Lemma hex_fixed_field width : forall v, hex_field width (hex_fixed false width v).
Proof.
  induction width as [|k IH]; intros v; cbn [hex_fixed].
  - split; reflexivity.
  - replace (S k) with (k + 1)%nat by lia.
    apply hex_field_app; [apply IH|].
    split; [reflexivity|]. cbn [forallb].
    rewrite hex_digit_lower by (apply Z.mod_pos_bound; lia). reflexivity.
Qed.

Lemma printf_08x_field v : hex_field 8 (printf_08x v).
Proof. apply hex_fixed_field. Qed.

Lemma print_public_key_stdout pk w :
  w_stdout (print_public_key pk w) = w_stdout w ++ public_key_text pk.
Proof.
  unfold print_public_key, public_key_text, line.
  cbn [w_stdout printf]. rewrite !print_reversed_big_endian.
  rewrite <- !app_assoc. reflexivity.
Qed.

Lemma print_signature_stdout signature w :
  w_stdout (print_signature signature w) = w_stdout w ++ signature_text signature.
Proof.
  unfold print_signature, signature_text.
  cbn [w_stdout printf]. rewrite !print_reversed_big_endian.
  rewrite <- !app_assoc. reflexivity.
Qed.

Lemma initialize_enclave_succeeds (P : platform) (w : world) :
  (forall name dbg token updated w0,
     fst (fst (fst (sgx_create_enclave P name dbg token updated w0))) = SGX_SUCCESS) ->
  fst (initialize_enclave P w) = 0.
Proof.
  intros Hc. unfold initialize_enclave.
  destruct (load_launch_token P w) as [[fp token] w1].
  specialize (Hc (ENCLAVE_FILENAME P) (SGX_DEBUG_FLAG P) token 0 w1).
  destruct (sgx_create_enclave P _ _ token 0 w1) as [[[ret token1] updated] eid].
  cbn [fst] in Hc. subst ret. change (negb (SGX_SUCCESS =? SGX_SUCCESS)) with false.
  cbv iota. destruct fp as [fp|]; [|reflexivity].
  destruct (updated =? 0); [reflexivity|].
  destruct (open_write _ _) as [[out|] w3]; [|reflexivity].
  destruct (fwrite _ _ out w3) as [write_num w4].
  destruct (negb _); reflexivity.
Qed.

Lemma hex2buf_scenario tail fresh :
  hex2buf (Some (str "0102030a" ++ NUL :: tail)) fresh
  = Ok (4, Some [byte_of_Z 1; byte_of_Z 2; byte_of_Z 3; byte_of_Z 10]).
Proof. reflexivity. Qed.

Lemma example_enclave_functions :
  functioning_enclave (example_platform 0 0 0) example_pk
    (fun _ _ _ _ => example_signature).
Proof.
  split; [reflexivity|]. split; [|split]; intros; cbv zeta; repeat split.
Qed.

(** What [main] does with a functioning enclave and the two lines of the
    scenario: the run, and the whole output behind what initialisation
    printed. *)
Lemma main_scenario_run (P : platform) (u : indeterminate) (w : world)
    (pk : sgx_ec256_public_t)
    (signer : list ascii -> Z -> list ascii -> Z -> sgx_ec256_signature_t)
    (rest : list ascii) :
  functioning_enclave P pk signer ->
  w_stdin w = scenario_stdin ++ rest ->
  exists w1,
    main P u w = Ok (0, w1)
    /\ w_stdout w1
       = w_stdout (snd (initialize_enclave P w))
         ++ public_key_text pk ++ prompts_text
         ++ signature_text
              (signer [byte_of_Z 1; byte_of_Z 2; byte_of_Z 3; byte_of_Z 10] 4
                 (scenario_json ++ NUL :: NUL
                    :: skipn (List.length scenario_json + 2)
                         (map (u_client_data_json u)
                            (seq 0 (Z.to_nat client_data_json_size))))
                 client_data_json_size).
Proof.
  intros (Hc & Hk & Hs & Hd) Hin. unfold main.
  pose proof (initialize_enclave_succeeds P w Hc) as Hr.
  pose proof (initialize_enclave_stdin P w) as Hi.
  destruct (initialize_enclave P w) as [r w0]. cbn [fst snd] in Hr, Hi |- *.
  subst r. change (0 <? 0) with false. cbv iota.
  unfold get_public_key.
  specialize (Hk (global_eid w0)
                {| ms_get_public_key_t.ms_retval := u_ms_retval u;
                   ms_get_public_key_t.ms_ret_pk := u_pk u |} w0).
  cbv zeta in Hk.
  destruct (sgx_ecall P (global_eid w0) 0 ocall_table_Enclave _ w0) as [[st ms1] w1].
  cbn [fst snd] in Hk. destruct Hk as (-> & Hrv & Hpk & Hin1 & Hout1).
  change (SGX_SUCCESS =? SGX_SUCCESS) with true. cbv iota.
  rewrite Hrv, Hpk. change (negb (0 =? 0)) with false. cbv iota.
  rewrite (read_inputs_lines u (print_public_key pk w1) scenario_json
             (str "0102030a") rest);
    [| reflexivity | vm_compute; lia | reflexivity | vm_compute; lia
     | rewrite print_public_key_stdin, Hin1, Hi, Hin; unfold scenario_stdin;
       rewrite <- app_assoc; reflexivity ].
  cbn [bind]. rewrite hex2buf_scenario. cbn [bind].
  change (4 =? 0) with false. cbv iota.
  match goal with
  | |- context [webauthn_get_signature P ?e ?s ?d ?n ?c ?m ?g ?w2] =>
      specialize (Hs e s d n c m g w2); cbv zeta in Hs;
      destruct (webauthn_get_signature P e s d n c m g w2) as [[[st2 rv2] sig2] w3]
  end.
  cbn [fst snd] in Hs. destruct Hs as (-> & -> & Hout3).
  change (negb (0 =? 0)) with false. cbv iota.
  eexists. split; [reflexivity|].
  rewrite Hd, print_signature_stdout, Hout3.
  cbn [w_stdout printf set_stdin].
  rewrite print_public_key_stdout, Hout1.
  unfold prompts_text. rewrite <- !app_assoc. reflexivity.
Qed.

Lemma scenario_prints_of_texts pre pk signature :
  scenario_prints 64
    (pre ++ public_key_text pk ++ prompts_text ++ signature_text signature).
Proof.
  exists pre,
    (big_endian_hex printf_02x (gx pk) SGX_ECP256_KEY_SIZE),
    (big_endian_hex printf_02x (gy pk) SGX_ECP256_KEY_SIZE),
    ([newline; newline] ++ prompts_text),
    (big_endian_hex printf_08x (x signature) SGX_NISTP_ECP256_KEY_SIZE),
    (big_endian_hex printf_08x (y signature) SGX_NISTP_ECP256_KEY_SIZE).
  split.
  - unfold public_key_text, signature_text. rewrite <- !app_assoc. reflexivity.
  - split; [|split; [|split]].
    + apply (big_endian_hex_field printf_02x (gx pk) 2 32 printf_02x_field).
    + apply (big_endian_hex_field printf_02x (gy pk) 2 32 printf_02x_field).
    + apply (big_endian_hex_field printf_08x (x signature) 8 8 printf_08x_field).
    + apply (big_endian_hex_field printf_08x (y signature) 8 8 printf_08x_field).
Qed.

(** C9, as the specification words it, fails on the example platform: the
    run succeeds and prints the key and the signature, but no part of the
    output is a signature with two fields of 256 characters; the fields
    have 64. *)
Lemma scenario_signature_fields_not_256 :
  let P := example_platform 0 0 0 in
  let w := empty_world scenario_stdin in
  functioning_enclave P example_pk (fun _ _ _ _ => example_signature)
  /\ exists w1,
       main P example_indeterminate w = Ok (0, w1)
       /\ w_stdout w1
          = warn_open (str "/root/enclave.token")
            ++ line (str "Public Key:")
            ++ line (str "gx: 1f1e1d1c1b1a191817161514131211100f0e0d0c0b0a09080706050403020100")
            ++ line (str "gy: e0e1e2e3e4e5e6e7e8e9eaebecedeeeff0f1f2f3f4f5f6f7f8f9fafbfcfdfeff")
            ++ [newline; newline]
            ++ prompts_text
            ++ line (str "Resulting signature: 7000000160000001500000014000000130000001200000011000000100000001,7000000260000002500000024000000230000002200000021000000200000002")
       /\ ~ scenario_prints 256 (w_stdout w1).
Proof.
  cbv zeta. split; [exact example_enclave_functions|].
  eexists. split; [vm_compute; reflexivity|].
  split; [vm_compute; reflexivity|].
  intros (pre & gxh & gyh & mid & sxh & syh & Heq & _ & _ & [Lx _] & [Ly _]).
  apply (f_equal (@List.length ascii)) in Heq.
  rewrite !length_app, Lx, Ly in Heq.
  match type of Heq with
  | ?l = _ => let n := eval vm_compute in l in change l with n in Heq
  end.
  revert Heq. generalize (Datatypes.length pre) (Datatypes.length gxh)
    (Datatypes.length gyh) (Datatypes.length mid)
    (Datatypes.length (line (str "Public Key:"))) (Datatypes.length (str "gx: "))
    (Datatypes.length (str "gy: ")) (Datatypes.length (str "Resulting signature: "))
    (Datatypes.length (str ",")) (Datatypes.length [newline]).
  intros. lia.
Qed.

(** C9, amended.  With a functioning enclave and the lines
    [{"origin":"example"}] and [0102030a] on the console, [main] returns 0;
    behind what initialisation printed the output is the key, the two
    prompts and the signature computed for the bytes 01 02 03 0a and the
    client data; each key coordinate is a field of 64 hexadecimal
    characters and each signature coordinate a field of 64 hexadecimal
    characters, the two separated by a comma, every field with the cells of
    its array from the last to the first. *)
Theorem main_scenario_output (P : platform) (u : indeterminate) (w : world)
    (pk : sgx_ec256_public_t)
    (signer : list ascii -> Z -> list ascii -> Z -> sgx_ec256_signature_t)
    (rest : list ascii) :
  functioning_enclave P pk signer ->
  w_stdin w = scenario_stdin ++ rest ->
  exists w1 signature,
    main P u w = Ok (0, w1)
    /\ signature
       = signer [byte_of_Z 1; byte_of_Z 2; byte_of_Z 3; byte_of_Z 10] 4
           (scenario_json ++ NUL :: NUL
              :: skipn (List.length scenario_json + 2)
                   (map (u_client_data_json u)
                      (seq 0 (Z.to_nat client_data_json_size))))
           client_data_json_size
    /\ w_stdout w1
       = w_stdout (snd (initialize_enclave P w))
         ++ public_key_text pk ++ prompts_text ++ signature_text signature
    /\ scenario_prints 64 (w_stdout w1).
Proof.
  intros Hf Hin.
  destruct (main_scenario_run P u w pk signer rest Hf Hin) as (w1 & Hm & Hout).
  exists w1. eexists. split; [exact Hm|]. split; [reflexivity|].
  split; [exact Hout|]. rewrite Hout. apply scenario_prints_of_texts.
Qed.

(** The scenario on the example platform. *)
Lemma main_scenario_output_witness :
  exists w1 signature,
    main (example_platform 0 0 0) example_indeterminate (empty_world scenario_stdin)
    = Ok (0, w1)
    /\ signature
       = (fun _ _ _ _ => example_signature)
           [byte_of_Z 1; byte_of_Z 2; byte_of_Z 3; byte_of_Z 10] 4
           (scenario_json ++ NUL :: NUL
              :: skipn (List.length scenario_json + 2)
                   (map (u_client_data_json example_indeterminate)
                      (seq 0 (Z.to_nat client_data_json_size))))
           client_data_json_size
    /\ w_stdout w1
       = w_stdout (snd (initialize_enclave (example_platform 0 0 0)
                          (empty_world scenario_stdin)))
         ++ public_key_text example_pk ++ prompts_text ++ signature_text signature
    /\ scenario_prints 64 (w_stdout w1).
Proof.
  apply (main_scenario_output (example_platform 0 0 0) example_indeterminate
           (empty_world scenario_stdin) example_pk
           (fun _ _ _ _ => example_signature) []).
  - exact example_enclave_functions.
  - vm_compute. reflexivity.
Defined.

(** A hex line of 301 characters: 255 of them reach the buffer, and the
    run ends as before. *)
Example main_long_odd_line :
  exists w1,
    main (example_platform 0 0 0) example_indeterminate
      (empty_world (scenario_json ++ newline :: repeat "a"%char 301 ++ [newline]))
    = Ok (-1, w1)
    /\ w_stdout w1
       = warn_open (str "/root/enclave.token")
         ++ public_key_text example_pk ++ prompts_text
         ++ line (str "Error receiving data to sign!").
Proof. eexists. split; vm_compute; reflexivity. Qed.

(** A token file holding one byte, on the example platform. *)
Lemma launch_token_zero_unless_complete_witness :
  let P := example_platform 0 0 0 in
  let w := world_with_file (str "/root/enclave.token") (plain_file (str "x")) [] in
  token_of (load_launch_token P w) = repeat zero 1024
  /\ w_stdout (snd (load_launch_token P w))
     = w_stdout w ++ str "Warning: Invalid launch token read from "
         ++ ["034"%char] ++ token_path P w ++ ["034"%char] ++ str "." ++ [newline].
Proof.
  cbv zeta.
  pose proof (launch_token_zero_unless_complete (example_platform 0 0 0)
                (world_with_file (str "/root/enclave.token") (plain_file (str "x")) []))
    as H.
  cbv zeta in H. destruct H as (_ & _ & H).
  destruct (H (str "x") eq_refl eq_refl) as [Hshort _].
  destruct Hshort as (Hz & Hw & _); [vm_compute; lia|].
  split; [exact Hz|]. apply Hw. discriminate.
Defined.

(** * Further properties of the code *)

(** ** Reading a line *)

Lemma c_str_split buf s :
  c_str buf = Some s ->
  exists rest, buf = s ++ NUL :: rest /\ nul_free s = true.
Proof.
  revert s; induction buf as [|c buf IH]; intros s H; [discriminate H|].
  cbn [c_str] in H. destruct (Ascii.eqb c NUL) eqn:E.
  - inversion H; subst. apply Ascii.eqb_eq in E. subst c.
    exists buf. split; reflexivity.
  - destruct (c_str buf) as [s0|]; [|discriminate H].
    inversion H; subst. destruct (IH s0 eq_refl) as (rest & -> & Hs).
    exists rest. split; [reflexivity|].
    unfold nul_free in *. cbn [forallb]. rewrite E, Hs. reflexivity.
Qed.

Lemma c_str_nul_free l rest :
  nul_free l = true -> c_str (l ++ NUL :: rest) = Some l.
Proof.
  unfold nul_free. induction l as [|c l IH]; intros H; cbn [app c_str].
  - reflexivity.
  - cbn [forallb] in H. apply andb_true_iff in H as [Hc Hl].
    apply negb_true_iff in Hc. rewrite Hc, (IH Hl). reflexivity.
Qed.

Lemma length_overlay new old :
  (List.length new <= List.length old)%nat ->
  List.length (overlay new old) = List.length old.
Proof.
  intros H. unfold overlay. rewrite length_app, length_skipn. lia.
Qed.

Lemma skipn_overlay k new old :
  (List.length new <= k)%nat -> skipn k (overlay new old) = skipn k old.
Proof.
  intros H. unfold overlay. rewrite skipn_app, skipn_all2 by exact H.
  rewrite skipn_skipn. cbn [app]. f_equal. lia.
Qed.

Lemma length_read_line room : forall stream,
  (List.length (fst (read_line room stream)) <= room)%nat.
Proof.
  induction room as [|room IH]; intros stream; [destruct stream; cbn; lia|].
  destruct stream as [|c rest]; cbn [read_line]; [cbn; lia|].
  destruct (Ascii.eqb c newline); [cbn; lia|].
  specialize (IH rest). destruct (read_line room rest) as [l r].
  cbn [fst List.length] in *. lia.
Qed.

(** Given a buffer of at least [n] cells, [fgets] returns, and what it
    stores stays within the first [n] cells. *)
Lemma fgets_writes_within n buf stream :
  n <= Z.of_nat (List.length buf) ->
  exists ok buf1 stream1,
    fgets buf n stream = Ok (ok, buf1, stream1)
    /\ List.length buf1 = List.length buf
    /\ skipn (Z.to_nat n) buf1 = skipn (Z.to_nat n) buf.
Proof.
  intros Hroom. unfold fgets.
  destruct (n <=? 0) eqn:E0; [eexists _, _, _; repeat split; reflexivity|].
  apply Z.leb_gt in E0.
  destruct (n =? 1) eqn:E1.
  - apply Z.eqb_eq in E1. subst n.
    rewrite write_cells_fits by (cbn [List.length]; lia). cbn [bind].
    eexists _, _, _. split; [reflexivity|]. split.
    + apply length_overlay. cbn [List.length]. lia.
    + apply skipn_overlay. cbn. lia.
  - apply Z.eqb_neq in E1.
    pose proof (length_read_line (Z.to_nat (n - 1)) stream) as Hl.
    destruct (read_line (Z.to_nat (n - 1)) stream) as [line rest]. cbn [fst] in Hl.
    destruct line as [|c line]; [eexists _, _, _; repeat split; reflexivity|].
    rewrite write_cells_fits by (rewrite length_app; cbn [List.length] in *; lia).
    cbn [bind].
    eexists _, _, _. split; [reflexivity|]. split.
    + apply length_overlay. rewrite length_app. cbn [List.length] in *. lia.
    + apply skipn_overlay. rewrite length_app. cbn [List.length] in *. lia.
Qed.

Lemma load_in_bounds buf i :
  0 <= i < Z.of_nat (List.length buf) -> exists c, load buf i = Ok c.
Proof.
  intros H. unfold load.
  replace ((0 <=? i) && (i <? Z.of_nat (List.length buf))) with true
    by (symmetry; apply andb_true_iff; split; [apply Z.leb_le | apply Z.ltb_lt]; lia).
  eauto.
Qed.

Lemma store_in_bounds buf i c :
  0 <= i < Z.of_nat (List.length buf) ->
  exists buf1, store buf i c = Ok buf1
               /\ List.length buf1 = List.length buf
               /\ forall k, (Z.to_nat i < k)%nat -> skipn k buf1 = skipn k buf.
Proof.
  intros H. unfold store.
  replace ((0 <=? i) && (i <? Z.of_nat (List.length buf))) with true
    by (symmetry; apply andb_true_iff; split; [apply Z.leb_le | apply Z.ltb_lt]; lia).
  eexists. split; [reflexivity|]. split.
  - rewrite length_app, length_firstn. cbn [List.length]. rewrite length_skipn. lia.
  - intros k Hk. rewrite skipn_app, length_firstn.
    rewrite skipn_all2 by (rewrite length_firstn; lia). cbn [app].
    replace (k - Nat.min (Z.to_nat i) (List.length buf))%nat
      with (S (k - S (Z.to_nat i))) by lia.
    rewrite skipn_cons, skipn_skipn. f_equal. lia.
Qed.

(** The three ways [fgets_nonewline] can end, by the buffer [buf1] that
    [fgets] leaves. *)
Lemma fgets_nonewline_after_fgets (buf : list ascii) (n : Z) (stream : list ascii)
    (ok : bool) (buf1 stream1 : list ascii) :
  fgets buf (to_int32 n) stream = Ok (ok, buf1, stream1) ->
  Z.of_nat (List.length buf1) <= 4294967295 ->
  match c_str buf1 with
  | None => fgets_nonewline buf n stream = Fault Unterminated
  | Some [] => fgets_nonewline buf n stream = Fault (OutOfBounds 4294967295)
  | Some (_ :: _) => exists r, fgets_nonewline buf n stream = Ok r
  end.
Proof.
  intros Hf Hmax. unfold fgets_nonewline. rewrite Hf. cbn [bind]. unfold strlen.
  destruct (c_str buf1) as [s|] eqn:Es; [|reflexivity].
  apply c_str_split in Es as (rest & Hbuf & _).
  destruct s as [|c s]; cbn [bind List.length].
  - change (to_uint32 (Z.of_nat 0 - 1)) with 4294967295.
    unfold load.
    replace (4294967295 <? Z.of_nat (List.length buf1)) with false
      by (symmetry; apply Z.ltb_ge; lia).
    reflexivity.
  - assert (Hs : Z.of_nat (S (List.length s)) < Z.of_nat (List.length buf1)).
    { rewrite Hbuf, length_app. cbn [List.length]. lia. }
    assert (Hi : to_uint32 (Z.of_nat (S (List.length s)) - 1) = Z.of_nat (List.length s)).
    { unfold to_uint32, two_32. rewrite Z.mod_small; lia. }
    rewrite Hi.
    destruct (load_in_bounds buf1 (Z.of_nat (List.length s))) as [d Hd]; [lia|].
    rewrite Hd. cbn [bind].
    destruct (Ascii.eqb d newline); [|eauto].
    destruct (store_in_bounds buf1 (Z.of_nat (List.length s)) NUL) as (b2 & Hb2 & _);
      [lia|].
    rewrite Hb2. cbn [bind]. eauto.
Qed.

(** X1.  [fgets_nonewline] stops with a fault in two cases only, decided by
    the buffer as [fgets] leaves it: when it holds no terminator, [strlen]
    runs off it; when it holds the empty string, the cell at index
    4294967295 is read.  With any other string it returns. *)
Theorem fgets_nonewline_fault_cases (buf : list ascii) (n : Z) (stream : list ascii) :
  to_int32 n <= Z.of_nat (List.length buf) ->
  Z.of_nat (List.length buf) <= 4294967295 ->
  match c_str (after_fgets buf n stream) with
  | None => fgets_nonewline buf n stream = Fault Unterminated
  | Some [] => fgets_nonewline buf n stream = Fault (OutOfBounds 4294967295)
  | Some (_ :: _) => exists r, fgets_nonewline buf n stream = Ok r
  end.
Proof.
  intros Hn Hmax. unfold after_fgets.
  destruct (fgets_writes_within (to_int32 n) buf stream Hn)
    as (ok & buf1 & stream1 & Ef & Hlen & _).
  rewrite Ef. cbn [fst snd].
  apply (fgets_nonewline_after_fgets buf n stream ok buf1 stream1 Ef).
  rewrite Hlen. exact Hmax.
Qed.

Lemma fgets_nonewline_fault_cases_witness :
  match c_str (after_fgets (repeat NUL 8) 8 []) with
  | None => fgets_nonewline (repeat NUL 8) 8 [] = Fault Unterminated
  | Some [] => fgets_nonewline (repeat NUL 8) 8 [] = Fault (OutOfBounds 4294967295)
  | Some (_ :: _) => exists r, fgets_nonewline (repeat NUL 8) 8 [] = Ok r
  end.
Proof.
  apply (fgets_nonewline_fault_cases (repeat NUL 8) 8 []); vm_compute; discriminate.
Defined.

Lemma read_line_spec room : forall stream line rest,
  read_line room stream = (line, rest) ->
  stream = line ++ rest
  /\ (List.length line <= room)%nat
  /\ ((exists s, line = s ++ [newline] /\ ~ In newline s)
      \/ (~ In newline line /\ (rest = [] \/ List.length line = room))).
Proof.
  induction room as [|room IH]; intros stream line rest H.
  - assert (E : read_line 0 stream = ([], stream)) by (destruct stream; reflexivity).
    rewrite E in H. inversion H; subst.
    split; [reflexivity|]. split; [cbn; lia|]. right. split; [intros []|]. right. reflexivity.
  - destruct stream as [|c t]; cbn [read_line] in H.
    + inversion H; subst. split; [reflexivity|]. split; [cbn; lia|].
      right. split; [intros []|]. left. reflexivity.
    + destruct (Ascii.eqb c newline) eqn:Ec.
      * inversion H; subst. apply Ascii.eqb_eq in Ec. subst c.
        split; [reflexivity|]. split; [cbn; lia|].
        left. exists []. split; [reflexivity | intros []].
      * destruct (read_line room t) as [l r] eqn:Er. inversion H; subst.
        destruct (IH t l rest Er) as (Hcat & Hlen & Hcase).
        apply Ascii.eqb_neq in Ec.
        split; [cbn [app]; rewrite Hcat; reflexivity|].
        split; [cbn [List.length]; lia|].
        destruct Hcase as [(s & -> & Hs) | (Hnl & Hend)].
        -- left. exists (c :: s). split; [reflexivity|].
           intros [E | E]; [congruence | exact (Hs E)].
        -- right. split.
           ++ intros [E | E]; [congruence | exact (Hnl E)].
           ++ destruct Hend as [-> | Hend]; [left; reflexivity|].
              right. cbn [List.length]. lia.
Qed.

Lemma nul_free_app l1 l2 :
  nul_free (l1 ++ l2) = true <-> nul_free l1 = true /\ nul_free l2 = true.
Proof. unfold nul_free. rewrite forallb_app. apply andb_true_iff. Qed.

(** X2.  From a stream that is not at its end and holds no NUL,
    [fgets_nonewline] with [n >= 2] and a buffer of at least [n] cells
    returns; the string it leaves is the stream up to its first newline,
    without that newline, or, when no newline comes within [n - 1]
    characters, the first [n - 1] characters (all of them if the stream
    ends first); the stream is left behind what was read, the buffer keeps
    its size, and its cells from index [n] on keep their contents. *)
Theorem fgets_nonewline_first_line (buf : list ascii) (n : Z) (stream : list ascii) :
  2 <= n <= 2147483647 -> n <= Z.of_nat (List.length buf) ->
  stream <> [] -> nul_free stream = true ->
  exists buf1 rest s,
    fgets_nonewline buf n stream = Ok (buf1, rest)
    /\ c_str buf1 = Some s
    /\ ~ In newline s
    /\ List.length buf1 = List.length buf
    /\ skipn (Z.to_nat n) buf1 = skipn (Z.to_nat n) buf
    /\ ((stream = s ++ newline :: rest /\ Z.of_nat (List.length s) <= n - 2)
        \/ (stream = s ++ rest /\ s <> []
            /\ (rest = [] \/ Z.of_nat (List.length s) = n - 1))).
Proof.
  intros Hn Hroom Hne Hnul. unfold fgets_nonewline, fgets.
  assert (Hint : to_int32 n = n).
  { unfold to_int32, two_32. rewrite Z.mod_small; lia. }
  rewrite Hint.
  destruct (n <=? 0) eqn:E0; [apply Z.leb_le in E0; lia|].
  destruct (n =? 1) eqn:E1; [apply Z.eqb_eq in E1; lia|].
  destruct (read_line (Z.to_nat (n - 1)) stream) as [line rest] eqn:Er.
  destruct (read_line_spec _ _ _ _ Er) as (Hcat & Hlen & Hcase).
  assert (Hline : line <> []).
  { intros ->. destruct Hcase as [(s & Hs & _) | (_ & [-> | Hr])].
    - destruct s; discriminate Hs.
    - apply Hne. exact Hcat.
    - cbn in Hr. lia. }
  assert (Hnl : nul_free line = true).
  { rewrite Hcat in Hnul. apply nul_free_app in Hnul. tauto. }
  assert (Hfit : (List.length (line ++ [NUL]) <= List.length buf)%nat).
  { rewrite length_app. cbn [List.length]. lia. }
  destruct line as [|c0 l0] eqn:El; [contradiction Hline; reflexivity|].
  rewrite <- El in *. clear El c0 l0.
  rewrite write_cells_fits by exact Hfit. cbn [bind].
  change (overlay (line ++ [NUL]) buf) with
    ((line ++ [NUL]) ++ skipn (List.length (line ++ [NUL])) buf).
  set (tail := skipn (List.length (line ++ [NUL])) buf).
  assert (Htail : (List.length tail = List.length buf - List.length (line ++ [NUL]))%nat).
  { subst tail. apply length_skipn. }
  rewrite <- app_assoc. cbn [app].
  unfold strlen. rewrite c_str_nul_free by exact Hnl. cbn [bind].
  destruct Hcase as [(s & Hs & Hsn) | (Hno & Hend)].
  - subst line. rewrite length_app in *. cbn [List.length] in *.
    replace (to_uint32 (Z.of_nat (List.length s + 1) - 1)) with (Z.of_nat (List.length s)).
    2:{ unfold to_uint32, two_32. rewrite Z.mod_small; lia. }
    rewrite <- app_assoc. cbn [app].
    rewrite load_middle. cbn [bind]. rewrite Ascii.eqb_refl.
    rewrite store_middle. cbn [bind].
    apply nul_free_app in Hnl as [Hs0 _].
    exists (s ++ NUL :: NUL :: tail), rest, s.
    split; [reflexivity|]. split; [apply c_str_nul_free; exact Hs0|].
    split; [exact Hsn|]. split; [|split].
    + rewrite length_app. cbn [List.length]. rewrite Htail, length_app.
      cbn [List.length]. lia.
    + subst tail.
      match goal with
      | |- skipn _ ?b = _ => replace b with (overlay (s ++ [NUL; NUL]) buf)
      end.
      2:{ unfold overlay. rewrite <- app_assoc, !length_app. cbn [app List.length].
          do 4 f_equal. lia. }
      apply skipn_overlay. rewrite length_app. cbn [List.length]. lia.
    + left. split; [rewrite Hcat, <- app_assoc; reflexivity | lia].
  - destruct (exists_last Hline) as (front & c & Hsplit).
    assert (Hc : Ascii.eqb c newline = false).
    { apply Ascii.eqb_neq. intros ->. apply Hno. rewrite Hsplit.
      apply in_or_app. right. left. reflexivity. }
    assert (Hl : List.length line = S (List.length front)).
    { rewrite Hsplit, length_app. cbn [List.length]. lia. }
    rewrite Hl.
    replace (to_uint32 (Z.of_nat (S (List.length front)) - 1))
      with (Z.of_nat (List.length front)).
    2:{ unfold to_uint32, two_32. rewrite Z.mod_small; lia. }
    replace (line ++ NUL :: tail) with (front ++ c :: NUL :: tail)
      by (rewrite Hsplit, <- app_assoc; reflexivity).
    rewrite load_middle. cbn [bind]. rewrite Hc.
    replace (front ++ c :: NUL :: tail) with (line ++ NUL :: tail)
      by (rewrite Hsplit, <- app_assoc; reflexivity).
    exists (line ++ NUL :: tail), rest, line.
    split; [reflexivity|]. split; [apply c_str_nul_free; exact Hnl|].
    split; [exact Hno|]. split; [|split].
    + rewrite length_app in Hfit, Htail |- *. cbn [List.length] in *. lia.
    + replace (line ++ NUL :: tail) with (overlay (line ++ [NUL]) buf).
      2:{ unfold overlay. rewrite <- app_assoc. reflexivity. }
      apply skipn_overlay. rewrite length_app. cbn [List.length]. lia.
    + right. split; [exact Hcat|]. split; [exact Hline|].
      destruct Hend as [-> | Hend]; [left; reflexivity | right; lia].
Qed.

Lemma fgets_nonewline_first_line_witness :
  exists buf1 rest s,
    fgets_nonewline (repeat "U"%char 8) 8 (str "ab" ++ newline :: str "cd")
    = Ok (buf1, rest)
    /\ c_str buf1 = Some s
    /\ ~ In newline s
    /\ List.length buf1 = List.length (repeat "U"%char 8)
    /\ skipn (Z.to_nat 8) buf1 = skipn (Z.to_nat 8) (repeat "U"%char 8)
    /\ ((str "ab" ++ newline :: str "cd" = s ++ newline :: rest
         /\ Z.of_nat (List.length s) <= 8 - 2)
        \/ (str "ab" ++ newline :: str "cd" = s ++ rest /\ s <> []
            /\ (rest = [] \/ Z.of_nat (List.length s) = 8 - 1))).
Proof.
  apply (fgets_nonewline_first_line (repeat "U"%char 8) 8
           (str "ab" ++ newline :: str "cd")).
  - lia.
  - cbn. lia.
  - discriminate.
  - reflexivity.
Defined.

(** X3.  At the end of the input nothing is stored and nothing is
    reported: [fgets_nonewline] trims and returns the string the buffer
    held before the call.  A string ending in a newline loses it, any other
    non-empty string leaves the buffer exactly as it was. *)
Theorem fgets_nonewline_end_of_input (buf : list ascii) (n : Z) (s : list ascii) :
  to_int32 n <> 1 ->
  c_str buf = Some s -> s <> [] ->
  Z.of_nat (List.length buf) <= 4294967295 ->
  exists buf1,
    fgets_nonewline buf n [] = Ok (buf1, [])
    /\ List.length buf1 = List.length buf
    /\ (forall front, s = front ++ [newline] -> c_str buf1 = Some front)
    /\ (forall front c, s = front ++ [c] -> c <> newline -> buf1 = buf).
Proof.
  intros Hn Hs Hne Hmax. unfold fgets_nonewline.
  assert (Hf : fgets buf (to_int32 n) [] = Ok (false, buf, [])).
  { unfold fgets. destruct (to_int32 n <=? 0); [reflexivity|].
    destruct (to_int32 n =? 1) eqn:E1; [apply Z.eqb_eq in E1; contradiction|].
    destruct (Z.to_nat (to_int32 n - 1)); reflexivity. }
  rewrite Hf. cbn [bind]. unfold strlen. rewrite Hs. cbn [bind].
  destruct (c_str_split buf s Hs) as (rest & Hbuf & Hnul).
  destruct (exists_last Hne) as (front & c & Hsplit).
  assert (Hlen : List.length buf = (List.length front + S (S (List.length rest)))%nat).
  { rewrite Hbuf, Hsplit, !length_app. cbn [List.length]. lia. }
  rewrite Hsplit, length_app. cbn [List.length].
  replace (to_uint32 (Z.of_nat (List.length front + 1) - 1))
    with (Z.of_nat (List.length front)).
  2:{ unfold to_uint32, two_32. rewrite Z.mod_small; lia. }
  assert (Hb : buf = front ++ c :: NUL :: rest).
  { rewrite Hbuf, Hsplit, <- app_assoc. reflexivity. }
  assert (Hload : load buf (Z.of_nat (List.length front)) = Ok c)
    by (rewrite Hb; apply load_middle).
  assert (Hstore : store buf (Z.of_nat (List.length front)) NUL
                   = Ok (front ++ NUL :: NUL :: rest))
    by (rewrite Hb; apply store_middle).
  rewrite Hload, Hstore. cbn [bind].
  rewrite Hsplit in Hnul. apply nul_free_app in Hnul as [Hfront _].
  destruct (Ascii.eqb c newline) eqn:Ec.
  - apply Ascii.eqb_eq in Ec. subst c.
    eexists. split; [reflexivity|]. split.
    + rewrite Hlen, length_app. cbn [List.length]. lia.
    + split.
      * intros front' Hf'. apply app_inj_tail in Hf' as [<- _].
        apply c_str_nul_free. exact Hfront.
      * intros front' c' Hf' Hc'. apply app_inj_tail in Hf' as [_ <-].
        contradiction Hc'. reflexivity.
  - eexists. split; [reflexivity|]. split; [reflexivity|]. split.
    + intros front' Hf'. apply app_inj_tail in Hf' as [_ ->].
      rewrite Ascii.eqb_refl in Ec. discriminate Ec.
    + intros. reflexivity.
Qed.

Lemma fgets_nonewline_end_of_input_witness :
  exists buf1,
    fgets_nonewline (str "0a" ++ [NUL; "U"%char]) 256 [] = Ok (buf1, [])
    /\ List.length buf1 = List.length (str "0a" ++ [NUL; "U"%char])
    /\ (forall front, str "0a" = front ++ [newline] -> c_str buf1 = Some front)
    /\ (forall front c, str "0a" = front ++ [c] -> c <> newline ->
        buf1 = str "0a" ++ [NUL; "U"%char]).
Proof.
  apply (fgets_nonewline_end_of_input (str "0a" ++ [NUL; "U"%char]) 256 (str "0a")).
  - vm_compute. discriminate.
  - reflexivity.
  - discriminate.
  - vm_compute. discriminate.
Defined.

(** ** Hex decoding, continued *)

(** X4.  [hex2buf] on a terminated string always returns: a size between
    0 and 2^31 - 1, and with every size other than 0 a block of that many
    bytes, so the caller never uses an unassigned [*ret].  For a string
    shorter than 2^32 the size is 0 exactly when the string is empty or of
    odd length, and otherwise half the length, whatever the characters
    are. *)
Theorem hex2buf_size (buf text : list ascii) (fresh : nat -> ascii) :
  c_str buf = Some text ->
  exists n ret,
    hex2buf (Some buf) fresh = Ok (n, ret)
    /\ 0 <= n <= 2147483647
    /\ (n <> 0 -> exists bytes, ret = Some bytes /\ Z.of_nat (List.length bytes) = n)
    /\ (Z.of_nat (List.length text) < two_32 ->
        (n = 0 <-> text = [] \/ Nat.odd (List.length text) = true)
        /\ (Nat.even (List.length text) = true -> 2 * n = Z.of_nat (List.length text))).
Proof.
  intros Hs. unfold hex2buf. rewrite Hs.
  set (len := Z.of_nat (List.length text)).
  assert (Hu : 0 <= to_uint32 len < two_32) by (apply Z.mod_pos_bound; reflexivity).
  destruct (negb (to_uint32 len mod 2 =? 0)) eqn:Eo.
  - exists 0, None. split; [reflexivity|]. split; [lia|].
    split; [intros H; contradiction H; reflexivity|].
    intros Hlt. apply negb_true_iff, Z.eqb_neq in Eo.
    assert (El : to_uint32 len = len) by (apply Z.mod_small; subst len; lia).
    rewrite El in Eo.
    assert (Hodd : Nat.odd (List.length text) = true).
    { rewrite <- Nat.negb_even. apply negb_true_iff.
      destruct (Nat.even (List.length text)) eqn:Ee; [|reflexivity].
      apply Nat.even_spec in Ee as [k Hk]. contradiction Eo.
      subst len. rewrite Hk, Nat2Z.inj_mul, Z.mul_comm. apply Z.mod_mul. discriminate. }
    split; [tauto|].
    intros He. rewrite <- Nat.negb_even, He in Hodd. discriminate Hodd.
  - apply negb_false_iff, Z.eqb_eq in Eo.
    eexists _, _. split; [reflexivity|].
    assert (Hd : 0 <= to_uint32 len / 2 <= 2147483647).
    { unfold two_32 in Hu. split; [apply Z.div_pos; lia|].
      apply Z.lt_succ_r. apply Z.div_lt_upper_bound; lia. }
    split; [exact Hd|]. split.
    + intros _. eexists. split; [reflexivity|].
      rewrite length_hex2buf_loop, length_malloc. apply Z2Nat.id. lia.
    + intros Hlt.
      assert (El : to_uint32 len = len) by (apply Z.mod_small; subst len; lia).
      rewrite El in *.
      assert (H2 : len = 2 * (len / 2)).
      { rewrite (Z.div_mod len 2) at 1 by discriminate. rewrite Eo. lia. }
      split.
      * split.
        -- intros H0. left. rewrite H0 in H2. subst len.
           destruct text; [reflexivity | discriminate H2].
        -- intros [-> | Hodd]; [reflexivity|].
           apply Nat.odd_spec in Hodd as [k Hk]. subst len.
           rewrite Hk, Nat2Z.inj_add, Nat2Z.inj_mul in Eo.
           rewrite Z.add_comm, Z.mul_comm, Z_mod_plus_full in Eo. discriminate Eo.
      * intros _. lia.
Qed.

Lemma hex2buf_size_witness :
  exists n ret,
    hex2buf (Some (str "zz0a" ++ [NUL])) (fun _ => "U"%char) = Ok (n, ret)
    /\ 0 <= n <= 2147483647
    /\ (n <> 0 -> exists bytes, ret = Some bytes /\ Z.of_nat (List.length bytes) = n)
    /\ (Z.of_nat (List.length (str "zz0a")) < two_32 ->
        (n = 0 <-> str "zz0a" = [] \/ Nat.odd (List.length (str "zz0a")) = true)
        /\ (Nat.even (List.length (str "zz0a")) = true ->
            2 * n = Z.of_nat (List.length (str "zz0a")))).
Proof.
  apply (hex2buf_size (str "zz0a" ++ [NUL]) (str "zz0a") (fun _ => "U"%char)).
  reflexivity.
Defined.

Lemma hex_digit_cases c :
  is_hex_digit c = true -> In c (str "0123456789abcdefABCDEF").
Proof.
  destruct c as [[] [] [] [] [] [] [] []]; intros H;
    solve [discriminate H | vm_compute; tauto].
Qed.

(** Two digits of either case are scanned as one byte, whatever follows
    them; printing the byte gives their lower-case forms. *)
Lemma scan_print_pair_any_case c1 c2 rest :
  is_hex_digit c1 = true -> is_hex_digit c2 = true ->
  exists b, sscanf_2hhx (c1 :: c2 :: rest) = Some b
            /\ printf_02x b = [to_lower_hex c1; to_lower_hex c2].
Proof.
  intros H1 H2.
  apply hex_digit_cases in H1. apply hex_digit_cases in H2.
  cbn [str list_ascii_of_string In] in H1, H2.
  repeat (destruct H1 as [<- | H1]; [| ]);
    try contradiction;
    (repeat (destruct H2 as [<- | H2]; [| ]); try contradiction;
     eexists; split; reflexivity).
Qed.

Lemma hex2buf_loop_lower cells : forall text,
  List.length text = (2 * List.length cells)%nat ->
  forallb is_hex_digit text = true ->
  hex_encode (hex2buf_loop text cells) = map to_lower_hex text.
Proof.
  induction cells as [|cell cells IH]; intros text Hlen Hhex.
  - destruct text; [reflexivity | discriminate Hlen].
  - destruct text as [|c1 [|c2 text]]; cbn [List.length] in Hlen; try lia.
    apply forallb_cons2 in Hhex as (H1 & H2 & Hrest).
    destruct (scan_print_pair_any_case c1 c2 text H1 H2) as (b & Hscan & Hprint).
    cbn [hex2buf_loop]. rewrite Hscan.
    unfold hex_encode in *. cbn [flat_map skipn map].
    rewrite Hprint, IH by (auto; lia). reflexivity.
Qed.

(** X5.  Decoding does not tell the case of the digits: for every string
    of hexadecimal digits, upper or lower case, of even length below 2^32,
    re-encoding the bytes [hex2buf] returns gives the string with every
    letter in lower case. *)
Theorem hex2buf_ignores_case (buf text : list ascii) (fresh : nat -> ascii) :
  c_str buf = Some text ->
  forallb is_hex_digit text = true ->
  Nat.even (List.length text) = true ->
  Z.of_nat (List.length text) < two_32 ->
  exists bytes,
    hex2buf (Some buf) fresh = Ok (Z.of_nat (List.length text) / 2, Some bytes)
    /\ hex_encode bytes = map to_lower_hex text.
Proof.
  intros Hstr Hhex Heven Hlen.
  apply Nat.even_spec in Heven as [k Hk].
  assert (Hdiv : Z.of_nat (List.length text) / 2 = Z.of_nat k).
  { rewrite Hk, Nat2Z.inj_mul, Z.mul_comm. apply Z.div_mul. discriminate. }
  unfold hex2buf. rewrite Hstr.
  assert (Hu : to_uint32 (Z.of_nat (List.length text)) = Z.of_nat (List.length text)).
  { unfold to_uint32. apply Z.mod_small. lia. }
  rewrite Hu.
  replace (Z.of_nat (List.length text) mod 2 =? 0) with true.
  2:{ symmetry. apply Z.eqb_eq. rewrite Hk, Nat2Z.inj_mul, Z.mul_comm.
      apply Z.mod_mul. discriminate. }
  cbn [negb]. rewrite Hdiv, Nat2Z.id.
  eexists. split; [reflexivity|].
  apply hex2buf_loop_lower; [rewrite length_malloc; exact Hk | exact Hhex].
Qed.

Lemma hex2buf_ignores_case_witness :
  exists bytes,
    hex2buf (Some (str "0AfF" ++ [NUL])) (fun _ => "U"%char)
    = Ok (Z.of_nat (List.length (str "0AfF")) / 2, Some bytes)
    /\ hex_encode bytes = map to_lower_hex (str "0AfF").
Proof.
  apply (hex2buf_ignores_case (str "0AfF" ++ [NUL]) (str "0AfF") (fun _ => "U"%char));
    [reflexivity | reflexivity | reflexivity | vm_compute; reflexivity].
Defined.

Lemma sscanf_junk c rest : is_junk c = true -> sscanf_2hhx (c :: rest) = None.
Proof.
  unfold is_junk, is_hex_digit. intros H.
  apply andb_true_iff in H as [H Hminus]. apply andb_true_iff in H as [H Hplus].
  apply andb_true_iff in H as [Hhex Hspace].
  apply negb_true_iff in Hminus, Hplus, Hspace.
  unfold sscanf_2hhx. cbn [skip_space]. rewrite Hspace, Hplus, Hminus.
  destruct (hex_val c) as [v|] eqn:Ev; [discriminate Hhex|].
  destruct (Ascii.eqb c "0"%char) eqn:E0.
  - apply Ascii.eqb_eq in E0. subst c. discriminate Ev.
  - unfold scan_hex_digits2. rewrite Ev. reflexivity.
Qed.

Lemma forallb_skipn {A : Type} (f : A -> bool) k (l : list A) :
  forallb f l = true -> forallb f (skipn k l) = true.
Proof.
  intros H. rewrite <- (firstn_skipn k l), forallb_app in H.
  apply andb_true_iff in H. tauto.
Qed.

Lemma hex2buf_loop_junk cells : forall pos,
  forallb is_junk pos = true -> hex2buf_loop pos cells = cells.
Proof.
  induction cells as [|cell cells IH]; intros pos H; [reflexivity|].
  cbn [hex2buf_loop]. rewrite IH by (apply forallb_skipn; exact H).
  destruct pos as [|c pos]; [reflexivity|].
  cbn [forallb] in H. apply andb_true_iff in H as [Hc _].
  rewrite (sscanf_junk c pos Hc). reflexivity.
Qed.

(** X6.  Nothing is validated: for a string of even length made of
    characters that begin no hexadecimal number, [hex2buf] still returns
    half the length, and the block it returns holds what [malloc] handed
    out, untouched. *)
Theorem hex2buf_junk_keeps_malloc_contents (buf text : list ascii)
    (fresh : nat -> ascii) :
  c_str buf = Some text ->
  forallb is_junk text = true ->
  Nat.even (List.length text) = true ->
  Z.of_nat (List.length text) < two_32 ->
  hex2buf (Some buf) fresh
  = Ok (Z.of_nat (List.length text) / 2,
        Some (malloc fresh (List.length text / 2))).
Proof.
  intros Hstr Hjunk Heven Hlen.
  apply Nat.even_spec in Heven as [k Hk].
  assert (Hdiv : Z.of_nat (List.length text) / 2 = Z.of_nat k).
  { rewrite Hk, Nat2Z.inj_mul, Z.mul_comm. apply Z.div_mul. discriminate. }
  assert (Hdivn : (List.length text / 2 = k)%nat).
  { rewrite Hk, Nat.mul_comm. apply Nat.div_mul. discriminate. }
  unfold hex2buf. rewrite Hstr.
  assert (Hu : to_uint32 (Z.of_nat (List.length text)) = Z.of_nat (List.length text)).
  { unfold to_uint32. apply Z.mod_small. lia. }
  rewrite Hu.
  replace (Z.of_nat (List.length text) mod 2 =? 0) with true.
  2:{ symmetry. apply Z.eqb_eq. rewrite Hk, Nat2Z.inj_mul, Z.mul_comm.
      apply Z.mod_mul. discriminate. }
  cbn [negb]. rewrite Hdiv, Hdivn, Nat2Z.id.
  rewrite hex2buf_loop_junk by exact Hjunk. reflexivity.
Qed.

Lemma hex2buf_junk_keeps_malloc_contents_witness :
  hex2buf (Some (str "xyzw" ++ [NUL])) (fun i => byte_of_Z (200 + Z.of_nat i))
  = Ok (Z.of_nat (List.length (str "xyzw")) / 2,
        Some (malloc (fun i => byte_of_Z (200 + Z.of_nat i))
                (List.length (str "xyzw") / 2))).
Proof.
  apply (hex2buf_junk_keeps_malloc_contents (str "xyzw" ++ [NUL]) (str "xyzw")
           (fun i => byte_of_Z (200 + Z.of_nat i)));
    [reflexivity | reflexivity | reflexivity | vm_compute; reflexivity].
Defined.

(** ** Sealed-state persistence, continued *)

Lemma path_eqb_refl p : path_eqb p p = true.
Proof. unfold path_eqb. destruct (list_eq_dec ascii_dec p p); congruence. Qed.

Lemma path_eqb_neq p q : q <> p -> path_eqb q p = false.
Proof. unfold path_eqb. destruct (list_eq_dec ascii_dec q p); congruence. Qed.

Lemma firstn_overlay k new old :
  List.length new = k -> firstn k (overlay new old) = new.
Proof.
  intros H. unfold overlay. rewrite firstn_app, H, Nat.sub_diag, firstn_O, app_nil_r.
  apply firstn_all2. lia.
Qed.

(** X7.  What is saved can be loaded: when the sealed-state file can be
    written and read and the write is not cut short, a save of [n] bytes
    followed by a load of [n] bytes returns 0 twice and leaves the saved
    bytes in the first [n] cells of the buffer, the cells behind them as
    they were. *)
Theorem sealed_state_round_trip (data buf : list ascii) (n : Z) (w : world) :
  n <= Z.of_nat (List.length data) ->
  n <= Z.of_nat (List.length buf) ->
  f_writable (w_fs w ENCLAVE_DATA_FILE) = true ->
  f_readable (w_fs w ENCLAVE_DATA_FILE) = true ->
  (Z.to_nat n <= f_room (w_fs w ENCLAVE_DATA_FILE))%nat ->
  exists w1 buf1,
    untrusted_save_enclave_data data n w = Ok (0, w1)
    /\ untrusted_load_enclave_data buf n w1 = Ok (0, buf1, w1)
    /\ firstn (Z.to_nat n) buf1 = firstn (Z.to_nat n) data
    /\ skipn (Z.to_nat n) buf1 = skipn (Z.to_nat n) buf.
Proof.
  intros Hd Hb Hw Hr Hroom.
  set (w1 := put_content ENCLAVE_DATA_FILE (firstn (Z.to_nat n) data)
               (put_content ENCLAVE_DATA_FILE [] w)).
  assert (Hlen : List.length (firstn (Z.to_nat n) data) = Z.to_nat n)
    by (apply firstn_length_le; lia).
  assert (Hsave : untrusted_save_enclave_data data n w = Ok (0, w1)).
  { unfold untrusted_save_enclave_data, open_write. rewrite Hw.
    replace (Z.of_nat (List.length data) <? n) with false
      by (symmetry; apply Z.ltb_ge; lia).
    cbn [fwrite snd put_content set_fs w_fs]. rewrite !path_eqb_refl. cbn [f_room].
    rewrite Nat.min_l by exact Hroom. reflexivity. }
  assert (Hload : untrusted_load_enclave_data buf n w1
                  = Ok (0, overlay (firstn (Z.to_nat n) data) buf, w1)).
  { unfold untrusted_load_enclave_data, open_read, w1.
    cbn [put_content set_fs w_fs]. rewrite !path_eqb_refl.
    cbn [f_content f_readable]. rewrite Hr. cbn [fread].
    rewrite Hlen, Nat.min_id.
    replace (List.length buf <? Z.to_nat n)%nat with false
      by (symmetry; apply Nat.ltb_ge; lia).
    rewrite (firstn_all2 (n := Z.to_nat n) (firstn (Z.to_nat n) data)) by lia.
    reflexivity. }
  exists w1, (overlay (firstn (Z.to_nat n) data) buf).
  split; [exact Hsave|]. split; [exact Hload|].
  split; [apply firstn_overlay; exact Hlen | apply skipn_overlay; lia].
Qed.

Lemma sealed_state_round_trip_witness :
  exists w1 buf1,
    untrusted_save_enclave_data (str "sealed!") 6
      (world_with_file ENCLAVE_DATA_FILE (plain_file (str "old contents")) [])
    = Ok (0, w1)
    /\ untrusted_load_enclave_data (str "........") 6 w1 = Ok (0, buf1, w1)
    /\ firstn (Z.to_nat 6) buf1 = firstn (Z.to_nat 6) (str "sealed!")
    /\ skipn (Z.to_nat 6) buf1 = skipn (Z.to_nat 6) (str "........").
Proof.
  apply (sealed_state_round_trip (str "sealed!") (str "........") 6
           (world_with_file ENCLAVE_DATA_FILE (plain_file (str "old contents")) []));
    [vm_compute; discriminate | vm_compute; discriminate
     | reflexivity | reflexivity | vm_compute; lia].
Defined.

(** A save leaves the console, the handle and the other files alone. *)
Lemma save_frame data n w r w1 :
  untrusted_save_enclave_data data n w = Ok (r, w1) ->
  w_stdin w1 = w_stdin w /\ w_stdout w1 = w_stdout w
  /\ w_home w1 = w_home w /\ global_eid w1 = global_eid w
  /\ (forall q, q <> ENCLAVE_DATA_FILE -> w_fs w1 q = w_fs w q).
Proof.
  unfold untrusted_save_enclave_data, open_write.
  destruct (f_writable (w_fs w ENCLAVE_DATA_FILE)).
  - destruct (Z.of_nat (List.length data) <? n); [discriminate|].
    intros H. inversion H; subst. clear H.
    cbn [fwrite snd put_content set_fs w_fs w_stdin w_stdout w_home global_eid].
    repeat split.
    intros q Hq. rewrite !(path_eqb_neq _ q Hq). reflexivity.
  - intros H. inversion H; subst. repeat split.
Qed.

(** X8.  A save touches the sealed-state file only: the console, the
    enclave handle and every other file are as before.  When it returns 1
    nothing at all has changed; when it returns 0 the file holds the
    leading bytes of the data, as many as were asked for or as the write
    could store, and nothing of what it held before. *)
Theorem save_touches_only_the_sealed_file (data : list ascii) (n : Z)
    (w : world) (r : Z) (w1 : world) :
  untrusted_save_enclave_data data n w = Ok (r, w1) ->
  w_stdin w1 = w_stdin w /\ w_stdout w1 = w_stdout w
  /\ w_home w1 = w_home w /\ global_eid w1 = global_eid w
  /\ (forall q, q <> ENCLAVE_DATA_FILE -> w_fs w1 q = w_fs w q)
  /\ (r = 1 -> w1 = w)
  /\ (r = 0 ->
      f_content (w_fs w1 ENCLAVE_DATA_FILE)
      = Some (firstn (Nat.min (Z.to_nat n) (f_room (w_fs w ENCLAVE_DATA_FILE))) data)).
Proof.
  intros H.
  destruct (save_frame data n w r w1 H) as (H1 & H2 & H3 & H4 & H5).
  split; [exact H1|]. split; [exact H2|]. split; [exact H3|].
  split; [exact H4|]. split; [exact H5|].
  revert H. unfold untrusted_save_enclave_data, open_write.
  destruct (f_writable (w_fs w ENCLAVE_DATA_FILE)).
  - destruct (Z.of_nat (List.length data) <? n); [discriminate|].
    intros H. inversion H; subst. clear H. split; [discriminate|]. intros _.
    cbn [fwrite snd put_content set_fs w_fs].
    rewrite !path_eqb_refl. reflexivity.
  - intros H. inversion H; subst. split; [reflexivity | discriminate].
Qed.

Lemma save_touches_only_the_sealed_file_witness :
  let w := world_with_file ENCLAVE_DATA_FILE (plain_file (str "old contents")) [] in
  exists w1,
    untrusted_save_enclave_data (str "new") 3 w = Ok (0, w1)
    /\ f_content (w_fs w1 ENCLAVE_DATA_FILE) = Some (str "new")
    /\ w_fs w1 (str "/root/enclave.token") = w_fs w (str "/root/enclave.token").
Proof.
  cbv zeta. eexists. split; [reflexivity|].
  destruct (save_touches_only_the_sealed_file (str "new") 3
              (world_with_file ENCLAVE_DATA_FILE (plain_file (str "old contents")) [])
              0 _ eq_refl) as (_ & _ & _ & _ & Hfs & _ & Hc).
  split; [exact (Hc eq_refl)|]. apply Hfs. discriminate.
Defined.

(** A load leaves the world as it is. *)
Lemma load_frame buf n w r buf1 w1 :
  untrusted_load_enclave_data buf n w = Ok (r, buf1, w1) -> w1 = w.
Proof.
  unfold untrusted_load_enclave_data.
  destruct (open_read ENCLAVE_DATA_FILE w) as [fp|].
  - destruct (fread buf (Z.to_nat n) fp) as [got b].
    destruct (List.length buf <? got)%nat; [discriminate|].
    intros H. inversion H. reflexivity.
  - intros H. inversion H. reflexivity.
Qed.

(** X9.  A load changes nothing outside the caller's buffer, keeps the
    length of the buffer and the cells from index [n] on, and when it
    returns 1 the buffer is exactly as it was. *)
Theorem load_touches_only_the_buffer (buf : list ascii) (n : Z) (w : world)
    (r : Z) (buf1 : list ascii) (w1 : world) :
  untrusted_load_enclave_data buf n w = Ok (r, buf1, w1) ->
  w1 = w
  /\ List.length buf1 = List.length buf
  /\ skipn (Z.to_nat n) buf1 = skipn (Z.to_nat n) buf
  /\ (r = 1 -> buf1 = buf).
Proof.
  intros H. split; [exact (load_frame buf n w r buf1 w1 H)|].
  revert H. unfold untrusted_load_enclave_data.
  destruct (open_read ENCLAVE_DATA_FILE w) as [fp|] eqn:Eo.
  - apply open_read_reading in Eo as (c & -> & _). cbn [fread].
    destruct (List.length buf <? Nat.min (Z.to_nat n) (List.length c))%nat eqn:El;
      [discriminate|].
    apply Nat.ltb_ge in El.
    intros H. inversion H; subst. clear H.
    assert (Hf : List.length (firstn (Z.to_nat n) c)
                 = Nat.min (Z.to_nat n) (List.length c)) by apply length_firstn.
    split; [apply length_overlay; lia|].
    split; [apply skipn_overlay; lia | discriminate].
  - intros H. inversion H; subst. repeat split.
Qed.

(** A file of two bytes read into a buffer of four. *)
Lemma load_touches_only_the_buffer_witness :
  let w := world_with_file ENCLAVE_DATA_FILE (plain_file (str "ab")) [] in
  untrusted_load_enclave_data (str "wxyz") 4 w = Ok (0, str "abyz", w)
  /\ List.length (str "abyz") = List.length (str "wxyz")
  /\ skipn (Z.to_nat 4) (str "abyz") = skipn (Z.to_nat 4) (str "wxyz").
Proof.
  cbv zeta. split; [reflexivity|].
  destruct (load_touches_only_the_buffer (str "wxyz") 4
              (world_with_file ENCLAVE_DATA_FILE (plain_file (str "ab")) [])
              0 (str "abyz") _ eq_refl) as (_ & Hlen & Hskip & _).
  split; [exact Hlen | exact Hskip].
Defined.

(** ** The bridges of the OCALL table *)

Lemma print_string_frame s w w1 :
  untrusted_print_string s w = Ok w1 ->
  w_stdin w1 = w_stdin w /\ w_home w1 = w_home w /\ global_eid w1 = global_eid w
  /\ w_fs w1 = w_fs w
  /\ exists text, c_str s = Some text /\ w_stdout w1 = w_stdout w ++ text.
Proof.
  unfold untrusted_print_string. destruct (c_str s) as [text|]; [|discriminate].
  intros H. inversion H; subst. repeat split. eauto.
Qed.

(** X10.  Whatever bridge an index of the table dispatches to, and
    whatever the host function behind it returns, the bridge answers
    [SGX_SUCCESS]; it does not read the console, leaves the enclave handle
    alone and changes no file but the sealed-state file. *)
Theorem table_bridges_answer_success (index : Z) (p : bridge_ptr)
    (ms : bridge_block p) (w : world) (st : Z) (ms1 : bridge_block p) (w1 : world) :
  ocall_dispatch ocall_table_Enclave index = Some p ->
  call_bridge p ms w = Ok (st, ms1, w1) ->
  st = SGX_SUCCESS
  /\ w_stdin w1 = w_stdin w
  /\ w_home w1 = w_home w
  /\ global_eid w1 = global_eid w
  /\ (forall q, q <> ENCLAVE_DATA_FILE -> w_fs w1 q = w_fs w q).
Proof.
  intros _. destruct p; cbn [call_bridge bridge_block] in *.
  - unfold Enclave_untrusted_print_string.
    destruct (untrusted_print_string _ w) as [w2|f] eqn:E; cbn [bind]; [|discriminate].
    intros H. inversion H; subst. clear H.
    apply print_string_frame in E as (Hin & Hh & He & Hfs & _).
    repeat split; try assumption. intros q _. rewrite Hfs. reflexivity.
  - unfold Enclave_untrusted_save_enclave_data.
    destruct (untrusted_save_enclave_data _ _ w) as [[r w2]|f] eqn:E; cbn [bind];
      [|discriminate].
    intros H. inversion H; subst. clear H. cbn [fst snd].
    apply save_frame in E as (Hin & _ & Hh & He & Hfs).
    repeat split; assumption.
  - unfold Enclave_untrusted_load_enclave_data.
    destruct (untrusted_load_enclave_data _ _ w) as [[[r b] w2]|f] eqn:E; cbn [bind];
      [|discriminate].
    intros H. inversion H; subst. clear H. cbn [fst snd].
    apply load_frame in E as ->. repeat split.
Qed.

Lemma table_bridges_answer_success_witness :
  let w := empty_world (str "typed") in
  let ms := {| ms_untrusted_save_enclave_data_t.ms_retval := 7;
               ms_untrusted_save_enclave_data_t.ms_sealed_data := str "blob";
               ms_untrusted_save_enclave_data_t.ms_sealed_size := 4 |} in
  let ms1 := {| ms_untrusted_save_enclave_data_t.ms_retval := 1;
                ms_untrusted_save_enclave_data_t.ms_sealed_data := str "blob";
                ms_untrusted_save_enclave_data_t.ms_sealed_size := 4 |} in
  call_bridge Ptr_Enclave_untrusted_save_enclave_data ms w = Ok (0, ms1, w)
  /\ 0 = SGX_SUCCESS
  /\ w_stdin w = w_stdin w.
Proof.
  cbv zeta. split; [reflexivity|].
  destruct (table_bridges_answer_success 1 Ptr_Enclave_untrusted_save_enclave_data
              {| ms_untrusted_save_enclave_data_t.ms_retval := 7;
                 ms_untrusted_save_enclave_data_t.ms_sealed_data := str "blob";
                 ms_untrusted_save_enclave_data_t.ms_sealed_size := 4 |}
              (empty_world (str "typed")) 0 _ _ eq_refl eq_refl)
    as (Hs & Hin & _).
  split; [exact Hs | exact Hin].
Defined.

(** ** Error reporting, continued *)

Lemma print_error_message_found (P : platform) (ret : Z) (w : world) (e : sgx_errlist_t) :
  find (fun e0 => ret =? err e0) (sgx_errlist P) = Some e ->
  print_error_message P ret w = report_entry e w.
Proof.
  intros Hfind. unfold print_error_message.
  pose proof (errlist_loop_find ret (sgx_errlist P) O w) as H.
  rewrite Hfind in H. destruct H as (k & Hk & ->). cbn [Nat.add].
  replace (Nat.eqb k (List.length (sgx_errlist P))) with false
    by (symmetry; apply Nat.eqb_neq; lia).
  reflexivity.
Qed.

(** X11.  When the SDK gives the fifteen listed names fifteen different
    values, every entry of [sgx_errlist] is reported for its own status:
    its suggestion, if it has one, and then its message. *)
Theorem listed_status_prints_own_entry (P : platform) (e : sgx_errlist_t) (w : world) :
  NoDup (map err (sgx_errlist P)) ->
  In e (sgx_errlist P) ->
  w_stdout (print_error_message P (err e) w)
  = w_stdout w
    ++ match sug e with
       | Some s => line (str "Info: " ++ s)
       | None => []
       end
    ++ line (str "Error: " ++ msg e).
Proof.
  intros Hnd Hin.
  rewrite (print_error_message_found P (err e) w e)
    by (apply listed_status_finds_own_entry; assumption).
  unfold report_entry. destruct (sug e); cbn [w_stdout printf].
  - rewrite <- app_assoc. reflexivity.
  - reflexivity.
Qed.

Lemma listed_status_prints_own_entry_witness :
  w_stdout (print_error_message (example_platform 0 0 0) 4 (empty_world []))
  = line (str "Info: Please refer to the sample " ++ [dquote]
          ++ str "PowerTransition" ++ [dquote] ++ str " for details.")
    ++ line (str "Error: Power transition occurred.").
Proof.
  apply (listed_status_prints_own_entry (example_platform 0 0 0)
           {| err := 4; msg := str "Power transition occurred.";
              sug := Some (str "Please refer to the sample " ++ [dquote]
                           ++ str "PowerTransition" ++ [dquote]
                           ++ str " for details.") |}
           (empty_world [])).
  - exact sdk_values_differ.
  - cbn [sgx_errlist example_platform sgx_status_value sdk_status_value In]. tauto.
Defined.

(** ** Enclave initialisation, continued *)

(** X12.  The path of the token file fits the buffer [token_path] of
    [MAX_PATH] bytes, terminator included, whenever the file name alone
    does; it is the file name, or the home directory, a slash and the file
    name. *)
Theorem token_path_fits (P : platform) (w : world) :
  Z.of_nat (List.length (TOKEN_FILENAME P)) + 1 <= MAX_PATH P ->
  Z.of_nat (List.length (token_path P w)) + 1 <= MAX_PATH P
  /\ (token_path P w = TOKEN_FILENAME P
      \/ exists home_dir,
           w_home w = Some home_dir
           /\ token_path P w = home_dir ++ str "/" ++ TOKEN_FILENAME P).
Proof.
  intros Hname. unfold token_path.
  destruct (w_home w) as [home_dir|]; [|split; [exact Hname | left; reflexivity]].
  destruct (_ <=? MAX_PATH P) eqn:E.
  - apply Z.leb_le in E. split.
    + rewrite !length_app. cbn [str list_ascii_of_string List.length]. lia.
    + right. eauto.
  - split; [exact Hname | left; reflexivity].
Qed.

Lemma token_path_fits_witness :
  Z.of_nat (List.length (token_path (example_platform 0 0 0) (empty_world []))) + 1
  <= MAX_PATH (example_platform 0 0 0)
  /\ (token_path (example_platform 0 0 0) (empty_world [])
      = TOKEN_FILENAME (example_platform 0 0 0)
      \/ exists home_dir,
           w_home (empty_world []) = Some home_dir
           /\ token_path (example_platform 0 0 0) (empty_world [])
              = home_dir ++ str "/" ++ TOKEN_FILENAME (example_platform 0 0 0)).
Proof.
  apply (token_path_fits (example_platform 0 0 0) (empty_world [])).
  vm_compute. discriminate.
Defined.

(** The return value of [initialize_enclave]. *)
Lemma initialize_enclave_result (P : platform) (w : world) :
  fst (initialize_enclave P w)
  = (if fst (fst (fst (creation_answer P w))) =? SGX_SUCCESS then 0 else -1).
Proof.
  unfold creation_answer, initialize_enclave, token_of.
  destruct (load_launch_token P w) as [[fp token] w1]. cbn [fst snd].
  destruct (sgx_create_enclave P _ _ token 0 w1) as [[[ret token1] updated] eid].
  cbn [fst snd].
  destruct (ret =? SGX_SUCCESS); cbn [negb]; [|reflexivity].
  destruct fp as [fp|]; [|reflexivity].
  destruct (updated =? 0); [reflexivity|].
  destruct (open_write _ _) as [[out|] w3]; [|reflexivity].
  destruct (fwrite _ _ out w3) as [write_num w4].
  destruct (negb _); reflexivity.
Qed.

(** X13.  [initialize_enclave] fails exactly when [sgx_create_enclave]
    does: it returns -1 when the status of creation is not [SGX_SUCCESS]
    and 0 when it is, whatever happens to the token file; the handle is
    the one creation answers. *)
Theorem initialize_enclave_return_code (P : platform) (w : world) :
  fst (initialize_enclave P w)
  = (if fst (fst (fst (creation_answer P w))) =? SGX_SUCCESS then 0 else -1)
  /\ global_eid (snd (initialize_enclave P w)) = snd (creation_answer P w).
Proof.
  split; [apply initialize_enclave_result|].
  unfold creation_answer, initialize_enclave, token_of.
  destruct (load_launch_token P w) as [[fp token] w1]. cbn [fst snd].
  destruct (sgx_create_enclave P _ _ token 0 w1) as [[[ret token1] updated] eid].
  cbn [fst snd].
  destruct (negb (ret =? SGX_SUCCESS)).
  { cbn [snd]. apply print_error_message_frame. }
  destruct fp as [fp|]; [|reflexivity].
  destruct (updated =? 0); [reflexivity|].
  unfold open_write. cbn [w_fs set_eid].
  destruct (f_writable (w_fs w1 (token_path P w))); [|reflexivity].
  cbn [fwrite].
  match goal with
  | |- context [if ?b then _ else _] => destruct b
  end; reflexivity.
Qed.

Lemma put_content_other p data w q :
  q <> p -> w_fs (put_content p data w) q = w_fs w q.
Proof. intros H. cbn [put_content set_fs w_fs]. rewrite (path_eqb_neq p q H). reflexivity. Qed.

Lemma put_content_flags p data w q :
  same_flags (w_fs (put_content p data w) q) (w_fs w q).
Proof.
  cbn [put_content set_fs w_fs]. destruct (path_eqb q p); repeat split.
Qed.

Lemma same_flags_trans f g h : same_flags f g -> same_flags g h -> same_flags f h.
Proof. unfold same_flags. intuition congruence. Qed.

Lemma same_flags_refl f : same_flags f f.
Proof. repeat split. Qed.

(** What the two [fopen] attempts and the read leave of the world. *)
Lemma load_launch_token_frame (P : platform) (w : world) :
  let w1 := snd (load_launch_token P w) in
  w_home w1 = w_home w
  /\ global_eid w1 = global_eid w
  /\ (forall q, q <> token_path P w -> w_fs w1 q = w_fs w q)
  /\ (forall q, same_flags (w_fs w1 q) (w_fs w q))
  /\ exists out, w_stdout w1 = w_stdout w ++ out.
Proof.
  cbv zeta. unfold load_launch_token, open_token_file, open_write.
  assert (Hsame : forall w0 : world,
            w_home w0 = w_home w -> global_eid w0 = global_eid w ->
            w_fs w0 = w_fs w ->
            (exists out, w_stdout w0 = w_stdout w ++ out) ->
            w_home w0 = w_home w
            /\ global_eid w0 = global_eid w
            /\ (forall q, q <> token_path P w -> w_fs w0 q = w_fs w q)
            /\ (forall q, same_flags (w_fs w0 q) (w_fs w q))
            /\ exists out, w_stdout w0 = w_stdout w ++ out).
  { intros w0 H1 H2 H3 H4. split; [exact H1|]. split; [exact H2|].
    rewrite H3. split; [reflexivity|]. split; [intros; apply same_flags_refl | exact H4]. }
  assert (Hnil : exists out, w_stdout w = w_stdout w ++ out)
    by (exists []; rewrite app_nil_r; reflexivity).
  destruct (open_read (token_path P w) w) as [fp|].
  - destruct (fread _ _ fp) as [read_num token1].
    destruct (negb _ && negb _); cbn [snd]; apply Hsame;
      try reflexivity; cbn [w_stdout printf]; eauto.
  - destruct (f_writable (w_fs w (token_path P w))).
    + cbn [fread]. rewrite Nat.eqb_refl. cbn [negb andb snd].
      split; [reflexivity|]. split; [reflexivity|].
      split; [intros q Hq; apply put_content_other; exact Hq|].
      split; [intros q; apply put_content_flags | exact Hnil].
    + cbn [snd]. apply Hsame; try reflexivity. cbn [w_stdout printf]. eauto.
Qed.

(** X14.  [initialize_enclave] leaves the console input, the home
    directory and every file other than the token file as they were, keeps
    the permissions of every file, and only adds to the output. *)
Theorem initialize_enclave_touches_only_token_file (P : platform) (w : world) :
  let w1 := snd (initialize_enclave P w) in
  w_stdin w1 = w_stdin w
  /\ w_home w1 = w_home w
  /\ (forall q, q <> token_path P w -> w_fs w1 q = w_fs w q)
  /\ (forall q, same_flags (w_fs w1 q) (w_fs w q))
  /\ exists out, w_stdout w1 = w_stdout w ++ out.
Proof.
  cbv zeta. split; [apply initialize_enclave_stdin|].
  unfold initialize_enclave.
  pose proof (load_launch_token_frame P w) as Hl. cbv zeta in Hl.
  destruct (load_launch_token P w) as [[fp token] w1]. cbn [snd] in Hl.
  destruct Hl as (Hh & _ & Hfs & Hfl & (out & Hout)).
  destruct (sgx_create_enclave P _ _ token 0 w1) as [[[ret token1] updated] eid].
  destruct (negb (ret =? SGX_SUCCESS)).
  { cbn [snd].
    pose proof (print_error_message_frame P ret (set_eid eid w1)) as Hf.
    cbv zeta in Hf. destruct Hf as (_ & Hf2 & Hf3 & _).
    rewrite Hf2, Hf3. cbn [set_eid w_fs w_home].
    split; [exact Hh|]. split; [exact Hfs|]. split; [exact Hfl|].
    unfold print_error_message.
    destruct (errlist_loop ret (sgx_errlist P) 0 (set_eid eid w1)) as [i w2] eqn:El.
    pose proof (errlist_loop_find ret (sgx_errlist P) O (set_eid eid w1)) as Hfind.
    rewrite El in Hfind.
    assert (Hw2 : exists o, w_stdout w2 = w_stdout w ++ o).
    { destruct (find _ (sgx_errlist P)) as [e|].
      - destruct Hfind as (k & _ & Hk). inversion Hk; subst.
        unfold report_entry. destruct (sug e); cbn [w_stdout printf set_eid];
          rewrite Hout, <- ?app_assoc; eauto.
      - inversion Hfind; subst. cbn [w_stdout set_eid]. eauto. }
    destruct Hw2 as (o & Ho).
    destruct (Nat.eqb i _); [cbn [w_stdout printf]; rewrite Ho, <- app_assoc|]; eauto. }
  destruct fp as [fp|]; [|cbn [snd set_eid w_home w_fs w_stdout]; eauto 6].
  destruct (updated =? 0); [cbn [snd set_eid w_home w_fs w_stdout]; eauto 6|].
  unfold open_write. cbn [w_fs set_eid].
  destruct (f_writable (w_fs w1 (token_path P w)));
    [|cbn [snd set_eid w_home w_fs w_stdout]; eauto 6].
  cbn [fwrite].
  assert (Hcore :
    forall data,
      let w4 := put_content (token_path P w) data
                  (put_content (token_path P w) [] (set_eid eid w1)) in
      w_home w4 = w_home w
      /\ (forall q, q <> token_path P w -> w_fs w4 q = w_fs w q)
      /\ (forall q, same_flags (w_fs w4 q) (w_fs w q))
      /\ w_stdout w4 = w_stdout w ++ out).
  { intros data. cbv zeta. split; [exact Hh|]. split.
    - intros q Hq. rewrite !put_content_other by exact Hq. apply Hfs. exact Hq.
    - split; [|exact Hout].
      intros q. eapply same_flags_trans; [apply put_content_flags|].
      eapply same_flags_trans; [apply put_content_flags|]. apply Hfl. }
  match goal with
  | |- context [put_content _ ?d (put_content _ [] _)] =>
      destruct (Hcore d) as (H1 & H2 & H3 & H4)
  end.
  match goal with
  | |- context [if ?b then _ else _] => destruct b
  end; cbn [snd printf w_home w_fs w_stdout] in *.
  - split; [exact H1|]. split; [exact H2|]. split; [exact H3|].
    rewrite H4, <- app_assoc. eauto.
  - split; [exact H1|]. split; [exact H2|]. split; [exact H3|]. eauto.
Qed.

Lemma token_path_home (P : platform) (w w1 : world) :
  w_home w1 = w_home w -> token_path P w1 = token_path P w.
Proof. intros H. unfold token_path. rewrite H. reflexivity. Qed.

Lemma if_same {A : Type} (b : bool) (a : A) : (if b then a else a) = a.
Proof. destruct b; reflexivity. Qed.

Lemma load_launch_token_opens (P : platform) (w : world) :
  f_writable (w_fs w (token_path P w)) = true ->
  fst (fst (load_launch_token P w)) <> None.
Proof.
  intros Hw. unfold load_launch_token, open_token_file, open_write.
  destruct (open_read (token_path P w) w) as [fp|].
  - destruct (fread _ _ fp) as [read_num token1].
    destruct (negb _ && negb _); discriminate.
  - rewrite Hw. cbn [fread]. rewrite Nat.eqb_refl. discriminate.
Qed.

(** X15.  A token that creation updates is there for the next run: when
    creation succeeds and reports an updated token of the token's size, and
    the token file can be read and written without the write being cut
    short, the file holds that token after [initialize_enclave], and
    loading the token again yields it, without any warning. *)
Theorem launch_token_saved_and_reloaded (P : platform) (w : world) :
  let answer := creation_answer P w in
  let token1 := snd (fst (fst answer)) in
  let w1 := snd (initialize_enclave P w) in
  fst (fst (fst answer)) = SGX_SUCCESS ->
  snd (fst answer) <> 0 ->
  List.length token1 = sizeof_sgx_launch_token_t P ->
  f_readable (w_fs w (token_path P w)) = true ->
  f_writable (w_fs w (token_path P w)) = true ->
  (sizeof_sgx_launch_token_t P <= f_room (w_fs w (token_path P w)))%nat ->
  f_content (w_fs w1 (token_path P w)) = Some token1
  /\ token_of (load_launch_token P w1) = token1
  /\ w_stdout (snd (load_launch_token P w1)) = w_stdout w1.
Proof.
  cbv zeta. unfold creation_answer, token_of.
  intros Hst Hupd Hlen Hr Hw Hroom.
  pose proof (load_launch_token_opens P w Hw) as Hfp.
  pose proof (load_launch_token_frame P w) as Hl. cbv zeta in Hl.
  unfold initialize_enclave.
  destruct (load_launch_token P w) as [[fp token] w0]. cbn [fst snd] in *.
  destruct Hl as (Hh & _ & _ & Hfl & _).
  destruct (Hfl (token_path P w)) as (Hfr & Hfw & Hfroom & _).
  destruct (sgx_create_enclave P _ _ token 0 w0) as [[[ret token1] updated] eid].
  cbn [fst snd] in *. subst ret.
  change (negb (SGX_SUCCESS =? SGX_SUCCESS)) with false. cbv iota.
  destruct fp as [fp|]; [|contradiction Hfp; reflexivity].
  apply Z.eqb_neq in Hupd. rewrite Hupd.
  unfold open_write. cbn [w_fs set_eid]. rewrite Hfw, Hw.
  cbn [fwrite put_content set_fs set_eid w_fs]. rewrite !path_eqb_refl.
  cbn [f_room f_buffered].
  rewrite Hfroom, Nat.min_l by exact Hroom.
  rewrite if_same, Nat.eqb_refl. cbn [negb snd].
  rewrite firstn_all2 by lia.
  set (w1 := put_content (token_path P w) token1 _).
  assert (Hpath : token_path P w1 = token_path P w)
    by (apply token_path_home; exact Hh).
  assert (Hc : f_content (w_fs w1 (token_path P w)) = Some token1).
  { subst w1. cbn [put_content set_fs w_fs]. rewrite !path_eqb_refl. reflexivity. }
  assert (Hrd : f_readable (w_fs w1 (token_path P w)) = true).
  { subst w1. cbn [put_content set_fs set_eid w_fs]. rewrite !path_eqb_refl.
    cbn [f_readable]. rewrite Hfr. exact Hr. }
  split; [exact Hc|].
  unfold load_launch_token, open_token_file, open_read.
  rewrite Hpath, Hc, Hrd. cbn [fread].
  rewrite Hlen, Nat.min_id, Nat.eqb_refl.
  rewrite andb_false_r. cbn [fst snd].
  split; [|reflexivity].
  rewrite firstn_all2 by lia. unfold overlay.
  rewrite skipn_all2 by (unfold zero_token; rewrite repeat_length; lia).
  apply app_nil_r.
Qed.

Lemma launch_token_saved_and_reloaded_witness :
  let P := token_updating_platform in
  let w := world_with_file (str "/root/enclave.token") (plain_file (str "stale")) [] in
  let w1 := snd (initialize_enclave P w) in
  f_content (w_fs w1 (token_path P w)) = Some (repeat "k"%char 1024)
  /\ token_of (load_launch_token P w1) = repeat "k"%char 1024
  /\ w_stdout (snd (load_launch_token P w1)) = w_stdout w1.
Proof.
  cbv zeta.
  apply (launch_token_saved_and_reloaded token_updating_platform
           (world_with_file (str "/root/enclave.token") (plain_file (str "stale")) [])).
  - reflexivity.
  - vm_compute. discriminate.
  - vm_compute. reflexivity.
  - reflexivity.
  - reflexivity.
  - vm_compute. lia.
Defined.

(** ** The run of [main], continued *)

(** X16.  [main] returns 0 or -1, and [sgx_destroy_enclave] is called on
    the run that returns 0 only: a run that returns -1 is the same run
    whatever destroying the enclave would do. *)
Theorem main_destroys_only_on_success (P : platform) (u : indeterminate)
    (w : world) (r : Z) (w1 : world) :
  main P u w = Ok (r, w1) ->
  (r = 0 \/ r = -1)
  /\ (r = -1 -> forall d, main (with_destroy P d) u w = Ok (-1, w1)).
Proof.
  intros H.
  assert (Hd : forall d,
            (r = 0 \/ r = -1)
            /\ (r = -1 -> main (with_destroy P d) u w = Ok (-1, w1))).
  { intros d. unfold main in *.
    change (initialize_enclave (with_destroy P d) w) with (initialize_enclave P w).
    destruct (initialize_enclave P w) as [r0 w0].
    destruct (r0 <? 0).
    { inversion H; subst. split; [right; reflexivity | intros _; reflexivity]. }
    change (get_public_key (with_destroy P d)) with (get_public_key P).
    destruct (get_public_key P (global_eid w0) (Some (u_status u)) (u_pk u)
                (u_ms_retval u) w0) as [[[st rv] pk] wk].
    destruct (negb (_ =? 0)).
    { inversion H; subst. split; [right; reflexivity | intros _; reflexivity]. }
    destruct (read_inputs u (print_public_key pk wk)) as [[[cd ds] wi]|f];
      cbn [bind] in *; [|discriminate H].
    destruct (hex2buf (Some ds) (u_heap u)) as [[nb ret]|f];
      cbn [bind] in *; [|discriminate H].
    destruct (nb =? 0).
    { inversion H; subst. split; [right; reflexivity | intros _; reflexivity]. }
    change (webauthn_get_signature (with_destroy P d))
      with (webauthn_get_signature P).
    destruct (webauthn_get_signature P _ _ _ _ _ _ _ wi) as [[[st2 rv2] sg] ws].
    destruct (negb (rv2 =? 0)).
    { inversion H; subst. split; [right; reflexivity | intros _; reflexivity]. }
    inversion H; subst. split; [left; reflexivity | discriminate]. }
  split; [exact (proj1 (Hd (fun _ w0 => w0)))|].
  intros Hr d. exact (proj2 (Hd d) Hr).
Qed.

Lemma main_destroys_only_on_success_witness :
  exists w1,
    main (example_platform 0 0 0) example_indeterminate
      (empty_world (scenario_json ++ newline :: str "abc" ++ [newline]))
    = Ok (-1, w1)
    /\ forall d,
         main (with_destroy (example_platform 0 0 0) d) example_indeterminate
           (empty_world (scenario_json ++ newline :: str "abc" ++ [newline]))
         = Ok (-1, w1).
Proof.
  eexists. split; [vm_compute; reflexivity|].
  refine (proj2 (main_destroys_only_on_success (example_platform 0 0 0)
                   example_indeterminate
                   (empty_world (scenario_json ++ newline :: str "abc" ++ [newline]))
                   (-1) _ _) eq_refl).
  vm_compute. reflexivity.
Defined.

(** X17.  When creation of the enclave fails, [main] returns -1 after the
    two lines about the failure and after taking one character from the
    console; nothing is called in the enclave: the run does not depend on
    [sgx_ecall], on the signing proxy or on [sgx_destroy_enclave]. *)
Theorem main_initialization_failure (P : platform) (u : indeterminate) (w : world) :
  fst (fst (fst (creation_answer P w))) <> SGX_SUCCESS ->
  exists w1,
    main P u w = Ok (-1, w1)
    /\ w_stdin w1 = tl (w_stdin w)
    /\ w_stdout w1
       = w_stdout (snd (initialize_enclave P w))
         ++ line (str "Failed to initialize enclave!")
         ++ line (str "Enter a character before exit ...")
    /\ forall e f d,
         main (with_ecall (with_signer (with_destroy P d) f) e) u w = Ok (-1, w1).
Proof.
  intros Hst.
  pose proof (initialize_enclave_result P w) as Hr.
  apply Z.eqb_neq in Hst. rewrite Hst in Hr.
  pose proof (initialize_enclave_stdin P w) as Hin.
  assert (Hmain : forall Q, initialize_enclave Q w = initialize_enclave P w ->
            main Q u w
            = Ok (-1, set_stdin (getchar (w_stdin (snd (initialize_enclave P w))))
                        (printf (line (str "Enter a character before exit ..."))
                           (printf (line (str "Failed to initialize enclave!"))
                              (snd (initialize_enclave P w)))))).
  { intros Q HQ. unfold main. rewrite HQ.
    destruct (initialize_enclave P w) as [r0 w0]. cbn [fst snd] in *. subst r0.
    reflexivity. }
  eexists. split; [apply Hmain; reflexivity|].
  split; [cbn [w_stdin set_stdin]; unfold getchar; rewrite Hin; reflexivity|].
  split; [cbn [w_stdout set_stdin printf]; rewrite <- app_assoc; reflexivity|].
  intros e f d. apply Hmain. reflexivity.
Qed.

Lemma main_initialization_failure_witness :
  exists w1,
    main (example_platform 8198 0 0) example_indeterminate (empty_world (str "q"))
    = Ok (-1, w1)
    /\ w_stdin w1 = tl (w_stdin (empty_world (str "q")))
    /\ w_stdout w1
       = w_stdout (snd (initialize_enclave (example_platform 8198 0 0)
                          (empty_world (str "q"))))
         ++ line (str "Failed to initialize enclave!")
         ++ line (str "Enter a character before exit ...")
    /\ forall e f d,
         main (with_ecall (with_signer (with_destroy (example_platform 8198 0 0) d) f) e)
           example_indeterminate (empty_world (str "q"))
         = Ok (-1, w1).
Proof.
  apply (main_initialization_failure (example_platform 8198 0 0) example_indeterminate
           (empty_world (str "q"))).
  vm_compute. discriminate.
Defined.

(** X18.  When initialisation succeeds and the status cell holds a value
    other than 0 after [get_public_key], [main] returns -1 after printing
    that value in decimal, without reading the console and without
    signing.  The status [get_public_key] returns is not looked at: after
    a failed [sgx_ecall] the value printed is what the uninitialised
    [status] held. *)
Theorem main_key_retrieval_error (P : platform) (u : indeterminate) (w : world)
    (v : Z) :
  fst (initialize_enclave P w) = 0 ->
  retval_of (key_retrieval P u w) = Some v ->
  v <> 0 ->
  main P u w
  = Ok (-1, printf (line (str "App Error: " ++ printf_d v ++ str "!"))
              (world_of (key_retrieval P u w)))
  /\ (status_of (key_retrieval P u w) <> SGX_SUCCESS -> v = u_status u)
  /\ forall f d, main (with_signer (with_destroy P d) f) u w = main P u w.
Proof.
  unfold key_retrieval, retval_of, status_of, world_of. intros Hr Hv Hne.
  assert (Hmain : forall Q, initialize_enclave Q w = initialize_enclave P w ->
            (forall eid rv pk ms0 w0,
               get_public_key Q eid rv pk ms0 w0 = get_public_key P eid rv pk ms0 w0) ->
            main Q u w
            = Ok (-1, printf (line (str "App Error: " ++ printf_d v ++ str "!"))
                        (snd (get_public_key P
                                (global_eid (snd (initialize_enclave P w)))
                                (Some (u_status u)) (u_pk u) (u_ms_retval u)
                                (snd (initialize_enclave P w)))))).
  { intros Q HQi HQg. unfold main. rewrite HQi.
    destruct (initialize_enclave P w) as [r0 w0]. cbn [fst snd] in *. subst r0.
    change (0 <? 0) with false. cbv iota. rewrite HQg.
    destruct (get_public_key P (global_eid w0) (Some (u_status u)) (u_pk u)
                (u_ms_retval u) w0) as [[[st rv] pk] wk].
    cbn [fst snd] in *. subst rv.
    apply Z.eqb_neq in Hne. rewrite Hne. reflexivity. }
  split; [apply Hmain; reflexivity|]. split.
  - revert Hv. unfold get_public_key.
    destruct (sgx_ecall P _ 0 _ _ _) as [[st ms1] w1]. cbn [fst snd].
    intros Hv Hst. apply Z.eqb_neq in Hst. rewrite Hst in Hv. congruence.
  - intros f d. rewrite (Hmain P eq_refl (fun _ _ _ _ _ => eq_refl)).
    apply Hmain; reflexivity.
Qed.

(** On a platform whose calls fail with status 1, the uninitialised
    3735928559 is what is reported, as the [int] -559038737. *)
Lemma main_key_retrieval_error_witness :
  main (example_platform 0 1 0) example_indeterminate (empty_world [])
  = Ok (-1, printf (line (str "App Error: " ++ printf_d 3735928559 ++ str "!"))
              (world_of (key_retrieval (example_platform 0 1 0) example_indeterminate
                           (empty_world []))))
  /\ printf_d 3735928559 = str "-559038737".
Proof.
  split; [|reflexivity].
  apply (main_key_retrieval_error (example_platform 0 1 0) example_indeterminate
           (empty_world []) 3735928559).
  - reflexivity.
  - reflexivity.
  - discriminate.
Defined.

Lemma hex2buf_empty buf fresh :
  c_str buf = Some [] -> hex2buf (Some buf) fresh = Ok (0, Some []).
Proof. intros H. unfold hex2buf. rewrite H. reflexivity. Qed.

(** X19.  An empty hex line is rejected like one of odd length: when the
    JSON line fits its buffer and is followed by an empty line, and key
    retrieval does not read the console, [main] returns -1, its output ends
    with an error report, and the signing proxy is not called. *)
Theorem main_empty_hex_line (P : platform) (u : indeterminate) (w : world)
    (l1 rest : list ascii) :
  text_line l1 = true -> (List.length l1 <= 1022)%nat ->
  key_retrieval_keeps_stdin P ->
  w_stdin w = l1 ++ newline :: newline :: rest ->
  exists w1,
    main P u w = Ok (-1, w1)
    /\ error_printed (w_stdout w1)
    /\ forall f, main (with_signer P f) u w = Ok (-1, w1).
Proof.
  intros H1 L1 Hkeep Hin.
  assert (Hcore : forall Q, initialize_enclave Q w = initialize_enclave P w ->
            (forall eid rv pk ms0 w0,
               get_public_key Q eid rv pk ms0 w0 = get_public_key P eid rv pk ms0 w0) ->
            main Q u w = main P u w
            /\ exists w1, main P u w = Ok (-1, w1) /\ error_printed (w_stdout w1)).
  { intros Q HQi HQg. unfold main. rewrite HQi.
    pose proof (initialize_enclave_stdin P w) as Hi.
    destruct (initialize_enclave P w) as [r w0]. cbn [snd] in Hi.
    destruct (r <? 0).
    { split; [reflexivity|]. eexists. split; [reflexivity|].
      right; left. exists (w_stdout w0).
      cbn [w_stdout set_stdin printf]. rewrite <- app_assoc. reflexivity. }
    rewrite HQg.
    pose proof (get_public_key_world P (global_eid w0) (Some (u_status u)) (u_pk u)
                  (u_ms_retval u) w0) as Hg.
    destruct (get_public_key P (global_eid w0) (Some (u_status u)) (u_pk u)
                (u_ms_retval u) w0) as [[[st rv] pk] w1].
    unfold world_of in Hg. cbn [snd] in Hg.
    assert (Hw1 : w_stdin w1 = l1 ++ newline :: [] ++ newline :: rest).
    { rewrite Hg, Hkeep, Hi. exact Hin. }
    destruct (negb (_ =? 0)).
    { split; [reflexivity|]. eexists. split; [reflexivity|].
      right; right. eexists. apply ends_with_printf. }
    destruct (read_inputs_hex_line u (print_public_key pk w1) l1 [] rest
                H1 L1 eq_refl Hw1) as (b1 & b2 & w2 & Hr & Hs).
    rewrite Hr. cbn [bind].
    rewrite (hex2buf_empty b2) by exact Hs.
    cbn [bind]. change (0 =? 0) with true. cbv iota.
    split; [reflexivity|]. eexists. split; [reflexivity|].
    left. apply ends_with_printf. }
  destruct (Hcore P eq_refl (fun _ _ _ _ _ => eq_refl)) as (_ & w1 & Hm & He).
  exists w1. split; [exact Hm|]. split; [exact He|].
  intros f.
  destruct (Hcore (with_signer P f) eq_refl (fun _ _ _ _ _ => eq_refl)) as (Hq & _).
  rewrite Hq. exact Hm.
Qed.

Lemma main_empty_hex_line_witness :
  exists w1,
    main (example_platform 0 0 0) example_indeterminate
      (empty_world (scenario_json ++ [newline; newline]))
    = Ok (-1, w1)
    /\ error_printed (w_stdout w1)
    /\ forall f,
         main (with_signer (example_platform 0 0 0) f) example_indeterminate
           (empty_world (scenario_json ++ [newline; newline]))
         = Ok (-1, w1).
Proof.
  apply (main_empty_hex_line (example_platform 0 0 0) example_indeterminate
           (empty_world (scenario_json ++ [newline; newline])) scenario_json []).
  - reflexivity.
  - vm_compute. lia.
  - intros eid ms w. reflexivity.
  - reflexivity.
Defined.

Lemma lower_hex_text_line l :
  forallb is_lower_hex_digit l = true -> text_line l = true.
Proof.
  unfold text_line. induction l as [|c l IH]; [reflexivity|].
  cbn [forallb]. intros H. apply andb_true_iff in H as [Hc Hl].
  rewrite (IH Hl), andb_true_r.
  apply lower_hex_digit_cases in Hc.
  cbn [str list_ascii_of_string In] in Hc.
  repeat (destruct Hc as [<- | Hc]; [reflexivity|]). contradiction Hc.
Qed.

Lemma hex2buf_even (buf text : list ascii) (fresh : nat -> ascii) :
  c_str buf = Some text ->
  Nat.even (List.length text) = true ->
  Z.of_nat (List.length text) < two_32 ->
  hex2buf (Some buf) fresh
  = Ok (Z.of_nat (List.length text) / 2,
        Some (hex2buf_loop text (malloc fresh (List.length text / 2)))).
Proof.
  intros Hstr Heven Hlen.
  apply Nat.even_spec in Heven as [k Hk].
  assert (Hdiv : Z.of_nat (List.length text) / 2 = Z.of_nat k).
  { rewrite Hk, Nat2Z.inj_mul, Z.mul_comm. apply Z.div_mul. discriminate. }
  assert (Hdivn : (List.length text / 2 = k)%nat).
  { rewrite Hk, Nat.mul_comm. apply Nat.div_mul. discriminate. }
  unfold hex2buf. rewrite Hstr.
  assert (Hu : to_uint32 (Z.of_nat (List.length text)) = Z.of_nat (List.length text)).
  { unfold to_uint32. apply Z.mod_small. lia. }
  rewrite Hu.
  replace (Z.of_nat (List.length text) mod 2 =? 0) with true.
  2:{ symmetry. apply Z.eqb_eq. rewrite Hk, Nat2Z.inj_mul, Z.mul_comm.
      apply Z.mod_mul. discriminate. }
  cbn [negb]. rewrite Hdiv, Hdivn, Nat2Z.id. reflexivity.
Qed.

(** X20.  What is signed is what was typed.  When initialisation succeeds,
    key retrieval leaves 0 in the status cell and the console input alone,
    and the console holds a JSON line and a line of lower-case hex digits,
    not empty, of even length, each fitting its buffer, then [main] calls
    the signing proxy once, with the bytes the hex line encodes, their
    number, and the whole [client_data_json] buffer of 1024 bytes: the JSON
    line, two NUL bytes and behind them what the uninitialised buffer held.
    It returns -1 with the signing error when the proxy leaves a status
    other than 0, and otherwise prints the signature, destroys the enclave
    and returns 0. *)
Theorem main_signs_what_was_typed (P : platform) (u : indeterminate) (w : world)
    (l1 l2 rest : list ascii) :
  fst (initialize_enclave P w) = 0 ->
  retval_of (key_retrieval P u w) = Some 0 ->
  w_stdin (world_of (key_retrieval P u w)) = w_stdin w ->
  text_line l1 = true -> (List.length l1 <= 1022)%nat ->
  forallb is_lower_hex_digit l2 = true -> l2 <> [] ->
  Nat.even (List.length l2) = true -> (List.length l2 <= 254)%nat ->
  w_stdin w = l1 ++ newline :: l2 ++ newline :: rest ->
  exists bytes wi,
    hex_encode bytes = l2
    /\ w_stdin wi = rest
    /\ w_stdout wi
       = w_stdout (world_of (key_retrieval P u w))
         ++ public_key_text (output_of (key_retrieval P u w)) ++ prompts_text
    /\ main P u w
       = (let '(_, status, signature, ws) :=
            webauthn_get_signature P (global_eid wi) 0
              bytes (Z.of_nat (List.length l2) / 2)
              (l1 ++ NUL :: NUL
                  :: skipn (List.length l1 + 2)
                       (map (u_client_data_json u)
                          (seq 0 (Z.to_nat client_data_json_size))))
              client_data_json_size (u_signature u) wi in
          if negb (status =? 0) then
            Ok (-1, printf (line (str "Signature Error: " ++ printf_d status
                                  ++ str "!")) ws)
          else
            Ok (0, sgx_destroy_enclave P (global_eid (print_signature signature ws))
                     (print_signature signature ws))).
Proof.
  unfold key_retrieval, retval_of, world_of, output_of.
  intros Hr Hv Hkeep H1 L1 Hhex Hne Heven L2 Hin.
  unfold main.
  destruct (initialize_enclave P w) as [r0 w0]. cbn [fst snd] in *. subst r0.
  change (0 <? 0) with false. cbv iota.
  destruct (get_public_key P (global_eid w0) (Some (u_status u)) (u_pk u)
              (u_ms_retval u) w0) as [[[st rv] pk] wk].
  cbn [fst snd] in *. subst rv.
  change (negb (0 =? 0)) with false. cbv iota.
  pose proof (lower_hex_text_line l2 Hhex) as H2.
  rewrite (read_inputs_lines u (print_public_key pk wk) l1 l2 rest)
    by (try assumption; rewrite print_public_key_stdin, Hkeep; exact Hin).
  cbn [bind].
  assert (Hlen2 : Z.of_nat (List.length l2) < two_32) by (unfold two_32; lia).
  rewrite (hex2buf_even _ l2) by (try assumption; apply c_str_text; exact H2).
  cbn [bind].
  assert (Hk : exists k, List.length l2 = (2 * S k)%nat).
  { apply Nat.even_spec in Heven as [k Hk].
    destruct k as [|k]; [destruct l2; [contradiction Hne; reflexivity | discriminate Hk]|].
    eauto. }
  destruct Hk as [k Hk].
  assert (Hdiv : Z.of_nat (List.length l2) / 2 = Z.of_nat (S k)).
  { rewrite Hk, Nat2Z.inj_mul, Z.mul_comm. apply Z.div_mul. discriminate. }
  assert (Hdivn : (List.length l2 / 2 = S k)%nat).
  { rewrite Hk, Nat.mul_comm. apply Nat.div_mul. discriminate. }
  replace (Z.of_nat (List.length l2) / 2 =? 0) with false
    by (symmetry; apply Z.eqb_neq; lia).
  cbv iota.
  eexists _, _. split; [|split; [|split; [|reflexivity]]].
  - apply hex2buf_loop_roundtrip; [rewrite length_malloc; lia | exact Hhex].
  - reflexivity.
  - cbn [w_stdout printf set_stdin]. rewrite print_public_key_stdout.
    unfold prompts_text. rewrite <- !app_assoc. reflexivity.
Qed.

Lemma main_signs_what_was_typed_witness :
  exists bytes wi,
    hex_encode bytes = str "0102030a"
    /\ w_stdin wi = []
    /\ w_stdout wi
       = w_stdout (world_of (key_retrieval (example_platform 0 0 0)
                               example_indeterminate (empty_world scenario_stdin)))
         ++ public_key_text
              (output_of (key_retrieval (example_platform 0 0 0)
                            example_indeterminate (empty_world scenario_stdin)))
         ++ prompts_text
    /\ main (example_platform 0 0 0) example_indeterminate (empty_world scenario_stdin)
       = (let '(_, status, signature, ws) :=
            webauthn_get_signature (example_platform 0 0 0) (global_eid wi) 0
              bytes (Z.of_nat (List.length (str "0102030a")) / 2)
              (scenario_json ++ NUL :: NUL
                  :: skipn (List.length scenario_json + 2)
                       (map (u_client_data_json example_indeterminate)
                          (seq 0 (Z.to_nat client_data_json_size))))
              client_data_json_size (u_signature example_indeterminate) wi in
          if negb (status =? 0) then
            Ok (-1, printf (line (str "Signature Error: " ++ printf_d status
                                  ++ str "!")) ws)
          else
            Ok (0, sgx_destroy_enclave (example_platform 0 0 0)
                     (global_eid (print_signature signature ws))
                     (print_signature signature ws))).
Proof.
  apply (main_signs_what_was_typed (example_platform 0 0 0) example_indeterminate
           (empty_world scenario_stdin) scenario_json (str "0102030a") []).
  - reflexivity.
  - reflexivity.
  - reflexivity.
  - reflexivity.
  - vm_compute. lia.
  - reflexivity.
  - discriminate.
  - reflexivity.
  - vm_compute. lia.
  - reflexivity.
Defined.

(** ** Quirks of the decoding *)

Lemma sscanf_skips_space c s :
  isspace c = true -> sscanf_2hhx (c :: s) = sscanf_2hhx s.
Proof. intros H. unfold sscanf_2hhx. cbn [skip_space]. rewrite H. reflexivity. Qed.

(** X22.  The pairs are not decoded independently: white space is
    skipped before the two characters of a number are counted.  For a
    string of a white-space character and three lower-case digits
    [d1 d2 d3], [hex2buf] returns two bytes, written [d1 d2] and [d2 d3]:
    the middle digit is used twice. *)
Theorem hex2buf_space_shifts_the_pairs (c d1 d2 d3 : ascii) (fresh : nat -> ascii) :
  isspace c = true ->
  is_lower_hex_digit d1 = true -> is_lower_hex_digit d2 = true ->
  is_lower_hex_digit d3 = true ->
  exists b1 b2,
    hex2buf (Some [c; d1; d2; d3; NUL]) fresh = Ok (2, Some [b1; b2])
    /\ printf_02x b1 = [d1; d2]
    /\ printf_02x b2 = [d2; d3].
Proof.
  intros Hc H1 H2 H3.
  destruct (scan_print_pair d1 d2 [d3] H1 H2) as (b1 & Hs1 & Hp1).
  destruct (scan_print_pair d2 d3 [] H2 H3) as (b2 & Hs2 & Hp2).
  exists b1, b2. split; [|split; assumption].
  assert (Hstr : c_str [c; d1; d2; d3; NUL] = Some [c; d1; d2; d3]).
  { apply (c_str_nul_free [c; d1; d2; d3] []).
    unfold nul_free. cbn [forallb].
    assert (Hn : forall d, is_lower_hex_digit d = true -> negb (Ascii.eqb d NUL) = true).
    { intros d Hd. apply lower_hex_digit_cases in Hd.
      cbn [str list_ascii_of_string In] in Hd.
      repeat (destruct Hd as [<- | Hd]; [reflexivity|]). contradiction Hd. }
    rewrite (Hn d1 H1), (Hn d2 H2), (Hn d3 H3).
    destruct (Ascii.eqb c NUL) eqn:E; [|reflexivity].
    apply Ascii.eqb_eq in E. subst c. discriminate Hc. }
  unfold hex2buf. rewrite Hstr.
  cbn [List.length]. change (to_uint32 (Z.of_nat 4)) with 4.
  change (negb (4 mod 2 =? 0)) with false. cbv iota.
  change (Z.to_nat (4 / 2)) with 2%nat.
  cbn [malloc seq map hex2buf_loop skipn].
  rewrite (sscanf_skips_space c _ Hc), Hs1, Hs2. reflexivity.
Qed.

Lemma hex2buf_space_shifts_the_pairs_witness :
  exists b1 b2,
    hex2buf (Some (str " 123" ++ [NUL])) (fun _ => "U"%char) = Ok (2, Some [b1; b2])
    /\ printf_02x b1 = str "12"
    /\ printf_02x b2 = str "23".
Proof.
  apply (hex2buf_space_shifts_the_pairs " "%char "1"%char "2"%char "3"%char
           (fun _ => "U"%char)); reflexivity.
Defined.

(** ** The token file, continued *)

(** X23.  A token file that cannot be opened for reading but can be
    opened for writing is created or emptied by the attempt: after the
    load it exists with no contents, nothing has been printed, and the
    token handed on is all zero. *)
Theorem load_launch_token_empties_the_file (P : platform) (w : world) :
  open_read (token_path P w) w = None ->
  f_writable (w_fs w (token_path P w)) = true ->
  f_content (w_fs (snd (load_launch_token P w)) (token_path P w)) = Some []
  /\ w_stdout (snd (load_launch_token P w)) = w_stdout w
  /\ token_of (load_launch_token P w) = zero_token P.
Proof.
  intros Hr Hw. unfold load_launch_token, open_token_file, open_write, token_of.
  rewrite Hr, Hw. cbn [fread]. rewrite Nat.eqb_refl. cbn [negb andb fst snd].
  cbn [put_content set_fs w_fs w_stdout]. rewrite path_eqb_refl.
  repeat split.
Qed.

(** A token that exists, may be written but not read, is lost. *)
Lemma load_launch_token_empties_the_file_witness :
  let w := world_with_file (str "/root/enclave.token")
             {| f_content := Some (str "a token"); f_readable := false;
                f_writable := true; f_room := 4096; f_buffered := true |} [] in
  f_content (w_fs (snd (load_launch_token (example_platform 0 0 0) w))
               (token_path (example_platform 0 0 0) w)) = Some []
  /\ w_stdout (snd (load_launch_token (example_platform 0 0 0) w)) = w_stdout w
  /\ token_of (load_launch_token (example_platform 0 0 0) w)
     = zero_token (example_platform 0 0 0).
Proof.
  cbv zeta.
  apply (load_launch_token_empties_the_file (example_platform 0 0 0)
           (world_with_file (str "/root/enclave.token")
              {| f_content := Some (str "a token"); f_readable := false;
                 f_writable := true; f_room := 4096; f_buffered := true |} []));
    reflexivity.
Defined.

(** X24.  The token is written back only when creation succeeded and
    reported an update: when creation fails, or reports no update, the
    files after [initialize_enclave] are the files as the load left them. *)
Theorem launch_token_written_only_on_update (P : platform) (w : world) :
  fst (fst (fst (creation_answer P w))) <> SGX_SUCCESS
  \/ snd (fst (creation_answer P w)) = 0 ->
  w_fs (snd (initialize_enclave P w)) = w_fs (snd (load_launch_token P w)).
Proof.
  unfold creation_answer, initialize_enclave, token_of.
  destruct (load_launch_token P w) as [[fp token] w1]. cbn [fst snd].
  destruct (sgx_create_enclave P _ _ token 0 w1) as [[[ret token1] updated] eid].
  cbn [fst snd]. intros H.
  destruct (ret =? SGX_SUCCESS) eqn:Er; cbn [negb].
  - destruct H as [H | H]; [apply Z.eqb_neq in H; congruence|].
    subst updated. destruct fp; reflexivity.
  - cbn [snd].
    pose proof (print_error_message_frame P ret (set_eid eid w1)) as Hf.
    cbv zeta in Hf. destruct Hf as (_ & Hf & _). rewrite Hf. reflexivity.
Qed.

Lemma launch_token_written_only_on_update_witness :
  let w := world_with_file (str "/root/enclave.token")
             (plain_file (repeat "t"%char 1024)) [] in
  w_fs (snd (initialize_enclave (example_platform 0 0 0) w))
  = w_fs (snd (load_launch_token (example_platform 0 0 0) w)).
Proof.
  cbv zeta.
  apply (launch_token_written_only_on_update (example_platform 0 0 0)
           (world_with_file (str "/root/enclave.token")
              (plain_file (repeat "t"%char 1024)) [])).
  right. reflexivity.
Defined.

(** X25.  A token that the file does not take in full is cut short without
    a word.  The stream buffers the write, so [fwrite] reports every byte
    as written; that the file took fewer shows only when the stream is
    closed, and [initialize_enclave] does not look at what [fclose]
    returns.  When creation succeeds and reports an update,
    [initialize_enclave] returns 0 and prints nothing after the load, and
    the file is left with the first bytes of the token, fewer than a
    token has. *)
Theorem launch_token_short_write_silent (P : platform) (w : world) :
  let answer := creation_answer P w in
  let token1 := snd (fst (fst answer)) in
  let room := f_room (w_fs w (token_path P w)) in
  let w1 := snd (initialize_enclave P w) in
  fst (fst (fst answer)) = SGX_SUCCESS ->
  snd (fst answer) <> 0 ->
  f_writable (w_fs w (token_path P w)) = true ->
  f_buffered (w_fs w (token_path P w)) = true ->
  (room < sizeof_sgx_launch_token_t P)%nat ->
  fst (initialize_enclave P w) = 0
  /\ w_stdout w1 = w_stdout (snd (load_launch_token P w))
  /\ f_content (w_fs w1 (token_path P w)) = Some (firstn room token1)
  /\ (List.length (firstn room token1) < sizeof_sgx_launch_token_t P)%nat.
Proof.
  cbv zeta. unfold creation_answer, token_of. intros Hst Hupd Hw Hb Hroom.
  pose proof (load_launch_token_opens P w Hw) as Hfp.
  pose proof (load_launch_token_frame P w) as Hl. cbv zeta in Hl.
  unfold initialize_enclave.
  destruct (load_launch_token P w) as [[fp token] w0]. cbn [fst snd] in *.
  destruct Hl as (_ & _ & _ & Hfl & _).
  destruct (Hfl (token_path P w)) as (_ & Hfw & Hfroom & Hfb).
  destruct (sgx_create_enclave P _ _ token 0 w0) as [[[ret token1] updated] eid].
  cbn [fst snd] in *. subst ret.
  change (negb (SGX_SUCCESS =? SGX_SUCCESS)) with false. cbv iota.
  destruct fp as [fp|]; [|contradiction Hfp; reflexivity].
  apply Z.eqb_neq in Hupd. rewrite Hupd.
  unfold open_write. cbn [w_fs set_eid]. rewrite Hfw, Hw.
  cbn [fwrite put_content set_fs set_eid w_fs]. rewrite !path_eqb_refl.
  cbn [f_room f_buffered]. rewrite Hfroom, Hfb, Hb.
  rewrite Nat.eqb_refl. cbn [negb fst snd w_stdout w_fs].
  rewrite Nat.min_r by lia.
  split; [reflexivity|]. split; [reflexivity|]. split.
  - cbn [put_content set_fs w_fs]. rewrite !path_eqb_refl. reflexivity.
  - rewrite length_firstn. lia.
Qed.

Lemma launch_token_short_write_silent_witness :
  let P := token_updating_platform in
  let w := world_with_file (str "/root/enclave.token")
             {| f_content := None; f_readable := true;
                f_writable := true; f_room := 100; f_buffered := true |} [] in
  fst (initialize_enclave P w) = 0
  /\ w_stdout (snd (initialize_enclave P w)) = w_stdout (snd (load_launch_token P w))
  /\ f_content (w_fs (snd (initialize_enclave P w)) (token_path P w))
     = Some (firstn (f_room (w_fs w (token_path P w)))
               (snd (fst (fst (creation_answer P w)))))
  /\ (List.length (firstn (f_room (w_fs w (token_path P w)))
                     (snd (fst (fst (creation_answer P w)))))
      < sizeof_sgx_launch_token_t P)%nat.
Proof.
  cbv zeta.
  apply (launch_token_short_write_silent token_updating_platform
           (world_with_file (str "/root/enclave.token")
              {| f_content := None; f_readable := true;
                 f_writable := true; f_room := 100; f_buffered := true |} [])).
  - reflexivity.
  - vm_compute. discriminate.
  - reflexivity.
  - reflexivity.
  - vm_compute. lia.
Defined.

(** Only a stream that writes through lets [fwrite] see the loss, and then
    the warning is what is printed. *)
Example launch_token_write_through_warns :
  let w := world_with_file (str "/root/enclave.token")
             {| f_content := None; f_readable := true;
                f_writable := true; f_room := 100; f_buffered := false |} [] in
  fst (initialize_enclave token_updating_platform w) = 0
  /\ w_stdout (snd (initialize_enclave token_updating_platform w))
     = str "Warning: Failed to save launch token to "
         ++ ["034"%char] ++ str "/root/enclave.token" ++ ["034"%char]
         ++ str "." ++ [newline]
  /\ f_content (w_fs (snd (initialize_enclave token_updating_platform w))
                  (str "/root/enclave.token"))
     = Some (repeat "k"%char 100).
Proof. cbv zeta. repeat split; vm_compute; reflexivity. Qed.
